(** * SignLanguage: acquisition and ledger of sign-language corpora

    A shallow embedding of [datasets/DGS_Korpus/DGS_Korpus.py] and
    [datasets/Youtube-SL-25/youtube-sl-25.py].

    Python values are modelled by inductive types, dictionaries by
    stdpp's [gmap], and the outside world (remote server, file system,
    media prober, YouTube, terminal) by oracles and an explicit state
    that records every call the program makes to it. Exceptions are
    the [Raise] outcome of a small state-and-error monad. *)

From stdpp Require Import gmap strings list pretty.
From Stdlib Require Import Ascii QArith Qround Qabs Lqa.
Close Scope Q_scope.

(** * Python built-ins and library functions used by the scripts *)

Module Py.

(** Exceptions, by class, with their message. *)
Inductive exn :=
| TypeError (msg : string)
| KeyError (msg : string)
| IndexError (msg : string)
| ValueError (msg : string)
| OtherError (msg : string).

(** The outcome of a call: a value or a raised exception. *)
Inductive outcome (A : Type) :=
| Return (a : A)
| Raise (e : exn).
Arguments Return {A} a.
Arguments Raise {A} e.

(** Computations over a state [S] that may raise. The state is kept
    when an exception is raised: effects done so far stay done. *)
Definition M (S A : Type) : Type := S → outcome A * S.

Definition ret {S A} (a : A) : M S A := λ s, (Return a, s).
Definition raise {S A} (e : exn) : M S A := λ s, (Raise e, s).
Definition bind {S A B} (m : M S A) (k : A → M S B) : M S B :=
  λ s, match m s with
       | (Return a, s') => k a s'
       | (Raise e, s') => (Raise e, s')
       end.
Definition modify {S} (f : S → S) : M S unit := λ s, (Return tt, f s).
Definition gets {S A} (f : S → A) : M S A := λ s, (Return (f s), s).

Declare Scope py_scope.
Delimit Scope py_scope with py.
Notation "'let*' x ':=' m 'in' k" := (bind m (λ x, k))
  (at level 10, x pattern, m at level 100, k at level 200) : py_scope.
Notation "'do' m 'in' k" := (bind m (λ _, k))
  (at level 10, m at level 100, k at level 200) : py_scope.

(** [for x in xs: body(x)] with the results collected, as a list
    comprehension or [DataFrame.apply] does; the first exception ends
    the loop. *)
Fixpoint for_each {S A B} (body : A → M S B) (xs : list A) : M S (list B) :=
  match xs with
  | [] => ret []
  | x :: rest =>
      (let* y := body x in
       let* ys := for_each body rest in
       ret (y :: ys))%py
  end.

(** [str(n)] of a non-negative int. *)
Definition str_of_nat (n : nat) : string := pretty n.

(** [os.path.basename(p)] of [posixpath]: [p[p.rfind('/') + 1:]], the
    text after the last slash. [tail] is the text after the last slash
    seen so far. *)
Fixpoint basename_from (tail p : string) : string :=
  match p with
  | EmptyString => tail
  | String c rest =>
      if Ascii.eqb c "/"%char then basename_from rest rest
      else basename_from tail rest
  end.

Definition basename (p : string) : string := basename_from p p.

(** [a.endswith('/')] *)
Fixpoint ends_with_slash (a : string) : bool :=
  match a with
  | EmptyString => false
  | String c EmptyString => Ascii.eqb c "/"%char
  | String _ rest => ends_with_slash rest
  end.

(** [b.startswith('/')] *)
Definition starts_with_slash (b : string) : bool :=
  match b with
  | String c _ => Ascii.eqb c "/"%char
  | EmptyString => false
  end.

(** [os.path.join(a, b)] of [posixpath]: an absolute [b] replaces [a];
    otherwise the two are joined by one slash, which is left out when
    [a] is empty or already ends with one. *)
Definition path_join (a b : string) : string :=
  if starts_with_slash b then b
  else if (String.eqb a "" || ends_with_slash a)%bool then a +:+ b
  else a +:+ "/" +:+ b.

(** Truth value of a [str]: the empty string is false. *)
Definition truthy_str (s : string) : bool := negb (String.eqb s "").

(** ** Text

    A [str] is modelled by a [string] whose characters are its code
    points, which are taken to lie below 256; [str.isspace],
    [str.lower] and [repr] are those of Python on this range. *)

(** ** Python objects

    The values that travel through the tables of the scripts: [None],
    the missing-value marker [numpy.nan], strings and lists. Any other
    object (a number, a tuple) is [VOther], known by the text [str]
    gives for it and by the text of its type. *)
#[warnings="-register-all"]
Inductive pyval :=
| VNone
| VNaN
| VStr (s : string)
| VList (items : list pyval)
| VOther (text type_text : string).

Definition hex_digit (n : nat) : ascii :=
  nth n (String.list_ascii_of_string "0123456789abcdef") "0"%char.

(** One character of the [repr] of a string written between [quote]s. *)
Definition repr_char (quote c : ascii) : string :=
  let n := nat_of_ascii c in
  if (Ascii.eqb c quote || Ascii.eqb c "\"%char)%bool
  then String "\"%char (String c "")
  else if n =? 10 then "\n"
  else if n =? 13 then "\r"
  else if n =? 9 then "\t"
  else if ((n <? 32) || ((127 <=? n) && (n <=? 160)) || (n =? 173))%bool
  then "\x" +:+ String (hex_digit (n / 16)) (String (hex_digit (n mod 16)) "")
  else String c "".

Definition double_quote : ascii := "034"%char.

Definition contains_char (c : ascii) (s : string) : bool :=
  existsb (Ascii.eqb c) (String.list_ascii_of_string s).

(** [repr(s)] of a [str]: single quotes, unless the text holds a single
    quote and no double quote; the characters that are not printable
    are escaped. *)
Definition repr_str (s : string) : string :=
  let quote :=
    if (contains_char "'"%char s && negb (contains_char double_quote s))%bool
    then double_quote else "'"%char in
  String quote
    (String.concat "" (map (repr_char quote) (String.list_ascii_of_string s))
     +:+ String quote "").

(** [repr(v)]; for [VOther] the text of [str], as for numbers. *)
Fixpoint py_repr (v : pyval) : string :=
  match v with
  | VNone => "None"
  | VNaN => "nan"
  | VStr s => repr_str s
  | VList items => "[" +:+ String.concat ", " (map py_repr items) +:+ "]"
  | VOther text _ => text
  end.

(** [str(v)], what an f-string or [to_csv] writes. *)
Definition py_str (v : pyval) : string :=
  match v with
  | VStr s => s
  | _ => py_repr v
  end.

(** The text of [type(v)] in an f-string. *)
Definition py_type (v : pyval) : string :=
  match v with
  | VNone => "<class 'NoneType'>"
  | VNaN => "<class 'float'>"
  | VStr _ => "<class 'str'>"
  | VList _ => "<class 'list'>"
  | VOther _ type_text => type_text
  end.

(** A decimal digit. *)
Definition is_digit (c : ascii) : bool :=
  let n := nat_of_ascii c in ((48 <=? n) && (n <=? 57))%bool.

(** [s.lower()] and [s.strip()]. Below 256 the upper-case letters are
    A to Z and the letters from 192 to 222 but for the sign at 215, each
    32 below its lower-case letter; the white space is the blank, the
    controls 9 to 13 and 28 to 31, the next-line control 133 and the
    no-break space 160. *)
Definition lower_char (c : ascii) : ascii :=
  let n := nat_of_ascii c in
  if (((65 <=? n) && (n <=? 90))
      || ((192 <=? n) && (n <=? 222) && negb (n =? 215)))%bool
  then ascii_of_nat (n + 32) else c.

Definition str_lower (s : string) : string :=
  String.string_of_list_ascii (map lower_char (String.list_ascii_of_string s)).

Definition is_space (c : ascii) : bool :=
  let n := nat_of_ascii c in
  ((n =? 32) || ((9 <=? n) && (n <=? 13)) || ((28 <=? n) && (n <=? 31))
   || (n =? 133) || (n =? 160))%bool.

Fixpoint lstrip (l : list ascii) : list ascii :=
  match l with
  | c :: rest => if is_space c then lstrip rest else l
  | [] => []
  end.

Definition str_strip (s : string) : string :=
  String.string_of_list_ascii
    (rev (lstrip (rev (lstrip (String.list_ascii_of_string s))))).

End Py.

Import Py.
Local Open Scope py_scope.

(** * datasets/DGS_Korpus/DGS_Korpus.py *)

Module DGS.

(** ** The outside world

    What the script reads from and writes to: the paths that exist, the
    persisted tables, the answers typed at the terminal, and a record of
    every remote request, warning, printed line and prober call, oldest
    first. *)

(** A table as [to_csv] lays it out: the row keys and, per column, its
    two-level name and the text of its fields. *)
Record csv_file := CsvFile {
  csv_index : list string;
  csv_columns : list ((string * string) * list string)
}.

Record world := World {
  existing : gset string;
  tables : gmap string csv_file;
  answers : list string;
  requests : list string;
  warnings : list string;
  printed : list string;
  probes : list string
}.

Definition set_existing (f : gset string → gset string) (w : world) : world :=
  World (f (existing w)) (tables w) (answers w) (requests w) (warnings w)
        (printed w) (probes w).
Definition set_tables (f : gmap string csv_file → gmap string csv_file)
  (w : world) : world :=
  World (existing w) (f (tables w)) (answers w) (requests w) (warnings w)
        (printed w) (probes w).
Definition set_answers (f : list string → list string) (w : world) : world :=
  World (existing w) (tables w) (f (answers w)) (requests w) (warnings w)
        (printed w) (probes w).
Definition set_requests (f : list string → list string) (w : world) : world :=
  World (existing w) (tables w) (answers w) (f (requests w)) (warnings w)
        (printed w) (probes w).
Definition set_warnings (f : list string → list string) (w : world) : world :=
  World (existing w) (tables w) (answers w) (requests w) (f (warnings w))
        (printed w) (probes w).
Definition set_printed (f : list string → list string) (w : world) : world :=
  World (existing w) (tables w) (answers w) (requests w) (warnings w)
        (f (printed w)) (probes w).
Definition set_probes (f : list string → list string) (w : world) : world :=
  World (existing w) (tables w) (answers w) (requests w) (warnings w)
        (printed w) (f (probes w)).

(** [logging.warning(msg)] and [print(msg)] *)
Definition logging_warning (msg : string) : M world unit :=
  modify (set_warnings (λ l, l ++ [msg])).
Definition print (msg : string) : M world unit :=
  modify (set_printed (λ l, l ++ [msg])).

(** [input(prompt)]: the prompt is shown and the next typed line is
    returned; [EOFError] when there is none. *)
Definition input (prompt : string) : M world string :=
  do print prompt in
  let* typed := gets answers in
  match typed with
  | line :: rest => do modify (set_answers (λ _, rest)) in ret line
  | [] => raise (OtherError "EOFError")
  end.

(** What one attempt to fetch a URL and store it ends in: the body of
    the [try] of [download_file] ([requests.get], [raise_for_status],
    [open(save_path, 'wb')], then the chunks of the body written one by
    one). An attempt that fails does so with a request exception (its
    text [e]) or with another exception; [opened] tells whether the
    file was opened before, in which case it is there afterwards with
    what was written of it. *)
Inductive response :=
| Fetched
| RequestException (opened : bool) (e : string)
| Uncaught (opened : bool) (e : exn).

(** ** Classification of the links of a catalog cell ([scrape_table]) *)

Definition classify_links (links : list string) : pyval :=
  match links with
  | [link] => VStr link
  | [] => VNone
  | _ => VList (map VStr links)
  end.

(** A row of a table as [apply(..., axis=1)] passes it: its label and
    its cells by column label (the labels of a row are distinct). *)
Record series := Series {
  name : string;
  items : list (string * pyval)
}.

Section Acquisition.

(** The remote server, as seen under the certificate policy [ca_cert]
    of the run: the outcome of fetching a URL, given how many requests
    were made before. *)
Variable server : string → nat → response.

(** ** [download_file]

    [max_retries] is a natural number: for the loop a negative budget
    is an empty range, as zero is. *)

(** The loop over [range(max_retries)]; [attempts] are the values of
    [attempt] still to come. *)
Fixpoint download_attempts (url save_path : string) (max_retries : nat)
  (attempts : list nat) : M world (option string) :=
  match attempts with
  | [] => ret None
  | attempt :: rest =>
      let* earlier := gets (λ w, length (requests w)) in
      do modify (set_requests (λ l, l ++ [url])) in
      match server url earlier with
      | Fetched =>
          do modify (set_existing (λ fs, {[save_path]} ∪ fs)) in
          ret (Some save_path)
      | RequestException opened e =>
          do (if opened
              then modify (set_existing (λ fs, {[save_path]} ∪ fs))
              else ret tt) in
          do logging_warning
               ("Failed to download " +:+ url +:+ " (Attempt "
                +:+ str_of_nat (attempt + 1) +:+ "/" +:+ str_of_nat max_retries
                +:+ "): " +:+ e) in
          if attempt =? max_retries - 1 then
            do logging_warning
                 ("Url " +:+ url +:+ " could not be downloaded after "
                  +:+ str_of_nat max_retries +:+ " attempts.") in
            ret None
          else download_attempts url save_path max_retries rest
      | Uncaught opened e =>
          do (if opened
              then modify (set_existing (λ fs, {[save_path]} ∪ fs))
              else ret tt) in
          raise e
      end
  end.

Definition download_file (url save_path : string) (max_retries : nat)
  : M world (option string) :=
  download_attempts url save_path max_retries (seq 0 max_retries).

(** ** [create_directory] *)

Definition create_directory (path : string) : M world unit :=
  let* fs := gets existing in
  if decide (path ∈ fs) then ret tt
  else modify (set_existing (λ fs, {[path]} ∪ fs)).

(** ** [download_file_row] *)

(** Truth value of what [download_file] returned. *)
Definition truthy (downloaded_file : option string) : bool :=
  match downloaded_file with
  | Some path => truthy_str path
  | None => false
  end.

Definition is_none (v : pyval) : bool :=
  match v with VNone => true | _ => false end.

(** The body of [for url in urls], giving the value appended to
    [paths]. An element that is not a string makes [os.path.basename]
    raise. *)
Definition download_list_item (row_dir : string) (max_retries : nat)
  (url : pyval) : M world pyval :=
  match url with
  | VStr url =>
      let filename := basename url in
      let filepath := path_join row_dir filename in
      let* downloaded_file := download_file url filepath max_retries in
      ret (if truthy downloaded_file then VStr filename else VNone)
  | _ =>
      raise (TypeError "expected str, bytes or os.PathLike object")
  end.

(** The body of [for col in row.index], giving the updated
    [filenames]. *)
Definition download_cell (row_dir : string) (max_retries : nat)
  (filenames : gmap (string * string) pyval) (col : string) (url : pyval)
  : M world (gmap (string * string) pyval) :=
  match url with
  | VStr url =>
      let filename := basename url in
      let filepath := path_join row_dir filename in
      let* downloaded_file := download_file url filepath max_retries in
      do (if truthy downloaded_file then ret tt
          else logging_warning
                 ("Url " +:+ url +:+ " could not be downloaded after "
                  +:+ str_of_nat max_retries +:+ " attempts.")) in
      ret (<[("Paths", col) :=
               if truthy downloaded_file then VStr filename else VNone]>
             filenames)
  | VList urls =>
      let* paths := for_each (download_list_item row_dir max_retries) urls in
      do (if existsb is_none paths
          then logging_warning
                 ("Some URLs in the list " +:+ py_repr (VList urls)
                  +:+ " could not be downloaded after "
                  +:+ str_of_nat max_retries +:+ " attempts.")
          else ret tt) in
      ret (<[("Paths", col) := VList paths]> filenames)
  | VNone => ret (<[("Paths", col) := VNone]> filenames)
  | _ =>
      raise (TypeError ("URL " +:+ py_str url +:+ " of type "
                        +:+ py_type url +:+ "."))
  end.

Fixpoint download_cells (row_dir : string) (max_retries : nat)
  (filenames : gmap (string * string) pyval) (cells : list (string * pyval))
  : M world (gmap (string * string) pyval) :=
  match cells with
  | [] => ret filenames
  | (col, url) :: rest =>
      let* filenames' := download_cell row_dir max_retries filenames col url in
      download_cells row_dir max_retries filenames' rest
  end.

Definition download_file_row (row : series) (base_dir : string)
  (max_retries : nat) : M world (gmap (string * string) pyval) :=
  let row_dir := path_join base_dir (name row) in
  let filenames := {[ ("Paths", "base_dir") := VStr row_dir ]} in
  do create_directory row_dir in
  download_cells row_dir max_retries filenames (items row).

End Acquisition.

(** ** Identifier assignment ([download_data], the [Transcript] column) *)

(** [df.groupby('Transcript').cumcount()]: one pass over the rows in
    their order, with one counter per group key; each row receives the
    current value of its group's counter, which is then advanced. *)
Fixpoint cumcount_from (counters : gmap string nat) (titles : list string)
  : list nat :=
  match titles with
  | [] => []
  | t :: rest =>
      let n := default 0 (counters !! t) in
      n :: cumcount_from (<[t := S n]> counters) rest
  end.

Definition cumcount (titles : list string) : list nat :=
  cumcount_from ∅ titles.

(** [df['Transcript'] + '__' + df.groupby('Transcript').cumcount().astype(str)] *)
Definition assign_identifiers (titles : list string) : list string :=
  zip_with (λ t n, t +:+ "__" +:+ str_of_nat n) titles (cumcount titles).

(** ** [get_video_metadata] and [extract_metadata] *)

(** The values of a metadata record: [None], a float, an int, a pair. *)
Inductive meta_value :=
| MNone
| MFloat (x : Q)
| MInt (n : Z)
| MTuple (a b : meta_value).

(** A stream of a probe result: its ['codec_type'], and what
    [float(stream['duration'])], [int(stream['width'])] and
    [int(stream['height'])] evaluate to (a missing key or a text that is
    no number raises). *)
Record stream := Stream {
  codec_type : string;
  duration : outcome Q;
  width : outcome Z;
  height : outcome Z
}.

(** [ffmpeg.probe(path)]: the streams of the file, or an exception. *)
Inductive probe_result :=
| Probed (streams : list stream)
| ProbeError (e : string).

(** [str(e)] of a caught exception. *)
Definition exn_text (e : exn) : string :=
  match e with
  | TypeError msg | KeyError msg | IndexError msg | ValueError msg
  | OtherError msg => msg
  end.

Definition video_types : list string :=
  ["Video A"; "Video B"; "Video Total"; "Video AB"].

Section Metadata.

(** The media prober, by file path. *)
Variable prober : string → probe_result.

Definition metadata_error (file_path e : string) : M world unit :=
  print ("Error getting metadata for " +:+ file_path +:+ ": " +:+ e).

(** Every exception of the body is caught, printed and turned into
    [None]; a file without a video stream gives [None] at once. *)
Definition get_video_metadata (file_path : string)
  : M world (option (meta_value * meta_value)) :=
  do modify (set_probes (λ l, l ++ [file_path])) in
  match prober file_path with
  | ProbeError e => do metadata_error file_path e in ret None
  | Probed streams =>
      match find (λ st, String.eqb (codec_type st) "video") streams with
      | None => ret None
      | Some video_stream =>
          match duration video_stream with
          | Raise e => do metadata_error file_path (exn_text e) in ret None
          | Return d =>
              match width video_stream with
              | Raise e => do metadata_error file_path (exn_text e) in ret None
              | Return wd =>
                  match height video_stream with
                  | Raise e =>
                      do metadata_error file_path (exn_text e) in ret None
                  | Return ht =>
                      ret (Some (MFloat d, MTuple (MInt wd) (MInt ht)))
                  end
              end
          end
      end
  end.

(** [row[key]] *)
Definition getitem (row : gmap string pyval) (key : string) : M world pyval :=
  match row !! key with
  | Some v => ret v
  | None => raise (KeyError key)
  end.

(** [os.path.join(a, b)] on objects: both must be strings. *)
Definition os_path_join (a b : pyval) : M world string :=
  match a, b with
  | VStr a, VStr b => ret (path_join a b)
  | _, _ => raise (TypeError "expected str, bytes or os.PathLike object")
  end.

(** The body of [for video_type in video_types], giving the updated
    [metadata_dict]. [filename is np.nan] is the test for [VNaN]. *)
Definition extract_role (row : gmap string pyval) (base_dir : pyval)
  (metadata_dict : gmap (string * string) meta_value) (video_type : string)
  : M world (gmap (string * string) meta_value) :=
  let* filename := getitem row video_type in
  let* metadata :=
    match filename with
    | VNaN => ret (Some (MNone, MTuple MNone MNone))
    | _ =>
        let* path := os_path_join base_dir filename in
        get_video_metadata path
    end in
  match metadata with
  | Some (first, second) =>
      ret (<[("Metadata", video_type +:+ " Dimensions") := second]>
             (<[("Metadata", video_type +:+ " Duration") := first]>
                metadata_dict))
  | None => ret metadata_dict
  end.

Fixpoint extract_roles (row : gmap string pyval) (base_dir : pyval)
  (metadata_dict : gmap (string * string) meta_value) (roles : list string)
  : M world (gmap (string * string) meta_value) :=
  match roles with
  | [] => ret metadata_dict
  | video_type :: rest =>
      let* metadata_dict' := extract_role row base_dir metadata_dict video_type in
      extract_roles row base_dir metadata_dict' rest
  end.

Definition extract_metadata (row : gmap string pyval)
  : M world (gmap (string * string) meta_value) :=
  let* base_dir := getitem row "base_dir" in
  extract_roles row base_dir ∅ video_types.

(** [df["Paths"].progress_apply(extract_metadata, axis=1)] *)
Definition extract_all (rows : list (gmap string pyval))
  : M world (list (gmap (string * string) meta_value)) :=
  for_each extract_metadata rows.

End Metadata.

(** ** [seconds_to_hms]

    A finite float is modelled by its exact rational value, and the
    operations on floats by the exact operations followed, where the
    machine rounds, by the rounding to the nearest float. The format
    [.2f] rounds the exact value to the nearest hundredth, ties to
    even. *)

(** The nearest integer, ties to even. *)
Definition round_half_even (x : Q) : Z :=
  let f := Qfloor x in
  match ((x - inject_Z f) ?= 1 # 2)%Q with
  | Lt => f
  | Gt => (f + 1)%Z
  | Eq => if Z.even f then f else (f + 1)%Z
  end.

(** The power [2^k] of an integer [k] of either sign. *)
Definition two_power (k : Z) : Q :=
  if (0 <=? k)%Z then inject_Z (2 ^ k) else (/ inject_Z (2 ^ (- k)))%Q.

(** The exponent of a positive number: the [e] with
    [2^e <= x < 2^(e+1)]. The difference of the binary lengths of
    numerator and denominator is [e] or [e + 1]. *)
Definition binary_exponent (x : Q) : Z :=
  let e := (Z.log2 (Qnum x) - Z.log2 (Zpos (Qden x)))%Z in
  if Qle_bool (two_power e) x then e else (e - 1)%Z.

(** The float nearest to [x], ties to even: [x] is rounded to 53
    significant bits. Overflow and the subnormal range are left out:
    what is rounded below is zero, or lies between the divisor and the
    float it comes from. *)
Definition binary64 (x : Q) : Q :=
  let x := Qred x in
  if Qeq_bool x 0 then 0%Q
  else
    let ulp := two_power (binary_exponent (Qabs x) - 52) in
    let m := inject_Z (round_half_even (Qabs x / ulp)) in
    ((if Qle_bool 0 x then m else - m) * ulp)%Q.

(** [math.trunc] and C's [fmod], which is exact. *)
Definition truncate (q : Q) : Z :=
  if Qle_bool 0 q then Qfloor q else Qceiling q.

Definition fmod (x y : Q) : Q := (x - y * inject_Z (truncate (x / y)))%Q.

(** [(wx < 0) != (mod < 0)] *)
Definition signs_differ (wx m : Q) : bool :=
  negb (Bool.eqb (negb (Qle_bool 0 wx)) (negb (Qle_bool 0 m))).

(** [x % y] of floats, for a divisor that is not zero: the remainder of
    [fmod], moved to the sign of the divisor. *)
Definition py_mod (x y : Q) : Q :=
  let m := fmod x y in
  if (negb (Qeq_bool m 0) && signs_differ y m)%bool
  then binary64 (m + y) else m.

(** [x // y] of floats, for a divisor that is not zero: the quotient
    [(x - mod) / y], each of its two operations rounded, is snapped to
    the nearest integral value. *)
Definition float_floor_div (x y : Q) : Q :=
  let m := fmod x y in
  let div := binary64 (binary64 (x - m) / y) in
  let div :=
    if (negb (Qeq_bool m 0) && signs_differ y m)%bool
    then binary64 (div - 1) else div in
  if Qeq_bool div 0 then 0%Q
  else
    let f := inject_Z (Qfloor div) in
    if Qle_bool (div - f) (1 # 2) then f else (f + 1)%Q.

(** [int(x // y)] *)
Definition floor_div (x y : Q) : Z := Qfloor (float_floor_div x y).

(** [f"{x:.2f}"] *)
Definition format_2f (x : Q) : string :=
  let sign := if Qle_bool 0 x then "" else "-" in
  let hundredths := round_half_even (Qabs x * 100) in
  sign +:+ pretty (hundredths / 100)%Z +:+ "."
       +:+ pretty (hundredths mod 100 / 10)%Z
       +:+ pretty (hundredths mod 10)%Z.

Definition seconds_to_hms (seconds : Q) : string :=
  let hours := floor_div seconds 3600 in
  let minutes := floor_div (py_mod seconds 3600) 60 in
  let seconds := py_mod seconds 60 in
  let result := [] in
  let result :=
    if (0 <? hours)%Z then result ++ [pretty hours +:+ " hours"] else result in
  let result :=
    if (0 <? minutes)%Z then result ++ [pretty minutes +:+ " minutes"]
    else result in
  let result := result ++ [format_2f seconds +:+ " seconds"] in
  String.concat ", " result.

(** ** The Dataset Table and its persisted form

    A table has a key per row and, per column, a two-level name and one
    cell per row. The scripts persist it with [DataFrame.to_csv] and
    read it back with [pandas.read_csv]; of these two library calls the
    model keeps what becomes of each cell: the text written for it, and
    the object read from that text. The row keys are identifiers, which
    hold two underscores, and stay text. *)
Record table := Table {
  index : list string;
  columns : list ((string * string) * list pyval)
}.

(** [pandas.isna] *)
Definition isna (v : pyval) : bool :=
  match v with VNone | VNaN => true | _ => false end.

(** The text [to_csv] writes for a cell: nothing for a missing value,
    [str] of the object otherwise. Quoting of the text for the file and
    its removal by the reader are inverse to each other and are left
    out. *)
Definition csv_field (v : pyval) : string :=
  if isna v then "" else py_str v.

(** [df.to_csv] as a value. *)
Definition to_csv_file (df : table) : csv_file :=
  CsvFile (index df)
          (map (λ col, (col.1, map csv_field col.2)) (columns df)).

(** The texts [read_csv] takes for a missing value by default. *)
Definition na_values : list string :=
  [""; "#N/A"; "#N/A N/A"; "#NA"; "-1.#IND"; "-1.#QNAN"; "-NaN"; "-nan";
   "1.#IND"; "1.#QNAN"; "<NA>"; "N/A"; "NA"; "NULL"; "NaN"; "None"; "n/a";
   "nan"; "null"].

Definition is_na (field : string) : bool :=
  existsb (String.eqb field) na_values.

Section Reader.

(** The type inference of [read_csv] on a column: [Some] of the parsed
    cells when the column is read as numbers or booleans, [None] when it
    is kept as text. *)
Variable infer_column : list string → option (list pyval).

(** A column kept as text holds strings, and NaN for missing values. *)
Definition read_text_field (field : string) : pyval :=
  if is_na field then VNaN else VStr field.

Definition read_column (fields : list string) : list pyval :=
  match infer_column fields with
  | Some cells => cells
  | None => map read_text_field fields
  end.

(** [pd.read_csv(..., header=[0, 1], index_col=0)] as a value. *)
Definition read_csv_file (f : csv_file) : table :=
  Table (csv_index f)
        (map (λ col, (col.1, read_column col.2)) (csv_columns f)).

(** [df.to_csv(path)]. The file system is taken to grant the write: a
    path in a directory that is not there, or the path of a directory,
    which make [open] raise, are left out. *)
Definition to_csv (df : table) (path : string) : M world unit :=
  do modify (set_tables (λ t, <[path := to_csv_file df]> t)) in
  modify (set_existing (λ fs, {[path]} ∪ fs)).

(** [pd.read_csv(path, header=[0, 1], index_col=0)] *)
Definition read_csv (path : string) : M world table :=
  let* persisted := gets tables in
  match persisted !! path with
  | Some f => ret (read_csv_file f)
  | None => raise (OtherError "FileNotFoundError")
  end.

End Reader.

(** ** [download_data] *)

Record args := Args {
  dgs_path : string;
  csv_filename : string;
  csv_filepath : option string
}.

(** A row of the scraped frame: its title, its three descriptive cells
    and its nine resource cells. *)
Record catalog_row := CatalogRow {
  transcript : string;
  attributes : list pyval;
  url_cells : list pyval
}.

Definition data_columns : list string := ["Age Group"; "Format"; "Topics"].

Definition url_columns : list string :=
  ["iLex"; "ELAN"; "Video A"; "Video B"; "Video Total"; "SRT"; "Video AB";
   "CMDI"; "OpenPose"].

(** [shutil.rmtree(path)]: the path and all below it are gone. A path
    is below [path] when it goes on from it after a slash; a [path]
    written with a slash at its end, which names the same directory,
    brings that slash. *)
Definition below (path p : string) : bool :=
  (String.eqb path p
   || String.prefix (if ends_with_slash path then path else path +:+ "/") p
  )%bool.

Definition rmtree (path : string) : M world unit :=
  do modify (set_existing (filter (λ p, below path p = false))) in
  modify (set_tables (filter (λ kv, below path kv.1 = false))).

(** The column of a frame built from a list of records, by key: a
    record without the key gives [missing] (NaN in a frame). *)
Definition column_of {V} (missing : V) (records : list (gmap (string * string) V))
  (key : string * string) : list V :=
  map (λ r, default missing (r !! key)) records.

(** The merged frame: the catalog columns and the ledger columns. *)
Definition dataset_table (ids : list string) (df : list catalog_row)
  (df_paths : list (gmap (string * string) pyval)) : table :=
  Table ids
    (imap (λ i c, (("Data", c), map (λ r, nth i (attributes r) VNaN) df))
          data_columns
     ++ imap (λ i c, (("URLs", c), map (λ r, nth i (url_cells r) VNaN) df))
             url_columns
     ++ map (λ c, (("Paths", c), column_of VNaN df_paths ("Paths", c)))
            ("base_dir" :: url_columns)).

(** The path of the persisted table. *)
Definition table_path (a : args) : string :=
  match csv_filepath a with
  | Some path => if truthy_str path then path
                 else path_join (dgs_path a) (csv_filename a)
  | None => path_join (dgs_path a) (csv_filename a)
  end.

(** The rows of [df["URLs"]], labelled by the identifiers. *)
Definition url_rows (df : list catalog_row) : list series :=
  zip_with (λ id r, Series id (zip url_columns (url_cells r)))
           (assign_identifiers (map transcript df)) df.

Section Download.

Variable server : string → nat → response.

(** [df["URLs"].progress_apply(download_file_row, args=(...), axis=1)]:
    the rows in order, with the default retry budget of 3; nothing
    catches an exception of a row. For a frame without rows nothing is
    done, and what [progress_apply] gives back is no ledger: see
    [download_data]. *)
Definition download_rows (base_dir : string) (rows : list series)
  : M world (list (gmap (string * string) pyval)) :=
  for_each (λ row, download_file_row server row base_dir 3) rows.

(** [download_data], given the frame [scrape_table] returned. The
    frame must have the twelve columns that are renamed, or the
    renaming raises. On a frame without rows [progress_apply] calls
    nothing and gives back the resource columns under their one-level
    names, which [pd.merge] refuses to merge with the two-level frame. *)
Definition download_data (a : args) (df : list catalog_row) : M world unit :=
  let* fs := gets existing in
  do (if decide (dgs_path a ∈ fs) then
        let* user_input :=
          input ("The path " +:+ dgs_path a +:+
                 " already exists. Do you want to replace the existing data? (yes/no): ") in
        if String.eqb (str_lower (str_strip user_input)) "yes" then
          do rmtree (dgs_path a) in
          print ("Removed existing directory " +:+ dgs_path a +:+ ".")
        else
          do print "Download aborted." in
          raise (OtherError "SystemExit")
      else ret tt) in
  do create_directory (dgs_path a) in
  let ids := assign_identifiers (map transcript df) in
  do (if forallb (λ r, (length (attributes r) =? 3)
                       && (length (url_cells r) =? 9))%bool df
      then ret tt
      else raise (ValueError "Length mismatch")) in
  let* df_paths := download_rows (dgs_path a) (url_rows df) in
  do (if bool_decide (df = []) then raise (OtherError "MergeError")
      else ret tt) in
  let merged := dataset_table ids df df_paths in
  do to_csv merged (table_path a) in
  print ("DataFrame saved at " +:+ table_path a).

End Download.

(** ** [analyze_data], up to the extraction of the metadata

    The persisting of the metadata, the statistics and the figures that
    follow the extraction are left out. *)

(** The rows of [df["Paths"]]: per row, the cells of the columns of
    the group, by field name. *)
Definition group_rows (group : string) (df : table)
  : list (gmap string pyval) :=
  imap (λ i _,
          list_to_map
            (omap (λ col, if String.eqb col.1.1 group
                          then Some (col.1.2, nth i col.2 VNaN) else None)
                  (columns df)))
       (index df).

Section Analysis.

Variable infer_column : list string → option (list pyval).
Variable prober : string → probe_result.

Definition analyze_data (a : args)
  : M world (option (list (gmap (string * string) meta_value))) :=
  let figures_dir := path_join (dgs_path a) "_figures" in
  let* fs := gets existing in
  let* proceed :=
    (if decide (figures_dir ∈ fs) then
       let* user_input :=
         input ("The directory " +:+ figures_dir +:+
                " already exists. Do you want to replace its content? (yes/no): ") in
       if String.eqb (str_lower (str_strip user_input)) "yes" then
         do rmtree figures_dir in
         do print ("Removed existing directory " +:+ figures_dir +:+ ".") in
         do modify (set_existing (λ fs, {[figures_dir]} ∪ fs)) in
         ret true
       else
         do print "Operation aborted." in
         ret false
     else ret true) in
  if proceed then
    do modify (set_existing (λ fs, {[figures_dir]} ∪ fs)) in
    do print ("Created directory " +:+ figures_dir +:+ ".") in
    let* df := read_csv infer_column (table_path a) in
    do (if existsb (λ col, String.eqb col.1.1 "Paths") (columns df)
        then ret tt else raise (KeyError "Paths")) in
    let* df_metadata := extract_all prober (group_rows "Paths" df) in
    ret (Some df_metadata)
  else ret None.

End Analysis.

(** ** Notions of the specification *)

(** The number of rows of [rows] that bear the title [t]. *)
Definition occurrences (t : string) (rows : list string) : nat :=
  length (filter (λ x, x = t) rows).

(** A server that fails only by request exceptions: no other
    exception comes out of an attempt. *)
Definition fails_only_by_request (server : string → nat → response) : Prop :=
  ∀ url n, match server url n with Uncaught _ _ => False | _ => True end.

Definition is_str (v : pyval) : bool :=
  match v with VStr _ => true | _ => false end.

(** A resource slot of a Catalog Entry: Absent, Single or Multiple. *)
Definition resource_slot (v : pyval) : bool :=
  match v with
  | VNone | VStr _ => true
  | VList urls => forallb is_str urls
  | _ => false
  end.

(** A local file name, or null. *)
Definition is_path_or_null (v : pyval) : bool :=
  match v with VNone | VStr _ => true | _ => false end.

(** The shape of a ledger value matches that of a resource slot: null
    for Absent, a file name or null for Single, a list of the same
    length of file names or nulls for Multiple. *)
Definition same_shape (slot value : pyval) : bool :=
  match slot, value with
  | VNone, VNone => true
  | VStr _, v => is_path_or_null v
  | VList urls, VList paths =>
      ((length urls =? length paths) && forallb is_path_or_null paths)%bool
  | _, _ => false
  end.

(** The last warning of [download_file] for a URL it gave up on. *)
Definition gave_up_warning (url : string) (max_retries : nat) : string :=
  "Url " +:+ url +:+ " could not be downloaded after "
  +:+ str_of_nat max_retries +:+ " attempts.".

(** A computation whose runs, ended by a value or by an exception,
    relate the world before to the world after by [R]. *)
Definition preserves {A} (R : relation world) (m : M world A) : Prop :=
  ∀ w r w', m w = (r, w') → R w w'.

(** The warnings logged so far are kept. *)
Definition warnings_kept : relation world :=
  λ w w', warnings w `prefix_of` warnings w'.

(** No table is persisted or removed. *)
Definition tables_untouched : relation world :=
  λ w w', tables w = tables w'.

(** Anything other than [None], a string or a list. *)
Definition unexpected_type (v : pyval) : bool :=
  match v with VNaN | VOther _ _ => true | _ => false end.

(** The structural error [download_file_row] raises for such a cell. *)
Definition structural_error (v : pyval) : exn :=
  TypeError ("URL " +:+ py_str v +:+ " of type " +:+ py_type v +:+ ".").

(** A name that stands for one entry of a directory: not empty, not
    one of the two dot names, and without a slash or a null
    character. *)
Definition plain_name (name : string) : bool :=
  (negb (String.eqb name "") && negb (String.eqb name ".")
   && negb (String.eqb name "..") && negb (contains_char "/"%char name)
   && negb (contains_char "000"%char name))%bool.

(** A row of the scraped frame has three descriptive cells and nine
    resource cells. *)
Definition well_sized (r : catalog_row) : Prop :=
  length (attributes r) = 3 ∧ length (url_cells r) = 9.

(** ** Sample inputs *)

Definition fresh_world : world := World ∅ ∅ [] [] [] [] [].

(** A server on which one file is always unreachable. *)
Definition flaky_server (url : string) (n : nat) : response :=
  if String.eqb url "https://host/video/b.mp4"
  then RequestException false "503 Server Error"
  else Fetched.

Definition sample_row : series :=
  Series "X__0"
         [("iLex", VNone);
          ("Video A", VStr "https://host/video/a.mp4");
          ("Video B", VStr "https://host/video/b.mp4");
          ("SRT", VList [VStr "https://host/srt/a.srt";
                         VStr "https://host/video/b.mp4"])].

(** ** Sample batch *)

Definition always_up (url : string) (n : nat) : response := Fetched.

Definition sample_args : args := Args "/data/DGS" "dgs_korpus_paths.csv" None.

Definition sample_attributes : list pyval :=
  [VStr "18-30"; VStr "Conversation"; VStr "Society"].

(** A row whose first resource cell is a float NaN, as the frame holds
    for a table row with fewer cells than the header. *)
Definition broken_entry : catalog_row :=
  CatalogRow "X" sample_attributes
    [VNaN; VNone; VNone; VNone; VNone; VNone; VNone; VNone; VNone].

Definition full_entry : catalog_row :=
  CatalogRow "X" sample_attributes
    [VNone; VNone; VStr "https://host/video/a.mp4";
     VStr "https://host/video/b.mp4"; VStr "https://host/video/t.mp4"; VNone;
     VStr "https://host/video/ab.mp4"; VNone; VNone].

Definition sound_entry : catalog_row :=
  CatalogRow "Y" sample_attributes
    [VNone; VNone; VStr "https://host/video/y.mp4"; VNone; VNone; VNone;
     VNone; VNone; VNone].

(** ** Notions for the metadata *)

(** What probing a file comes to: the measures of its first video
    stream, no video stream, or an exception with its text. *)
Inductive verdict :=
| Measured (d : Q) (wd ht : Z)
| NoVideoStream
| ProbeFailed (e : string).

Definition probe_verdict (r : probe_result) : verdict :=
  match r with
  | ProbeError e => ProbeFailed e
  | Probed streams =>
      match find (λ st, String.eqb (codec_type st) "video") streams with
      | None => NoVideoStream
      | Some video_stream =>
          match duration video_stream, width video_stream,
                height video_stream with
          | Return d, Return wd, Return ht => Measured d wd ht
          | Raise e, _, _ | Return _, Raise e, _
          | Return _, Return _, Raise e => ProbeFailed (exn_text e)
          end
      end
  end.

Definition error_line (file_path e : string) : string :=
  "Error getting metadata for " +:+ file_path +:+ ": " +:+ e.

Definition duration_key (role : string) : string * string :=
  ("Metadata", role +:+ " Duration")%string.

Definition dimensions_key (role : string) : string * string :=
  ("Metadata", role +:+ " Dimensions")%string.

(** A row of the ledger as it is read back: a base directory and, for
    each video role, the missing-value marker or a file name. *)
Definition ledger_row (row : gmap string pyval) : bool :=
  match row !! "base_dir"%string with
  | Some (VStr _) =>
      forallb (λ role, match row !! role with
                       | Some VNaN | Some (VStr _) => true
                       | _ => false
                       end) video_types
  | _ => false
  end.

(** The cell of a role in such a row. *)
Definition role_cell_ok (row : gmap string pyval) (role : string) : Prop :=
  row !! role = Some VNaN ∨ ∃ filename, row !! role = Some (VStr filename).

(** The duration and dimensions a role comes to, if any. *)
Definition role_metadata (prober : string → probe_result) (base : string)
  (row : gmap string pyval) (role : string)
  : option (meta_value * meta_value) :=
  match row !! role with
  | Some VNaN => Some (MNone, MTuple MNone MNone)
  | Some (VStr filename) =>
      match probe_verdict (prober (path_join base filename)) with
      | Measured d wd ht => Some (MFloat d, MTuple (MInt wd) (MInt ht))
      | _ => None
      end
  | _ => None
  end.

(** The files of a row that are probed, in the order of the roles. *)
Definition probed_paths (base : string) (row : gmap string pyval)
  (roles : list string) : list string :=
  omap (λ role, match row !! role with
                | Some (VStr filename) => Some (path_join base filename)
                | _ => None
                end) roles.

(** The world after a file was probed: the call is recorded, and the
    error line is printed when the probe raised. *)
Definition after_probe (prober : string → probe_result) (path : string)
  (w : world) : world :=
  match probe_verdict (prober path) with
  | ProbeFailed e =>
      set_printed (λ l, l ++ [error_line path e])
                  (set_probes (λ l, l ++ [path]) w)
  | _ => set_probes (λ l, l ++ [path]) w
  end.

(** The world after the roles of a row were gone through. *)
Definition after_roles (prober : string → probe_result) (base : string)
  (row : gmap string pyval) (roles : list string) (w : world) : world :=
  foldl (λ w role, match row !! role with
                   | Some (VStr filename) =>
                       after_probe prober (path_join base filename) w
                   | _ => w
                   end) w roles.

(** The record after the roles of a row were gone through. *)
Definition record_roles (prober : string → probe_result) (base : string)
  (row : gmap string pyval) (roles : list string)
  (md : gmap (string * string) meta_value)
  : gmap (string * string) meta_value :=
  foldl (λ md role, match role_metadata prober base row role with
                    | Some (first, second) =>
                        <[dimensions_key role := second]>
                          (<[duration_key role := first]> md)
                    | None => md
                    end) md roles.

(** The error lines printed for a row, in the order of the roles: one
    for each file whose probe raised. *)
Definition error_lines (prober : string → probe_result) (base : string)
  (row : gmap string pyval) (roles : list string) : list string :=
  omap (λ role,
          match row !! role with
          | Some (VStr filename) =>
              match probe_verdict (prober (path_join base filename)) with
              | ProbeFailed e => Some (error_line (path_join base filename) e)
              | _ => None
              end
          | _ => None
          end) roles.

(** Probing did not give the measures of a video stream. *)
Definition failed (v : verdict) : bool :=
  match v with Measured _ _ _ => false | _ => true end.

(** ** Sample ledger rows and probers *)

Definition audio_only : stream :=
  Stream "audio" (Return (25 # 2)%Q) (Raise (KeyError "'width'"))
         (Raise (KeyError "'height'")).

Definition camera : stream := Stream "video" (Return (25 # 2)%Q) (Return 640%Z)
                                     (Return 360%Z).

(** A prober for which one file has sound only, one is unreadable and
    the others hold a video. *)
Definition sample_prober (path : string) : probe_result :=
  if String.eqb path "/data/X__0/a.mp4" then Probed [audio_only]
  else if String.eqb path "/data/X__0/b.mp4"
       then ProbeError "ffprobe error (see stderr output for detail)"
       else Probed [audio_only; camera].

(** A row whose only file has no video stream. *)
Definition sound_only_row : gmap string pyval :=
  list_to_map
    [("base_dir", VStr "/data/X__0"); ("Video A", VStr "a.mp4");
     ("Video B", VNaN); ("Video Total", VNaN); ("Video AB", VNaN)]%string.

(** A float NaN that is not the object [numpy.nan]: what a row holds
    for a column that the reader took for numbers, as it does a column
    that is empty in every row. [filename is np.nan] is false of it. *)
Definition float_nan : pyval := VOther "nan" "<class 'float'>".

(** A row whose only file has no video stream, read back from a table
    whose other columns are empty in every row. *)
Definition empty_column_row : gmap string pyval :=
  list_to_map
    [("base_dir", VStr "/data/X__0"); ("Video A", VStr "a.mp4");
     ("Video B", float_nan); ("Video Total", float_nan);
     ("Video AB", float_nan)]%string.

Definition sample_ledger_row : gmap string pyval :=
  list_to_map
    [("base_dir", VStr "/data/X__0"); ("Video A", VStr "a.mp4");
     ("Video B", VStr "b.mp4"); ("Video Total", VStr "t.mp4");
     ("Video AB", VNaN)]%string.

(** ** Notions for the persisted table *)

Definition starts_with_bracket (field : string) : bool :=
  match field with
  | String c _ => Ascii.eqb c "["%char
  | EmptyString => false
  end.

(** The one fact on the reader's inference that is used: a column
    that holds a field starting with an opening bracket is no column of
    numbers or booleans, and is kept as text. *)
Definition keeps_bracketed_text
  (infer_column : list string → option (list pyval)) : Prop :=
  ∀ fields, existsb starts_with_bracket fields = true →
            infer_column fields = None.

(** Persisting a table and reading it back. *)
Definition round_trip (infer_column : list string → option (list pyval))
  (df : table) : table :=
  read_csv_file infer_column (to_csv_file df).

(** What a cell of a column kept as text is read back as. *)
Definition read_back (v : pyval) : pyval :=
  match v with
  | VNone | VNaN => VNaN
  | VStr s => if is_na s then VNaN else VStr s
  | VList items => VStr (py_repr (VList items))
  | VOther text _ => if is_na text then VNaN else VStr text
  end.

(** ** Sample table and reader *)

Definition all_digits (field : string) : bool :=
  match field with
  | EmptyString => false
  | _ => forallb is_digit (String.list_ascii_of_string field)
  end.

(** A reader that takes a column of decimal numerals for numbers and
    keeps every other column as text. *)
Definition sample_inference (fields : list string) : option (list pyval) :=
  if forallb all_digits fields
  then Some (map (λ field, VOther field "<class 'int'>") fields)
  else None.

(** A reader that, besides, takes a column that is empty in every row
    for a column of floats, all NaN. *)
Definition empty_as_floats (fields : list string) : option (list pyval) :=
  if forallb is_na fields then Some (map (λ _, float_nan) fields)
  else sample_inference fields.

Definition sample_table : table :=
  Table ["X__0"; "Y__0"]%string
        [(("URLs", "SRT"),
          [VList [VStr "https://host/srt/a.srt"; VStr "https://host/srt/b.srt"];
           VNone]);
         (("Paths", "base_dir"), [VStr "/data/X__0"; VStr "/data/Y__0"]);
         (("Paths", "SRT"), [VList [VStr "a.srt"; VNone]; VNone])]%string.

(** The text of a breakdown as the specification words it: the hours
    are left out when zero, the minutes are left out when zero, the
    seconds are always there. *)
Definition hms_text (hours minutes : Z) (secs : string) : string :=
  (if (hours =? 0)%Z then "" else pretty hours +:+ " hours, ")
  +:+ (if (minutes =? 0)%Z then "" else pretty minutes +:+ " minutes, ")
  +:+ secs +:+ " seconds".

(** The remainder of the exact division by a positive number. *)
Definition exact_mod (x y : Q) : Q := (x - y * inject_Z (Qfloor (x / y)))%Q.

(** A decimal numeral, a point and exactly two digits. *)
Definition two_decimal_places (s : string) : Prop :=
  ∃ (whole : Z) (d1 d2 : ascii),
    (0 ≤ whole)%Z ∧ is_digit d1 = true ∧ is_digit d2 = true
    ∧ s = pretty whole +:+ "." +:+ String d1 (String d2 "").


(** ** Further notions of the acquisition *)

(** The warning of [download_file] for the failed attempt number
    [attempt], counted from zero as the loop does. *)
Definition attempt_warning (url : string) (attempt max_retries : nat)
  (e : string) : string :=
  "Failed to download " +:+ url +:+ " (Attempt "
  +:+ str_of_nat (attempt + 1) +:+ "/" +:+ str_of_nat max_retries
  +:+ "): " +:+ e.


(** A server that fails the first two requests it receives and
    answers the later ones. *)
Definition recovering_server (url : string) (n : nat) : response :=
  if n <? 2 then RequestException false "Read timed out" else Fetched.

(** The URLs of a catalog cell. *)
Definition cell_urls (v : pyval) : list string :=
  match v with
  | VStr url => [url]
  | VList urls =>
      omap (λ u, match u with VStr url => Some url | _ => None end) urls
  | _ => []
  end.

(** The URLs of a row, in its order. *)
Definition row_urls (row : series) : list string :=
  concat (map cell_urls (items row).*2).

(** The world went from [w] to [w'] by requests to URLs that satisfy
    [allowed], by new paths and by warnings only. *)
Definition only_requests (allowed : string → Prop) : relation world :=
  λ w w',
    (∃ new, requests w' = requests w ++ new ∧ Forall allowed new)
    ∧ existing w ⊆ existing w'
    ∧ warnings w `prefix_of` warnings w'
    ∧ tables w' = tables w ∧ answers w' = answers w
    ∧ printed w' = printed w ∧ probes w' = probes w.

(** A ledger value names the file of a URL: it is null, or the base
    name of the URL. *)
Definition names_file (url value : pyval) : Prop :=
  value = VNone ∨ ∃ u, url = VStr u ∧ value = VStr (basename u).

(** A ledger value mirrors a resource slot, with the file names the
    code gives. *)
Definition mirrors (slot value : pyval) : Prop :=
  match slot, value with
  | VNone, VNone => True
  | VStr _, _ => names_file slot value
  | VList urls, VList paths => Forall2 names_file urls paths
  | _, _ => False
  end.

(** The files that a ledger value names are stored in the directory of
    the row. *)
Definition files_stored (row_dir : string) (value : pyval) (w : world) : Prop :=
  match value with
  | VStr filename => path_join row_dir filename ∈ existing w
  | VList paths =>
      ∀ filename, VStr filename ∈ paths →
                  path_join row_dir filename ∈ existing w
  | _ => True
  end.


(** The keys of the ledger entry of a row with the column labels
    [cols]. *)
Definition ledger_keys (cols : list string) : gset (string * string) :=
  {[("Paths", "base_dir")%string]}
  ∪ list_to_set (map (λ col, ("Paths"%string, col)) cols).


(** What the extraction of the metadata does to the world: it probes
    and prints, and nothing else. *)
Definition only_probes : relation world :=
  λ w w',
    probes w `prefix_of` probes w'
    ∧ printed w `prefix_of` printed w'
    ∧ existing w' = existing w ∧ tables w' = tables w
    ∧ requests w' = requests w ∧ warnings w' = warnings w
    ∧ answers w' = answers w.

(** The exception a cell of a ledger row ends the extraction with: a
    [KeyError] for a missing column, a [TypeError] for a cell that is
    neither NaN nor text. *)
Definition cell_error (key : string) (cell : option pyval) (e : exn) : Prop :=
  match cell with
  | None => e = KeyError key
  | Some VNaN | Some (VStr _) => False
  | Some _ => ∃ msg, e = TypeError msg
  end.


(** A cell of a ledger row that is neither NaN nor text, or is not
    there. *)
Definition bad_cell (cell : option pyval) : bool :=
  match cell with
  | Some VNaN | Some (VStr _) => false
  | _ => true
  end.

(** A row with a list where the name of the second video should be. *)
Definition list_cell_row : gmap string pyval :=
  list_to_map
    [("base_dir", VStr "/data/X__0"); ("Video A", VStr "a.mp4");
     ("Video B", VList [VStr "b.mp4"]); ("Video Total", VNaN);
     ("Video AB", VNaN)]%string.


(** The prompt of [download_data] for an output root that exists. *)
Definition replace_prompt (a : args) : string :=
  "The path " +:+ dgs_path a +:+
  " already exists. Do you want to replace the existing data? (yes/no): ".

(** No table is persisted below [root], but for the one at [keep]. *)
Definition stale_free (root keep : string) (w : world) : Prop :=
  ∀ p, below root p = true → p ≠ keep → tables w !! p = None.

Definition keeps_stale_free (root keep : string) : relation world :=
  λ w w', stale_free root keep w → stale_free root keep w'.

(** An output root that holds the tables of an earlier run, with the
    answer to the prompt typed ahead. *)
Definition used_world (answer : string) : world :=
  World {["/data/DGS"%string]}
        {["/data/DGS/dgs_korpus_metadata.csv"%string := CsvFile [] []]}
        [answer] [] [] [] [].


(** The names of the columns of the table [download_data] persists:
    the attributes, the URLs, and the ledger. *)
Definition dataset_columns : list (string * string) :=
  map (λ c, ("Data"%string, c)) data_columns
  ++ map (λ c, ("URLs"%string, c)) url_columns
  ++ map (λ c, ("Paths"%string, c)) ("base_dir"%string :: url_columns).


(** The directory of the figures, and the prompt of [analyze_data] when
    it exists. *)
Definition figures_dir (a : args) : string := path_join (dgs_path a) "_figures".

Definition figures_prompt (a : args) : string :=
  "The directory " +:+ figures_dir a +:+
  " already exists. Do you want to replace its content? (yes/no): ".

(** A world with the figures of an earlier analysis and no table. *)
Definition analysed_world (answer : string) : world :=
  World {["/data/DGS/_figures"%string]} ∅ [answer] [] [] [] [].


(** A server whose answer to the first request breaks off in the body,
    and whose second answer is cut by an exception that is no request
    exception, before the file is opened. *)
Definition interrupted_server (url : string) (n : nat) : response :=
  if n <? 1 then RequestException true "Connection broken"
  else Uncaught false (OtherError "KeyboardInterrupt").

End DGS.

(** * datasets/Youtube-SL-25/youtube-sl-25.py *)

Module YT.

(** ** The outside world

    The paths that exist, the answers typed at the terminal, and a
    record, oldest first, of every address contacted, every file
    written, every shell command run and every printed line; [progress]
    is the count of the total progress bar. *)
Record world := World {
  existing : gset string;
  answers : list string;
  network : list string;
  written : list (string * string);
  commands : list string;
  printed : list string;
  progress : nat
}.

Definition set_existing (f : gset string → gset string) (w : world) : world :=
  World (f (existing w)) (answers w) (network w) (written w) (commands w)
        (printed w) (progress w).
Definition set_answers (f : list string → list string) (w : world) : world :=
  World (existing w) (f (answers w)) (network w) (written w) (commands w)
        (printed w) (progress w).
Definition set_network (f : list string → list string) (w : world) : world :=
  World (existing w) (answers w) (f (network w)) (written w) (commands w)
        (printed w) (progress w).
Definition set_written (f : list (string * string) → list (string * string))
  (w : world) : world :=
  World (existing w) (answers w) (network w) (f (written w)) (commands w)
        (printed w) (progress w).
Definition set_commands (f : list string → list string) (w : world) : world :=
  World (existing w) (answers w) (network w) (written w) (f (commands w))
        (printed w) (progress w).
Definition set_printed (f : list string → list string) (w : world) : world :=
  World (existing w) (answers w) (network w) (written w) (commands w)
        (f (printed w)) (progress w).
Definition set_progress (f : nat → nat) (w : world) : world :=
  World (existing w) (answers w) (network w) (written w) (commands w)
        (printed w) (f (progress w)).

Definition print (msg : string) : M world unit :=
  modify (set_printed (λ l, l ++ [msg])).

Definition input (prompt : string) : M world string :=
  do print prompt in
  let* typed := gets answers in
  match typed with
  | line :: rest => do modify (set_answers (λ _, rest)) in ret line
  | [] => raise (OtherError "EOFError")
  end.

(** [total_pbar.update(n)] *)
Definition total_pbar_update (n : nat) : M world unit :=
  modify (set_progress (λ done, done + n)).

(** ** [create_directory] *)

Definition create_directory (directory_name : string) : M world unit :=
  let* fs := gets existing in
  if decide (directory_name ∈ fs) then ret tt
  else modify (set_existing (λ fs, {[directory_name]} ∪ fs)).

(** ** [download_video] *)

(** What YouTube gives for a video id: a title and a stream that
    downloads, or an exception somewhere in the [try]. *)
Inductive video_result :=
| Downloadable (title : string)
| Fails (e : string).

(** The sanitized title, [re.sub] with the empty replacement: the
    characters backslash, slash, star, question mark, colon, double
    quote, angle brackets and bar are taken out. *)
Definition forbidden_in_filenames : string :=
  String double_quote "\/*?:<>|".

Definition sanitize (title : string) : string :=
  String.string_of_list_ascii
    (filter (λ c, contains_char c forbidden_in_filenames = false)
            (String.list_ascii_of_string title)).

Section Videos.

Variable youtube : string → video_result.

Definition download_video (video_id directory_name : string) : M world unit :=
  let url := "https://www.youtube.com/watch?v=" +:+ video_id in
  do modify (set_network (λ l, l ++ [url])) in
  match youtube video_id with
  | Downloadable title =>
      let title := sanitize title in
      let filename := video_id +:+ "_" +:+ title +:+ ".mp4" in
      do modify (set_written (λ l, l ++ [(directory_name, filename)])) in
      do modify (set_existing
                   (λ fs, {[path_join directory_name filename]} ∪ fs)) in
      print ("Downloaded " +:+ filename +:+ " to " +:+ directory_name)
  | Fails e => print ("Failed to download " +:+ video_id +:+ ": " +:+ e)
  end.

(** ** [handle_existing_directory] *)

(** The choices of [--replace]. *)
Inductive replace_option := All | Skip | Custom.

(** A path is below [path] when it goes on from it after a slash; a
    [path] written with a slash at its end, which names the same
    directory, brings that slash. *)
Definition below (path p : string) : bool :=
  (String.eqb path p
   || String.prefix (if ends_with_slash path then path else path +:+ "/") p
  )%bool.

(** A character that the shell reads as itself wherever it stands in a
    word: a letter, a digit, or one of [/ _ - . + , @ % :]. *)
Definition plain_char (c : ascii) : bool :=
  let n := nat_of_ascii c in
  ((48 <=? n) && (n <=? 57) || (65 <=? n) && (n <=? 90)
   || (97 <=? n) && (n <=? 122) || contains_char c "/_-.+,@%:")%bool.

(** A name that the command line [rm -rf name] hands to [rm] as its one
    operand, and that [rm] accepts: made of plain characters, not
    starting with a dash, which would make it an option, and ending in
    a component other than the dot names and the empty one, which [rm]
    refuses. *)
Definition shell_word (name : string) : bool :=
  (forallb plain_char (String.list_ascii_of_string name)
   && negb (String.prefix "-" name)
   && negb (String.eqb (basename name) "")
   && negb (String.eqb (basename name) ".")
   && negb (String.eqb (basename name) ".."))%bool.

(** What the shell makes of a command line, as the paths that exist
    once the command has run. *)
Variable shell : string → gset string → gset string.

(** [os.system(f"rm -rf {directory_name}")]: the name goes into the
    command line as it is, without quotes. Where it reads as one word,
    the command removes the path and all below it; what the shell makes
    of any other name, which it may split at blanks or expand, is left
    to [shell]. *)
Definition rm_rf (directory_name : string) : M world unit :=
  let command := "rm -rf " +:+ directory_name in
  do modify (set_commands (λ l, l ++ [command])) in
  if shell_word directory_name
  then modify (set_existing (filter (λ p, below directory_name p = false)))
  else modify (set_existing (shell command)).

Definition handle_existing_directory (directory_name : string)
  (option : replace_option) : M world bool :=
  match option with
  | All =>
      do rm_rf directory_name in
      do create_directory directory_name in
      ret true
  | Skip => ret false
  | Custom =>
      let* choice :=
        input ("Directory " +:+ directory_name +:+
               " already exists. Do you want to replace it? (y/n): ") in
      if String.eqb (str_lower (str_strip choice)) "y" then
        do rm_rf directory_name in
        do create_directory directory_name in
        ret true
      else ret false
  end.

(** ** [main], from the rows of the metadata file on *)

Record args := Args {
  csv_file : string;
  output_dir : string;
  languages : list string;
  replace : replace_option
}.

(** [video[1]] *)
Definition language_of (video : list string) : M world string :=
  match video with
  | _ :: language :: _ => ret language
  | _ => raise (IndexError "list index out of range")
  end.

(** [[video for video in video_data if video[1] in selected]] and
    [[video for video in video_data if video[1] == language]] *)
Fixpoint select_videos (keep : string → bool) (video_data : list (list string))
  : M world (list (list string)) :=
  match video_data with
  | [] => ret []
  | video :: rest =>
      let* language := language_of video in
      let* kept := select_videos keep rest in
      ret (if keep language then video :: kept else kept)
  end.

(** The body of [for video_id, _ in lang_videos]. *)
Definition download_row (lang_dir : string) (video : list string)
  : M world unit :=
  match video with
  | [video_id; _] =>
      do download_video video_id lang_dir in
      total_pbar_update 1
  | _ => raise (ValueError "cannot unpack")
  end.

(** The body of [for language in languages]. *)
Definition process_language (a : args) (video_data : list (list string))
  (language : string) : M world unit :=
  let* lang_videos := select_videos (String.eqb language) video_data in
  let lang_dir := path_join (output_dir a) language in
  let* fs := gets existing in
  let* proceed :=
    (if decide (lang_dir ∈ fs) then
       let* replaced := handle_existing_directory lang_dir (replace a) in
       if negb replaced then
         do print ("Skipping " +:+ lang_dir) in
         do total_pbar_update (length lang_videos) in
         ret false
       else ret true
     else
       do create_directory lang_dir in
       ret true) in
  if proceed then
    do for_each (download_row lang_dir) lang_videos in ret tt
  else ret tt.

(** The order in which the set of languages is iterated. *)
Variable set_order : gset string → list string.

Definition main (a : args) (video_data : list (list string)) : M world unit :=
  let* video_data :=
    match languages a with
    | [] => ret video_data
    | selected =>
        select_videos (λ l, existsb (String.eqb l) selected) video_data
    end in
  let* tagged := for_each language_of video_data in
  let languages := set_order (list_to_set tagged) in
  do for_each (process_language a video_data) languages in
  ret tt.

(** ** [main], whole

    The metadata file is fetched when [csv_file] is an address, and
    read; [main] above goes on from its rows. *)

(** What [download_csv_from_url] ends in, under the certificate policy
    of the run: the body of the answer, stored at the path, or an
    exception of the request, of the status, or of the opening and
    writing of the file; [opened] tells whether the file was opened
    before, in which case it is there afterwards. *)
Inductive csv_download :=
| Stored (content : string)
| NotStored (opened : bool) (e : exn).

Variable csv_server : string → csv_download.

(** [urlparse(url).path] *)
Variable url_path : string → string.

(** The bytes of a file that is there when the run starts, or the
    exception of [open]. *)
Variable local_file : string → outcome string.

(** What [csv.reader] reads from a file of these bytes: its rows, or
    the exception of the decoding or of the reader. *)
Variable csv_reader : string → outcome (list (list string)).

(** [csv_file.startswith('http://') or csv_file.startswith('https://')] *)
Definition is_url (csv_file : string) : bool :=
  (String.prefix "http://" csv_file || String.prefix "https://" csv_file)%bool.

(** [download_csv_from_url]: with the path of the file, the bytes that
    are stored there. *)
Definition download_csv_from_url (url output_dir : string)
  : M world (string * string) :=
  do modify (set_network (λ l, l ++ [url])) in
  let file_name := basename (url_path url) in
  let file_path := path_join output_dir file_name in
  match csv_server url with
  | Stored content =>
      do modify (set_written (λ l, l ++ [(output_dir, file_name)])) in
      do modify (set_existing (λ fs, {[file_path]} ∪ fs)) in
      ret (file_path, content)
  | NotStored opened e =>
      do (if opened then modify (set_existing (λ fs, {[file_path]} ∪ fs))
          else ret tt) in
      raise e
  end.

(** [read_csv(file_path)], of a file of these bytes. *)
Definition read_csv (content : outcome string)
  : M world (list (list string)) :=
  match content with
  | Return bytes =>
      match csv_reader bytes with
      | Return video_data => ret video_data
      | Raise e => raise e
      end
  | Raise e => raise e
  end.

Definition script_main (a : args) : M world unit :=
  let* content :=
    (if is_url (csv_file a) then
       let* stored := download_csv_from_url (csv_file a) (output_dir a) in
       ret (Return stored.2)
     else ret (local_file (csv_file a))) in
  let* video_data := read_csv content in
  main a video_data.

End Videos.

(** ** Notions of the specification *)

(** The rows of the metadata file that belong to a unit (a language). *)
Definition unit_items (language : string) (video_data : list (list string))
  : list (list string) :=
  List.filter (λ video, String.eqb language (nth 1 video "")) video_data.

(** ** Sample run *)

Definition sample_videos : list (list string) :=
  [["id1"; "ase"]; ["id2"; "bfi"]; ["id3"; "ase"]]%string.

Definition sample_args : args := Args "metadata.csv" "/out" [] Skip.

Definition sample_world : world :=
  World {["/out/ase"%string]} [] [] [] [] [] 0.

Definition sample_youtube (video_id : string) : video_result :=
  Downloadable "clip".

(** A shell on which the command lines left to it change nothing. *)
Definition quiet_shell (command : string) (fs : gset string) : gset string :=
  fs.


(** ** Further notions *)

(** The address [download_video] contacts for a video id. *)
Definition video_url (video_id : string) : string :=
  "https://www.youtube.com/watch?v=" +:+ video_id.

(** The rows [main] goes through: all of them, or those of the
    languages asked for. *)
Definition selected_videos (a : args) (video_data : list (list string))
  : list (list string) :=
  match languages a with
  | [] => video_data
  | selected =>
      List.filter (λ video, existsb (String.eqb (nth 1 video "")) selected)
                  video_data
  end.



(** A set is iterated in some order, each member once. *)
Definition iterates_once (set_order : gset string → list string) : Prop :=
  ∀ s, NoDup (set_order s) ∧ ∀ x, x ∈ set_order s ↔ x ∈ s.

(** The prompt of the policy [custom]. *)
Definition replace_prompt (directory_name : string) : string :=
  "Directory " +:+ directory_name +:+
  " already exists. Do you want to replace it? (y/n): ".


(** A world in which the directory of a language exists and an answer
    is typed ahead. *)
Definition asked_world (answer : string) : world :=
  World {["/out/ase"%string]} [answer] [] [] [] [] 0.

Definition custom_args : args := Args "metadata.csv" "/out" [] Custom.

(** The world once the metadata file of the address [csv_file] is
    stored in the output directory. *)
Definition csv_stored (url_path : string → string) (a : args) (w : world)
  : world :=
  let file_name := basename (url_path (csv_file a)) in
  set_existing (λ fs, {[path_join (output_dir a) file_name]} ∪ fs)
    (set_written (λ l, l ++ [(output_dir a, file_name)])
       (set_network (λ l, l ++ [csv_file a]) w)).

(** ** Sample metadata files *)

Definition remote_args : args :=
  Args "https://host/sl/metadata.csv?alt=media" "/out" [] Skip.

Definition sample_url_path (url : string) : string := "/sl/metadata.csv".

Definition sample_csv_server (url : string) : csv_download :=
  Stored "id1,ase".

Definition sample_local_file (path : string) : outcome string :=
  Return "id1,ase".

(** A reader for a file whose last line has one field. *)
Definition sample_csv_reader (content : string)
  : outcome (list (list string)) :=
  Return (sample_videos ++ [["id4"%string]]).

(** A shell that splits the one command line it knows at its blank,
    as [sh] does: [rm] is given the two operands [/out/my] and
    [lang]. *)
Definition splitting_shell (command : string) (fs : gset string)
  : gset string :=
  if String.eqb command "rm -rf /out/my lang"
  then filter (λ p, (below "/out/my" p || below "lang" p)%bool = false) fs
  else fs.

(** A world with a directory whose name has a blank, a video in it,
    and a directory that bears the first word of the name. *)
Definition blank_world : world :=
  World {["/out/my lang"; "/out/my lang/id1_clip.mp4"; "/out/my"]}%string
        [] [] [] [] [] 0.

(** A world with the directories of two languages and a video in the
    first. *)
Definition filled_world : world :=
  World {["/out/ase"; "/out/ase/id1_clip.mp4"; "/out/bfi"]}%string
        [] [] [] [] [] 0.

End YT.

(** * Properties *)

Import DGS.

(** ** The models at work *)

Example basename_of_url :
  basename "https://host/meinedgs/video/1413451_1a1.mp4"
  = "1413451_1a1.mp4"%string.
Proof. reflexivity. Qed.

Example path_join_relative :
  path_join "/data/DGS" "X__0" = "/data/DGS/X__0"%string.
Proof. reflexivity. Qed.

Example path_join_absolute : path_join "/data/DGS" "/tmp/x" = "/tmp/x"%string.
Proof. reflexivity. Qed.

(** An answer with a no-break space and a next-line character after
    it is the answer itself. *)
Example strip_takes_all_blanks :
  str_lower (str_strip (" Yes" +:+ String "160"%char (String "133"%char "")))
  = "yes"%string.
Proof. reflexivity. Qed.

(** A root written with a slash at its end is cleared as well, and a
    path that only begins with the letters of the root is not below
    it. *)
Example below_a_root :
  below "/data/DGS/" "/data/DGS/dgs_korpus_metadata.csv" = true
  ∧ below "/data/DGS" "/data/DGS/dgs_korpus_metadata.csv" = true
  ∧ below "/data/DGS" "/data/DGS_old/dgs_korpus_metadata.csv" = false
  ∧ tables
      (download_data always_up
         (Args "/data/DGS/" "dgs_korpus_paths.csv" None) [sound_entry]
         (World {["/data/DGS/"%string]}
                {["/data/DGS/dgs_korpus_metadata.csv"%string := CsvFile [] []]}
                ["yes"%string] [] [] [] [])).2
    !! "/data/DGS/dgs_korpus_metadata.csv"%string
    = None.
Proof. vm_compute. repeat split. Qed.

Example repr_of_paths :
  py_repr (VList [VStr "a.srt"; VNone; VStr "it's"])
  = String.concat "" ["['a.srt', None, "; String double_quote "it's";
                      String double_quote "]"].
Proof. reflexivity. Qed.

Example classify_links_cases :
  classify_links [] = VNone
  ∧ classify_links ["u"]%string = VStr "u"
  ∧ classify_links ["u"; "v"]%string = VList [VStr "u"; VStr "v"].
Proof. repeat split. Qed.

Example identifiers_of_titles :
  assign_identifiers ["X"; "Y"; "X"; "X"; "Z"]%string
  = ["X__0"; "Y__0"; "X__1"; "X__2"; "Z__0"]%string.
Proof. reflexivity. Qed.

Example half_even_rounding :
  format_2f (1 # 8) = "0.12"%string ∧ format_2f (3 # 8) = "0.38"%string
  ∧ seconds_to_hms 7200 = "2 hours, 0.00 seconds"%string.
Proof. repeat split. Qed.

(** Beyond 2^53 seconds the hours are those of the float division:
    10^20 seconds are 27777777777777777 hours and 2800 seconds, and the
    float quotient is the even neighbour. *)
Example large_duration_hours :
  seconds_to_hms (inject_Z (10 ^ 20))
  = "27777777777777776 hours, 46 minutes, 40.00 seconds"%string.
Proof. vm_compute. reflexivity. Qed.

(** A whole download of two entries, then the analysis of the table it
    persisted: every video role has a file in the first row, so that
    its column is read back as text, with the object [numpy.nan] where
    the second row has no file. *)
Example download_then_analyze :
  (download_data always_up sample_args [full_entry; sound_entry]
     fresh_world).1 = Return tt
  ∧ csv_index <$>
      tables (download_data always_up sample_args [full_entry; sound_entry]
                fresh_world).2 !! "/data/DGS/dgs_korpus_paths.csv"%string
    = Some ["X__0"; "Y__0"]%string
  ∧ probes
      (analyze_data empty_as_floats sample_prober sample_args
         (download_data always_up sample_args [full_entry; sound_entry]
            fresh_world).2).2
    = ["/data/DGS/X__0/a.mp4"; "/data/DGS/X__0/b.mp4";
       "/data/DGS/X__0/t.mp4"; "/data/DGS/X__0/ab.mp4";
       "/data/DGS/Y__0/y.mp4"]%string.
Proof. vm_compute. repeat split. Qed.

(** A catalog without rows is not persisted: the root is created, and
    the merge raises. *)
Example empty_catalog_is_not_persisted :
  (download_data always_up sample_args [] fresh_world).1
  = Raise (OtherError "MergeError")
  ∧ tables (download_data always_up sample_args [] fresh_world).2
    !! "/data/DGS/dgs_korpus_paths.csv"%string
    = None.
Proof. vm_compute. split; reflexivity. Qed.

(** The same download, read back by a reader that takes the columns
    that are empty in every row for floats: the first row ends the
    analysis at its second role. *)
Example empty_column_ends_analysis :
  (analyze_data empty_as_floats sample_prober sample_args
     (download_data always_up sample_args [sound_entry; sound_entry]
        fresh_world).2).1
  = Raise (TypeError "expected str, bytes or os.PathLike object")
  ∧ probes
      (analyze_data empty_as_floats sample_prober sample_args
         (download_data always_up sample_args [sound_entry; sound_entry]
            fresh_world).2).2
    = ["/data/DGS/Y__0/y.mp4"]%string.
Proof. vm_compute. repeat split. Qed.

(** ** Identifier assignment *)

Lemma cumcount_from_lookup (titles : list string) :
  ∀ (counters : gmap string nat) (i : nat) (t : string),
    titles !! i = Some t →
    cumcount_from counters titles !! i
    = Some (default 0 (counters !! t) + occurrences t (take i titles)).
Proof.
  induction titles as [|a rest IH]; intros counters i t Hi; [done|].
  destruct i as [|i]; simpl in *.
  - injection Hi as ->. f_equal. unfold occurrences. simpl. lia.
  - rewrite (IH _ _ _ Hi). f_equal. unfold occurrences.
    rewrite filter_cons. destruct (decide (a = t)) as [->|Hne].
    + rewrite lookup_insert_eq. simpl. lia.
    + rewrite lookup_insert_ne by done. done.
Qed.

Lemma assign_identifiers_lookup (titles : list string) (i : nat) (t : string) :
  titles !! i = Some t →
  assign_identifiers titles !! i
  = Some (t +:+ "__" +:+ str_of_nat (occurrences t (take i titles))).
Proof.
  intros Hi. unfold assign_identifiers, cumcount.
  rewrite lookup_zip_with, Hi. simpl.
  rewrite (cumcount_from_lookup _ _ _ _ Hi), lookup_empty. done.
Qed.

Lemma assign_identifiers_length (titles : list string) :
  length (assign_identifiers titles) = length titles.
Proof.
  unfold assign_identifiers, cumcount. rewrite length_zip_with.
  assert (H : ∀ c, length (cumcount_from c titles) = length titles).
  { induction titles as [|a rest IH]; intros c; simpl; [done|].
    by rewrite IH. }
  rewrite H. lia.
Qed.

Lemma string_app_length (a b : string) :
  String.length (a +:+ b) = String.length a + String.length b.
Proof. induction a as [|c a IH]; simpl; [done|]. by rewrite IH. Qed.

Lemma string_app_assoc (a b c : string) :
  (a +:+ b) +:+ c = a +:+ (b +:+ c).
Proof.
  induction a as [|x a IH]; [done|].
  change (String x ((a +:+ b) +:+ c) = String x (a +:+ b +:+ c)).
  by f_equal.
Qed.

Lemma suffixed_differs (t suffix : string) :
  0 < String.length suffix → t +:+ suffix ≠ t.
Proof.
  intros Hpos Heq. apply (f_equal String.length) in Heq.
  rewrite string_app_length in Heq. lia.
Qed.

Lemma occurrences_absent (t : string) (rows : list string) :
  t ∉ rows → occurrences t rows = 0.
Proof.
  intros Hnot. unfold occurrences.
  induction rows as [|a rest IH]; [done|].
  rewrite filter_cons. apply not_elem_of_cons in Hnot as [Hne Hrest].
  destruct (decide (a = t)); [congruence|]. by apply IH.
Qed.

Lemma occurrences_cons_eq (t : string) (rows : list string) :
  occurrences t (t :: rows) = S (occurrences t rows).
Proof.
  unfold occurrences. rewrite filter_cons.
  destruct (decide (t = t)); [done|congruence].
Qed.

Lemma occurrences_app (t : string) (l k : list string) :
  occurrences t (l ++ k) = occurrences t l + occurrences t k.
Proof. unfold occurrences. by rewrite filter_app, length_app. Qed.

Lemma occurrences_take_le (t : string) (rows : list string) (i : nat) :
  rows !! i = Some t → S (occurrences t (take i rows)) ≤ occurrences t rows.
Proof.
  intros Hi. rewrite <- (take_drop_middle rows i t Hi) at 2.
  rewrite occurrences_app, occurrences_cons_eq. lia.
Qed.

(** C10. Every catalog row receives as identifier its title, followed
    by two underscores and by the number, from zero, of the rows before
    it that bear the same title. The identifier never is the bare
    title, and a title that occurs once in the catalog receives the
    suffix [__0]. *)
Theorem identifier_is_title_and_count
  (titles : list string) (i : nat) (t : string) :
  titles !! i = Some t →
  ∃ id, assign_identifiers titles !! i = Some id
        ∧ id = t +:+ "__" +:+ str_of_nat (occurrences t (take i titles))
        ∧ id ≠ t
        ∧ (occurrences t titles = 1 → id = t +:+ "__0").
Proof.
  intros Hi. eexists. split; [by apply assign_identifiers_lookup|].
  split; [done|]. split.
  - apply suffixed_differs. simpl. lia.
  - intros Honce. pose proof (occurrences_take_le _ _ _ Hi) as Hle.
    replace (occurrences t (take i titles)) with 0 by lia. done.
Qed.

Lemma identifier_is_title_and_count_witness :
  ∃ id, assign_identifiers ["a"; "b"; "a"]%string !! 1 = Some id
        ∧ id = "b__0"%string.
Proof.
  destruct (identifier_is_title_and_count ["a"; "b"; "a"]%string 1 "b"
              eq_refl) as (id & Hid & _ & _ & Honce).
  exists id. split; [exact Hid | apply Honce; reflexivity].
Defined.

(** C7. When two rows of the catalog carry the title [X], the first of
    them receives the identifier [X__0] and the second [X__1], at their
    places in the input order; the assignment is a function of the
    list of titles. *)
Theorem duplicate_titles_disambiguated
  (before between after : list string) (X : string) :
  X ∉ before → X ∉ between →
  assign_identifiers (before ++ X :: between ++ X :: after)
    !! length before = Some (X +:+ "__0")
  ∧ assign_identifiers (before ++ X :: between ++ X :: after)
      !! (length before + S (length between)) = Some (X +:+ "__1").
Proof.
  intros Hbefore Hbetween. split.
  - rewrite (assign_identifiers_lookup _ _ X).
    + rewrite take_app_length.
      by rewrite (occurrences_absent _ _ Hbefore).
    + by rewrite list_lookup_middle.
  - rewrite (assign_identifiers_lookup _ _ X).
    + rewrite take_app_add', (app_comm_cons between), take_app_length' by
        (simpl; done).
      rewrite occurrences_app, (occurrences_absent _ _ Hbefore).
      rewrite occurrences_cons_eq.
      by rewrite (occurrences_absent _ _ Hbetween).
    + rewrite lookup_app_r by lia.
      replace (length before + S (length between) - length before)
        with (S (length between)) by lia.
      simpl. by rewrite list_lookup_middle.
Qed.

Lemma duplicate_titles_disambiguated_witness :
  assign_identifiers ["W"; "X"; "Y"; "X"; "Z"]%string !! 1 = Some "X__0"%string
  ∧ assign_identifiers ["W"; "X"; "Y"; "X"; "Z"]%string !! 3
    = Some "X__1"%string.
Proof.
  apply (duplicate_titles_disambiguated ["W"]%string ["Y"]%string
           ["Z"]%string "X");
    (apply not_elem_of_cons; split; [discriminate | apply not_elem_of_nil]).
Defined.

(** ** Duration formatting *)

Lemma Qfloor_unique (q : Q) (z : Z) :
  (inject_Z z <= q)%Q → (q < inject_Z z + 1)%Q → Qfloor q = z.
Proof.
  intros Hle Hlt.
  pose proof (Qfloor_le q) as Hfl. pose proof (Qlt_floor q) as Hfu.
  rewrite inject_Z_plus in Hfu. change (inject_Z 1) with 1%Q in Hfu.
  assert (H1 : (inject_Z z < inject_Z (Qfloor q) + 1)%Q) by lra.
  assert (H2 : (inject_Z (Qfloor q) < inject_Z z + 1)%Q) by lra.
  change 1%Q with (inject_Z 1) in H1, H2.
  rewrite <- inject_Z_plus in H1, H2.
  rewrite <- Zlt_Qlt in H1, H2. lia.
Qed.

Lemma Qfloor_nonneg (q : Q) : (0 <= q)%Q → (0 ≤ Qfloor q)%Z.
Proof.
  intros Hq. change 0%Z with (Qfloor (inject_Z 0)).
  by apply Qfloor_resp_le.
Qed.

Lemma round_half_even_nonneg (x : Q) : (0 <= x)%Q → (0 ≤ round_half_even x)%Z.
Proof.
  intros Hx. pose proof (Qfloor_nonneg x Hx). unfold round_half_even.
  destruct (_ ?= _)%Q; [destruct (Z.even _)|..]; lia.
Qed.

Lemma round_half_even_int (q : Q) (z : Z) :
  (q == inject_Z z)%Q → round_half_even q = z.
Proof.
  intros Hq. unfold round_half_even.
  assert (Hf : Qfloor q = z) by (rewrite Hq; apply Qfloor_Z).
  rewrite Hf.
  assert (Hlt : (q - inject_Z z < 1 # 2)%Q) by (rewrite Hq; lra).
  assert (Hc : (q - inject_Z z ?= 1 # 2)%Q = Lt) by by apply Qlt_alt.
  by rewrite Hc.
Qed.

(** *** Rounding to the nearest float *)

Lemma two_power_pos (k : Z) : (0 < two_power k)%Q.
Proof.
  unfold two_power. destruct (Z.leb_spec 0 k) as [Hk|Hk].
  - change 0%Q with (inject_Z 0). rewrite <- Zlt_Qlt.
    by apply Z.pow_pos_nonneg.
  - apply Qinv_lt_0_compat. change 0%Q with (inject_Z 0).
    rewrite <- Zlt_Qlt. apply Z.pow_pos_nonneg; lia.
Qed.

(** The rounding does not depend on how the fraction is written. *)
Lemma binary64_comp (x y : Q) : (x == y)%Q → binary64 x = binary64 y.
Proof. intros Hxy. unfold binary64. by rewrite (Qred_complete _ _ Hxy). Qed.

Lemma binary64_nonneg (x : Q) : (0 <= x)%Q → (0 <= binary64 x)%Q.
Proof.
  intros Hx. unfold binary64.
  destruct (Qeq_bool (Qred x) 0); [lra|].
  assert (Hpos : Qle_bool 0 (Qred x) = true).
  { apply Qle_bool_iff. by rewrite Qred_correct. }
  rewrite Hpos.
  pose proof (two_power_pos (binary_exponent (Qabs (Qred x)) - 52)) as Hulp.
  set (ulp := two_power _) in *.
  assert (Hm : (0 ≤ round_half_even (Qabs (Qred x) / ulp))%Z).
  { apply round_half_even_nonneg. apply Qle_shift_div_l; [done|].
    pose proof (Qabs_nonneg (Qred x)). lra. }
  rewrite Zle_Qle in Hm. change (inject_Z 0) with 0%Q in Hm. nra.
Qed.

Lemma Qred_inject_Z (z : Z) : Qred (inject_Z z) = inject_Z z.
Proof.
  unfold Qred, inject_Z.
  pose proof (Z.ggcd_gcd z 1) as Hg.
  pose proof (Z.ggcd_correct_divisors z 1) as Hd.
  destruct (Z.ggcd z 1) as [g [a b]]. cbn in *.
  rewrite Z.gcd_1_r in Hg. subst g. destruct Hd as [Ha Hb].
  rewrite !Z.mul_1_l in *. by subst.
Qed.

(** An integer below 2^53 is a float. *)
Lemma binary64_int (n : Z) :
  (0 ≤ n < 2 ^ 53)%Z → (binary64 (inject_Z n) == inject_Z n)%Q.
Proof.
  intros [Hn0 Hn]. unfold binary64. rewrite Qred_inject_Z.
  destruct (Qeq_bool (inject_Z n) 0) eqn:Hz.
  { apply Qeq_bool_iff in Hz. by rewrite Hz. }
  assert (Hpos : (0 < n)%Z).
  { destruct (Z.eq_dec n 0) as [->|]; [done|lia]. }
  assert (Hle : Qle_bool 0 (inject_Z n) = true).
  { apply Qle_bool_iff. change 0%Q with (inject_Z 0). rewrite <- Zle_Qle. lia. }
  rewrite Hle.
  assert (Habs : Qabs (inject_Z n) = inject_Z n).
  { unfold Qabs, inject_Z. cbn. by rewrite Z.abs_eq. }
  rewrite Habs.
  assert (He : binary_exponent (inject_Z n) = Z.log2 n).
  { unfold binary_exponent. cbn [Qnum Qden inject_Z].
    change (Z.log2 1) with 0%Z. rewrite Z.sub_0_r.
    pose proof (Z.log2_nonneg n) as Hl.
    pose proof (Z.log2_spec n Hpos) as [Hlo _].
    unfold two_power. destruct (Z.leb_spec 0 (Z.log2 n)); [|lia].
    assert (Hq : Qle_bool (inject_Z (2 ^ Z.log2 n)) (inject_Z n) = true).
    { apply Qle_bool_iff. by rewrite <- Zle_Qle. }
    by rewrite Hq. }
  rewrite He.
  assert (Hlog : (0 ≤ Z.log2 n ≤ 52)%Z).
  { split; [apply Z.log2_nonneg|].
    assert (Z.log2 n < 53)%Z; [|lia]. by apply Z.log2_lt_pow2. }
  set (s := (52 - Z.log2 n)%Z).
  assert (Hulp : (two_power (Z.log2 n - 52) * inject_Z (2 ^ s) == 1)%Q).
  { unfold two_power, s. destruct (Z.leb_spec 0 (Z.log2 n - 52)) as [Hk|Hk].
    - assert (Z.log2 n = 52)%Z as -> by lia. reflexivity.
    - replace (- (Z.log2 n - 52))%Z with (52 - Z.log2 n)%Z by lia.
      rewrite Qmult_comm. apply Qmult_inv_r.
      change 0%Q with (inject_Z 0). rewrite inject_Z_injective.
      apply Z.pow_nonzero; lia. }
  pose proof (two_power_pos (Z.log2 n - 52)) as Hup.
  set (ulp := two_power (Z.log2 n - 52)) in *.
  assert (Hm : round_half_even (inject_Z n / ulp) = (n * 2 ^ s)%Z).
  { apply round_half_even_int. rewrite inject_Z_mult.
    transitivity (inject_Z n * (ulp * inject_Z (2 ^ s)) / ulp)%Q.
    - rewrite Hulp. field. lra.
    - field. lra. }
  rewrite Hm, inject_Z_mult.
  transitivity (inject_Z n * (ulp * inject_Z (2 ^ s)))%Q; [ring|].
  rewrite Hulp. ring.
Qed.

(** *** [%] and [//] on a number that is not negative *)

Lemma exact_mod_range (x y : Q) :
  (0 < y)%Q → (0 <= exact_mod x y)%Q ∧ (exact_mod x y < y)%Q.
Proof.
  intros Hy. unfold exact_mod.
  pose proof (Qfloor_le (x / y)) as Hfl.
  pose proof (Qlt_floor (x / y)) as Hfu.
  rewrite inject_Z_plus in Hfu. change (inject_Z 1) with 1%Q in Hfu.
  assert (Hx : (x == y * (x / y))%Q) by (field; lra).
  set (f := inject_Z (Qfloor (x / y))) in *.
  set (d := (x / y)%Q) in *.
  split; nra.
Qed.

Lemma fmod_nonneg (x y : Q) :
  (0 <= x)%Q → (0 < y)%Q → fmod x y = exact_mod x y.
Proof.
  intros Hx Hy. unfold fmod, exact_mod, truncate.
  rewrite (proj2 (Qle_bool_iff 0 (x / y))); [done|].
  apply Qle_shift_div_l; lra.
Qed.

(** The remainder is exact. *)
Lemma py_mod_nonneg (x y : Q) :
  (0 <= x)%Q → (0 < y)%Q → py_mod x y = exact_mod x y.
Proof.
  intros Hx Hy. unfold py_mod. rewrite (fmod_nonneg x y Hx Hy).
  destruct (exact_mod_range x y Hy) as [Hm _].
  unfold signs_differ.
  rewrite (proj2 (Qle_bool_iff 0 y)) by lra.
  rewrite (proj2 (Qle_bool_iff 0 _) Hm). cbn. by rewrite andb_false_r.
Qed.

Lemma floor_div_nonneg (x y : Q) :
  (0 <= x)%Q → (0 < y)%Q → (0 ≤ floor_div x y)%Z.
Proof.
  intros Hx Hy. unfold floor_div, float_floor_div.
  rewrite (fmod_nonneg x y Hx Hy).
  destruct (exact_mod_range x y Hy) as [Hm0 Hmy].
  unfold signs_differ.
  rewrite (proj2 (Qle_bool_iff 0 y)) by lra.
  rewrite (proj2 (Qle_bool_iff 0 _) Hm0). cbn [negb Bool.eqb andb].
  rewrite andb_false_r.
  set (div := binary64 _).
  assert (Hdiv : (0 <= div)%Q).
  { apply binary64_nonneg. apply Qle_shift_div_l; [done|].
    rewrite Qmult_0_l. apply binary64_nonneg.
    unfold exact_mod in *.
    assert (0 <= inject_Z (Qfloor (x / y)))%Q.
    { change 0%Q with (inject_Z 0). rewrite <- Zle_Qle. apply Qfloor_nonneg.
      apply Qle_shift_div_l; lra. }
    nra. }
  destruct (Qeq_bool div 0); [done|].
  pose proof (Qfloor_nonneg div Hdiv) as Hf.
  destruct (Qle_bool _ _).
  - by rewrite Qfloor_Z.
  - apply Qfloor_nonneg. rewrite Zle_Qle in Hf.
    change (inject_Z 0) with 0%Q in *. lra.
Qed.

(** The quotient by a whole number is exact below 2^53. *)
Lemma floor_div_exact (x : Q) (n : Z) :
  (0 <= x)%Q → (x < inject_Z (2 ^ 53))%Q → (0 < n)%Z →
  floor_div x (inject_Z n) = Qfloor (x / inject_Z n).
Proof.
  intros Hx Hbound Hn. unfold floor_div, float_floor_div.
  assert (Hy : (0 < inject_Z n)%Q).
  { change 0%Q with (inject_Z 0). by rewrite <- Zlt_Qlt. }
  rewrite (fmod_nonneg x _ Hx Hy).
  destruct (exact_mod_range x _ Hy) as [Hm0 Hmy].
  unfold signs_differ.
  rewrite (proj2 (Qle_bool_iff 0 (inject_Z n))) by lra.
  rewrite (proj2 (Qle_bool_iff 0 _) Hm0). cbn [negb Bool.eqb andb].
  rewrite andb_false_r.
  set (k := Qfloor (x / inject_Z n)).
  assert (Hk : (0 ≤ k)%Z).
  { apply Qfloor_nonneg. apply Qle_shift_div_l; lra. }
  assert (Hnk : (0 ≤ n * k < 2 ^ 53)%Z).
  { split; [lia|]. rewrite Zlt_Qlt, inject_Z_mult.
    unfold exact_mod in Hm0. fold k in Hm0. lra. }
  assert (Hsub : (x - exact_mod x (inject_Z n) == inject_Z (n * k))%Q).
  { unfold exact_mod. fold k. rewrite inject_Z_mult. ring. }
  rewrite (binary64_comp _ _ Hsub).
  assert (Hquot : (binary64 (inject_Z (n * k)) / inject_Z n == inject_Z k)%Q).
  { rewrite (binary64_int _ Hnk), inject_Z_mult. field. lra. }
  rewrite (binary64_comp _ _ Hquot).
  assert (Hkb : (0 ≤ k < 2 ^ 53)%Z) by nia.
  pose proof (binary64_int k Hkb) as Hdiv.
  set (div := binary64 (inject_Z k)) in *.
  destruct (Qeq_bool div 0) eqn:Hz.
  - apply Qeq_bool_iff in Hz. rewrite Hz in Hdiv.
    change 0%Q with (inject_Z 0) in Hdiv.
    assert (Hk0 : k = 0%Z) by (apply inject_Z_injective; by symmetry).
    by rewrite Hk0.
  - assert (Hfl : Qfloor div = k) by (rewrite Hdiv; apply Qfloor_Z).
    rewrite Hfl.
    assert (Hle : Qle_bool (div - inject_Z k) (1 # 2) = true).
    { apply Qle_bool_iff. rewrite Hdiv. lra. }
    rewrite Hle. apply Qfloor_Z.
Qed.

Lemma pretty_digit (z : Z) :
  (0 ≤ z < 10)%Z → ∃ d, is_digit d = true ∧ pretty z = String d "".
Proof.
  intros Hz.
  assert (z = 0 ∨ z = 1 ∨ z = 2 ∨ z = 3 ∨ z = 4 ∨ z = 5 ∨ z = 6 ∨ z = 7
          ∨ z = 8 ∨ z = 9)%Z as Hcases by lia.
  repeat destruct Hcases as [-> | Hcases]; try subst z;
    eexists; split; try reflexivity; reflexivity.
Qed.

Lemma format_2f_two_decimal_places (x : Q) :
  (0 <= x)%Q → two_decimal_places (format_2f x).
Proof.
  intros Hx. unfold format_2f.
  assert (Hb : Qle_bool 0 x = true) by by apply Qle_bool_iff.
  rewrite Hb. simpl String.append at 1.
  set (n := round_half_even (Qabs x * 100)).
  assert (Hn : (0 ≤ n)%Z).
  { apply round_half_even_nonneg. pose proof (Qabs_nonneg x). nra. }
  destruct (pretty_digit (n mod 100 / 10)%Z) as (d1 & Hd1 & ->).
  { pose proof (Z.mod_pos_bound n 100). split.
    - apply Z.div_pos; lia.
    - apply Z.div_lt_upper_bound; lia. }
  destruct (pretty_digit (n mod 10)%Z) as (d2 & Hd2 & ->).
  { apply Z.mod_pos_bound. lia. }
  exists (n / 100)%Z, d1, d2. repeat split; try done.
  apply Z.div_pos; lia.
Qed.

(** C8. For every non-negative number of seconds, [seconds_to_hms]
    writes a breakdown into whole hours, whole minutes below sixty and
    seconds below sixty: the hours segment is left out when the hours
    are zero, the minutes segment when the minutes are zero, and the
    seconds always come with exactly two decimal places. The hours are
    those of the float division, the minutes and the seconds are exact;
    below 2^53 seconds the hours are exact too, and the three add up to
    the input. 3661.0 gives [1 hours, 1 minutes, 1.00 seconds] and 45.5
    gives [45.50 seconds]. *)
Theorem seconds_to_hms_breakdown (seconds : Q) :
  (0 <= seconds)%Q →
  (∃ (hours minutes : Z) (rest : Q),
      (0 ≤ hours)%Z ∧ (0 ≤ minutes < 60)%Z ∧ (0 <= rest)%Q ∧ (rest < 60)%Q
      ∧ hours = floor_div seconds 3600
      ∧ (60 * inject_Z minutes + rest == exact_mod seconds 3600)%Q
      ∧ ((seconds < inject_Z (2 ^ 53))%Q →
         (seconds == 3600 * inject_Z hours + 60 * inject_Z minutes + rest)%Q)
      ∧ seconds_to_hms seconds = hms_text hours minutes (format_2f rest)
      ∧ two_decimal_places (format_2f rest))
  ∧ seconds_to_hms 3661 = "1 hours, 1 minutes, 1.00 seconds"%string
  ∧ seconds_to_hms (91 # 2) = "45.50 seconds"%string.
Proof.
  intros Hs. split; [|split; reflexivity].
  exists (floor_div seconds 3600), (floor_div (py_mod seconds 3600) 60),
    (py_mod seconds 60).
  assert (Hmod : py_mod seconds 3600 = exact_mod seconds 3600)
    by (apply py_mod_nonneg; lra).
  assert (Hsec : py_mod seconds 60 = exact_mod seconds 60)
    by (apply py_mod_nonneg; lra).
  destruct (exact_mod_range seconds 3600) as [Hr1 Hr2]; [lra|].
  destruct (exact_mod_range seconds 60) as [Hq1 Hq2]; [lra|].
  assert (Hh : (0 ≤ floor_div seconds 3600)%Z)
    by (apply floor_div_nonneg; lra).
  assert (Hmin : floor_div (py_mod seconds 3600) 60
                 = Qfloor (exact_mod seconds 3600 / 60)).
  { rewrite Hmod. change 60%Q with (inject_Z 60).
    apply floor_div_exact; [done| |lia].
    change (inject_Z 3600) with 3600%Q in Hr2.
    assert (3600 < inject_Z (2 ^ 53))%Q by (vm_compute; reflexivity). lra. }
  assert (Hm0 : (0 ≤ Qfloor (exact_mod seconds 3600 / 60))%Z).
  { apply Qfloor_nonneg. apply Qle_shift_div_l; lra. }
  assert (Hm60 : (Qfloor (exact_mod seconds 3600 / 60) < 60)%Z).
  { pose proof (Qfloor_le (exact_mod seconds 3600 / 60)) as Hfl.
    assert ((exact_mod seconds 3600 / 60 < 60)%Q)
      by (apply Qlt_shift_div_r; lra).
    rewrite Zlt_Qlt. change (inject_Z 60) with 60%Q. lra. }
  assert (Hfloor : Qfloor (seconds / 60)
                   = (60 * Qfloor (seconds / 3600)
                      + Qfloor (exact_mod seconds 3600 / 60))%Z).
  { apply Qfloor_unique;
      pose proof (Qfloor_le (exact_mod seconds 3600 / 60)) as Hfl;
      pose proof (Qlt_floor (exact_mod seconds 3600 / 60)) as Hfu;
      rewrite inject_Z_plus in Hfu; change (inject_Z 1) with 1%Q in Hfu;
      rewrite inject_Z_plus, inject_Z_mult; change (inject_Z 60) with 60%Q;
      assert (Hdiv : (exact_mod seconds 3600 / 60
                      == seconds / 60
                         - 60 * inject_Z (Qfloor (seconds / 3600)))%Q)
        by (unfold exact_mod; field);
      lra. }
  assert (Hparts : (60 * inject_Z (Qfloor (exact_mod seconds 3600 / 60))
                    + exact_mod seconds 60 == exact_mod seconds 3600)%Q).
  { unfold exact_mod at 2 3. rewrite Hfloor, inject_Z_plus, inject_Z_mult.
    change (inject_Z 60) with 60%Q. ring. }
  rewrite Hmin, Hsec.
  split; [done|]. split; [done|]. split; [done|]. split; [done|].
  split; [done|]. split; [done|]. split; [|split].
  - intros Hbound.
    assert (Hhours : floor_div seconds 3600 = Qfloor (seconds / 3600)).
    { change 3600%Q with (inject_Z 3600).
      apply floor_div_exact; [done|done|lia]. }
    rewrite Hhours, <- Qplus_assoc, Hparts. unfold exact_mod. ring.
  - unfold seconds_to_hms, hms_text. rewrite Hmin, Hsec.
    destruct (Z.ltb_spec 0 (floor_div seconds 3600)) as [Hlt|Hge];
      destruct (Z.eqb_spec (floor_div seconds 3600) 0) as [Heq|Hne];
      try lia;
      destruct (Z.ltb_spec 0 (Qfloor (exact_mod seconds 3600 / 60)))
        as [Hlt'|Hge'];
      destruct (Z.eqb_spec (Qfloor (exact_mod seconds 3600 / 60)) 0)
        as [Heq'|Hne'];
      try lia; cbn [String.concat app];
      rewrite ?string_app_assoc; reflexivity.
  - by apply format_2f_two_decimal_places.
Qed.

Lemma seconds_to_hms_breakdown_witness :
  ∃ (hours minutes : Z) (rest : Q),
    seconds_to_hms 3661 = hms_text hours minutes (format_2f rest)
    ∧ two_decimal_places (format_2f rest).
Proof.
  destruct (seconds_to_hms_breakdown 3661)
    as [(h & m & r & _ & _ & _ & _ & _ & _ & _ & Htext & Hplaces) _].
  - vm_compute. discriminate.
  - exists h, m, r. by split.
Defined.

(** ** Running computations *)

Lemma bind_return {S A B} (m : M S A) (k : A → M S B) (s s1 : S) (a : A) :
  m s = (Return a, s1) → bind m k s = k a s1.
Proof. intros H. unfold bind. by rewrite H. Qed.

Lemma bind_raise {S A B} (m : M S A) (k : A → M S B) (s s1 : S) (e : exn) :
  m s = (Raise e, s1) → bind m k s = (Raise e, s1).
Proof. intros H. unfold bind. by rewrite H. Qed.

Lemma bind_returns {S A B} (m : M S A) (k : A → M S B) (s s' : S) (b : B) :
  bind m k s = (Return b, s') →
  ∃ a s1, m s = (Return a, s1) ∧ k a s1 = (Return b, s').
Proof.
  unfold bind. destruct (m s) as [[a|e] s1]; [eauto|discriminate].
Qed.

Section Loops.
Context {S A B : Type}.

Lemma for_each_returns (body : A → M S B) (xs : list A) :
  ∀ (s s' : S) (ys : list B),
    for_each body xs s = (Return ys, s') →
    Forall2 (λ x y, ∃ s1 s2, body x s1 = (Return y, s2)) xs ys.
Proof.
  induction xs as [|x rest IH]; intros s s' ys Hrun; simpl in Hrun.
  - injection Hrun as <- _. constructor.
  - apply bind_returns in Hrun as (y & s1 & Hy & Hrun).
    apply bind_returns in Hrun as (ys' & s2 & Hys & Hrun).
    injection Hrun as <- _. constructor; eauto.
Qed.

Lemma for_each_total (body : A → M S B) (P : A → Prop) (xs : list A) :
  (∀ x s, P x → ∃ y s', body x s = (Return y, s')) →
  Forall P xs →
  ∀ s, ∃ ys s', for_each body xs s = (Return ys, s').
Proof.
  intros Hbody Hxs. induction Hxs as [|x rest Hx _ IH]; intros s; simpl.
  - by eexists _, _.
  - destruct (Hbody x s Hx) as (y & s1 & Hy).
    destruct (IH s1) as (ys & s2 & Hys).
    exists (y :: ys), s2.
    rewrite (bind_return _ _ _ _ _ Hy), (bind_return _ _ _ _ _ Hys). done.
Qed.

(** An exception of one element ends the loop where it stands: the
    elements after it are never run. *)
Lemma for_each_raises (body : A → M S B) (before after : list A) (x : A)
  (s s1 s2 : S) (ys : list B) (e : exn) :
  for_each body before s = (Return ys, s1) →
  body x s1 = (Raise e, s2) →
  for_each body (before ++ x :: after) s = (Raise e, s2).
Proof.
  revert s ys. induction before as [|b rest IH]; intros s ys Hbefore Hx;
    simpl in *.
  - injection Hbefore as _ <-. by rewrite (bind_raise _ _ _ _ _ Hx).
  - apply bind_returns in Hbefore as (y & sa & Hy & Hrest).
    apply bind_returns in Hrest as (ys' & sb & Hys & Hret).
    injection Hret as _ <-.
    rewrite (bind_return _ _ _ _ _ Hy). apply bind_raise. eauto.
Qed.

End Loops.

(** ** Acquisition of one catalog entry *)

Section AcquisitionFacts.

Variable server : string → nat → response.

Lemma download_attempts_result url save_path max_retries attempts w r w' :
  download_attempts server url save_path max_retries attempts w
  = (Return r, w') →
  r = None ∨ r = Some save_path.
Proof.
  revert w. induction attempts as [|attempt rest IH]; intros w Hrun;
    simpl in Hrun.
  - injection Hrun as <- _. by left.
  - unfold bind, gets, modify in Hrun. simpl in Hrun.
    destruct (server url (length (requests w))) as [|opened e|opened e].
    + injection Hrun as <- _. by right.
    + destruct opened; simpl in Hrun;
        (destruct (attempt =? max_retries - 1);
         [injection Hrun as <- _; by left | by apply IH in Hrun]).
    + destruct opened; discriminate.
Qed.

Lemma download_attempts_total url save_path max_retries attempts :
  fails_only_by_request server →
  ∀ w, ∃ r w',
    download_attempts server url save_path max_retries attempts w
    = (Return r, w').
Proof.
  intros Hserver. induction attempts as [|attempt rest IH]; intros w; simpl.
  - by eexists _, _.
  - unfold bind, gets, modify. simpl.
    pose proof (Hserver url (length (requests w))) as Hs.
    destruct (server url (length (requests w))) as [|opened e|opened e];
      [..|done].
    + by eexists _, _.
    + destruct opened; simpl;
        (destruct (attempt =? max_retries - 1); [by eexists _, _|apply IH]).
Qed.

Lemma download_list_item_returns row_dir max_retries url w v w' :
  download_list_item server row_dir max_retries url w = (Return v, w') →
  is_path_or_null v = true.
Proof.
  destruct url; try discriminate. simpl. intros Hrun.
  apply bind_returns in Hrun as (r & w1 & _ & Hret).
  injection Hret as <- _. by destruct (truthy r).
Qed.

Lemma download_list_item_total row_dir max_retries url :
  fails_only_by_request server → is_str url = true →
  ∀ w, ∃ v w',
    download_list_item server row_dir max_retries url w = (Return v, w').
Proof.
  intros Hserver Hstr w. destruct url; try discriminate. simpl.
  destruct (download_attempts_total s (path_join row_dir (basename s))
              max_retries (seq 0 max_retries) Hserver w) as (r & w1 & Hr).
  unfold download_file. rewrite (bind_return _ _ _ _ _ Hr). by eexists _, _.
Qed.

Lemma download_cell_returns row_dir max_retries filenames col url w f' w' :
  download_cell server row_dir max_retries filenames col url w
  = (Return f', w') →
  ∃ v, f' = <[("Paths"%string, col) := v]> filenames
       ∧ same_shape url v = true.
Proof.
  destruct url as [| |url|urls|]; try discriminate; simpl; intros Hrun.
  - injection Hrun as <- _. by eexists.
  - apply bind_returns in Hrun as (r & w1 & _ & Hrun).
    apply bind_returns in Hrun as (? & w2 & _ & Hret).
    injection Hret as <- _. eexists. split; [done|]. by destruct (truthy r).
  - apply bind_returns in Hrun as (paths & w1 & Hpaths & Hrun).
    apply bind_returns in Hrun as (? & w2 & _ & Hret).
    injection Hret as <- _. eexists. split; [done|]. simpl.
    apply for_each_returns in Hpaths.
    rewrite (Forall2_length _ _ _ Hpaths), Nat.eqb_refl. simpl.
    induction Hpaths as [|url v ? ? (w3 & w4 & Hitem) _ IH]; [done|].
    simpl. apply download_list_item_returns in Hitem. by rewrite Hitem.
Qed.

Lemma download_cell_total row_dir max_retries filenames col url :
  fails_only_by_request server → resource_slot url = true →
  ∀ w, ∃ f' w',
    download_cell server row_dir max_retries filenames col url w
    = (Return f', w').
Proof.
  intros Hserver Hslot w.
  destruct url as [| |url|urls|]; try discriminate; simpl.
  - by eexists _, _.
  - destruct (download_attempts_total url (path_join row_dir (basename url))
                max_retries (seq 0 max_retries) Hserver w) as (r & w1 & Hr).
    unfold download_file. rewrite (bind_return _ _ _ _ _ Hr).
    destruct (truthy r); by eexists _, _.
  - simpl in Hslot.
    destruct (for_each_total (download_list_item server row_dir max_retries)
                (λ u, is_str u = true) urls) with (s := w)
      as (paths & w1 & Hpaths).
    { intros u s Hu. by apply download_list_item_total. }
    { apply Forall_forall. intros u Hu. apply list_elem_of_In in Hu.
      by apply (proj1 (forallb_forall _ _) Hslot). }
    rewrite (bind_return _ _ _ _ _ Hpaths).
    destruct (existsb is_none paths); by eexists _, _.
Qed.

Lemma download_cells_returns row_dir max_retries cells :
  ∀ filenames w f' w',
    download_cells server row_dir max_retries filenames cells w
    = (Return f', w') →
    NoDup cells.*1 →
    (∀ col, col ∉ cells.*1 →
            f' !! ("Paths"%string, col) = filenames !! ("Paths"%string, col))
    ∧ (∀ col url, (col, url) ∈ cells →
         ∃ v, f' !! ("Paths"%string, col) = Some v
              ∧ same_shape url v = true).
Proof.
  induction cells as [|[c u] rest IH]; intros filenames w f' w' Hrun Hnodup;
    simpl in Hrun.
  - injection Hrun as <- _. split; [done|]. intros col url Hin.
    by apply elem_of_nil in Hin.
  - apply bind_returns in Hrun as (f1 & w1 & Hcell & Hrest).
    apply download_cell_returns in Hcell as (v & -> & Hshape).
    apply NoDup_cons in Hnodup as [Hc Hnodup]. simpl in Hc.
    destruct (IH _ _ _ _ Hrest Hnodup) as [Hframe Hcells]. split.
    + intros col Hcol. apply not_elem_of_cons in Hcol as [Hne Hcol].
      rewrite (Hframe _ Hcol). apply lookup_insert_ne.
      intros Heq. injection Heq as Heq. by symmetry in Heq.
    + intros col url Hin. apply elem_of_cons in Hin as [Heq|Hin].
      * injection Heq as -> ->. exists v. split; [|done].
        rewrite (Hframe _ Hc). apply lookup_insert_eq.
      * by apply Hcells.
Qed.

Lemma download_cells_total row_dir max_retries cells :
  fails_only_by_request server →
  forallb resource_slot cells.*2 = true →
  ∀ filenames w, ∃ f' w',
    download_cells server row_dir max_retries filenames cells w
    = (Return f', w').
Proof.
  intros Hserver. induction cells as [|[c u] rest IH]; intros Hslots
    filenames w; simpl in *.
  - by eexists _, _.
  - apply andb_prop in Hslots as [Hu Hrest].
    destruct (download_cell_total row_dir max_retries filenames c u
                Hserver Hu w) as (f1 & w1 & Hcell).
    rewrite (bind_return _ _ _ _ _ Hcell). by apply IH.
Qed.

Lemma create_directory_returns path w :
  ∃ w', create_directory path w = (Return tt, w').
Proof.
  unfold create_directory, bind, gets. simpl.
  destruct (decide (path ∈ existing w)); by eexists.
Qed.

End AcquisitionFacts.

(** C1. For every Catalog Entry, whatever downloads fail, the
    acquisition of the entry returns a Ledger Entry that holds, for each
    resource slot of the entry, a value of the same shape: null for an
    Absent slot, one file name or null for a Single slot, and for a
    Multiple slot a list of the same length with a file name or null at
    each place. Whenever [download_file_row] returns at all, what it
    returns has that shape. *)
Theorem ledger_shape_matches_catalog
  (server : string → nat → response) (row : series) (base_dir : string)
  (max_retries : nat) (w : world) :
  NoDup (items row).*1 →
  (fails_only_by_request server →
   forallb resource_slot (items row).*2 = true →
   ∃ ledger w',
     download_file_row server row base_dir max_retries w = (Return ledger, w'))
  ∧ (∀ ledger w',
       download_file_row server row base_dir max_retries w
       = (Return ledger, w') →
       ∀ col slot, (col, slot) ∈ items row →
         ∃ value, ledger !! ("Paths"%string, col) = Some value
                  ∧ same_shape slot value = true).
Proof.
  intros Hnodup. unfold download_file_row.
  destruct (create_directory_returns (path_join base_dir (name row)) w)
    as (w1 & Hdir).
  rewrite (bind_return _ _ _ _ _ Hdir). split.
  - intros Hserver Hslots. by apply download_cells_total.
  - intros ledger w' Hrun col slot Hin.
    by apply (download_cells_returns _ _ _ _ _ _ _ _ Hrun Hnodup).
Qed.

Lemma flaky_server_fails_only_by_request : fails_only_by_request flaky_server.
Proof.
  intros url n. unfold flaky_server. by destruct (String.eqb url _).
Qed.

Lemma ledger_shape_matches_catalog_witness :
  ∃ ledger w',
    download_file_row flaky_server sample_row "/data" 3 fresh_world
    = (Return ledger, w')
    ∧ ∀ col slot, (col, slot) ∈ items sample_row →
        ∃ value, ledger !! ("Paths"%string, col) = Some value
                 ∧ same_shape slot value = true.
Proof.
  destruct (ledger_shape_matches_catalog flaky_server sample_row "/data" 3
              fresh_world) as [Hreturns Hshape].
  - apply (bool_decide_unpack _). vm_compute. exact I.
  - destruct Hreturns as (ledger & w' & Hrun).
    + exact flaky_server_fails_only_by_request.
    + reflexivity.
    + exists ledger, w'. split; [exact Hrun | exact (Hshape _ _ Hrun)].
Defined.

Example sample_row_ledger :
  match (download_file_row flaky_server sample_row "/data" 3 fresh_world).1
  with
  | Return ledger =>
      map (λ col, ledger !! ("Paths", col))
          ["base_dir"; "iLex"; "Video A"; "Video B"; "SRT"]%string
  | Raise _ => []
  end
  = [Some (VStr "/data/X__0"); Some VNone; Some (VStr "a.mp4"); Some VNone;
     Some (VList [VStr "a.srt"; VNone])].
Proof. vm_compute. reflexivity. Qed.

(** ** Exhausted retries *)

#[local] Instance warnings_kept_preorder : PreOrder warnings_kept.
Proof.
  unfold warnings_kept. split; [by intros w|].
  intros w1 w2 w3 H12 H23. by etrans.
Qed.

#[local] Instance tables_untouched_preorder : PreOrder tables_untouched.
Proof.
  unfold tables_untouched. split; [by intros w|].
  intros w1 w2 w3 H12 H23. by etrans.
Qed.

Section RetryFacts.

Variable server : string → nat → response.

(** One failed attempt: the request and the warning are recorded, and
    the loop gives up or goes on. *)
Lemma download_attempts_failed url save_path max_retries attempt rest w
  opened e :
  server url (length (requests w)) = RequestException opened e →
  download_attempts server url save_path max_retries (attempt :: rest) w
  = let w0 := set_requests (λ l, l ++ [url]) w in
    let w1 :=
      set_warnings
        (λ l, l ++ ["Failed to download " +:+ url +:+ " (Attempt "
                    +:+ str_of_nat (attempt + 1) +:+ "/"
                    +:+ str_of_nat max_retries +:+ "): " +:+ e])
        (if opened then set_existing (λ fs, {[save_path]} ∪ fs) w0 else w0) in
    if attempt =? max_retries - 1
    then (Return None,
          set_warnings (λ l, l ++ [gave_up_warning url max_retries]) w1)
    else download_attempts server url save_path max_retries rest w1.
Proof.
  intros He. simpl. unfold bind, gets, modify, logging_warning. simpl.
  rewrite He. destruct opened; simpl; by destruct (attempt =? max_retries - 1).
Qed.

(** The attempts [start, start + S more) of a budget that ends with
    them all fail: the loop gives up with [None]. *)
Lemma download_attempts_all_fail url save_path max_retries more :
  ∀ start w,
    start + S more = max_retries →
    (∀ k, k < S more →
          ∃ opened e,
            server url (length (requests w) + k) = RequestException opened e) →
    ∃ w', download_attempts server url save_path max_retries
            (seq start (S more)) w = (Return None, w')
          ∧ requests w' = requests w ++ replicate (S more) url
          ∧ existing w ⊆ existing w'
          ∧ warnings w `prefix_of` warnings w'
          ∧ last (warnings w') = Some (gave_up_warning url max_retries).
Proof.
  induction more as [|more IH]; intros start w Hbudget Hfail;
    (destruct (Hfail 0) as (opened & e & He); [lia|]);
    rewrite Nat.add_0_r in He;
    change (seq start (S ?n)) with (start :: seq (S start) n);
    rewrite (download_attempts_failed _ _ _ _ _ _ _ _ He); cbv zeta.
  - replace (start =? max_retries - 1) with true
      by (symmetry; apply Nat.eqb_eq; lia).
    eexists. split; [reflexivity|].
    destruct opened; cbn; (split; [done|]);
      (split; [by try apply union_subseteq_r|]);
      (split; [|by rewrite last_snoc]);
      rewrite <- app_assoc; by apply prefix_app_r.
  - replace (start =? max_retries - 1) with false
      by (symmetry; apply Nat.eqb_neq; lia).
    match goal with |- context [download_attempts _ _ _ _ _ ?w1] =>
      destruct (IH (S start) w1) as (w' & Hrun & Hreq & Hfs & Hpre & Hlast)
    end.
    + lia.
    + intros k Hk.
      destruct (Hfail (S k)) as (opened' & e' & He'); [lia|].
      exists opened', e'. rewrite <- He'. f_equal.
      destruct opened; cbn; rewrite length_app; cbn; lia.
    + exists w'. split; [exact Hrun|].
      destruct opened; cbn in Hreq, Hfs, Hpre;
        (split; [by rewrite Hreq, <- app_assoc|]);
        (split; [by try (etrans; [apply union_subseteq_r|exact Hfs])|]);
        (split; [|done]);
        (etrans; [|exact Hpre]); by apply prefix_app_r.
Qed.

Lemma download_file_all_fail url save_path max_retries w :
  1 ≤ max_retries →
  (∀ k, k < max_retries →
        ∃ opened e,
          server url (length (requests w) + k) = RequestException opened e) →
  ∃ w', download_file server url save_path max_retries w = (Return None, w')
        ∧ requests w' = requests w ++ replicate max_retries url
        ∧ existing w ⊆ existing w'
        ∧ warnings w `prefix_of` warnings w'
        ∧ last (warnings w') = Some (gave_up_warning url max_retries).
Proof.
  intros Hbudget Hfail. unfold download_file.
  destruct max_retries as [|more]; [lia|].
  by apply download_attempts_all_fail.
Qed.

(** The cell of a Single slot whose fetch fails on each attempt. *)
Lemma download_cell_single_all_fail
  url max_retries row_dir filenames col w :
  1 ≤ max_retries →
  (∀ k, k < max_retries →
        ∃ opened e,
          server url (length (requests w) + k) = RequestException opened e) →
  ∃ w', download_cell server row_dir max_retries filenames col (VStr url) w
        = (Return (<[("Paths"%string, col) := VNone]> filenames), w')
        ∧ gave_up_warning url max_retries ∈ warnings w'.
Proof.
  intros Hbudget Hfail. cbn [download_cell].
  destruct (download_file_all_fail url (path_join row_dir (basename url))
              max_retries w Hbudget Hfail)
    as (w1 & Hfile & _ & _ & _ & Hlast).
  rewrite (bind_return _ _ _ _ _ Hfile). cbn [truthy].
  eexists. split; [reflexivity|]. cbn.
  apply last_Some in Hlast as (l & ->).
  rewrite elem_of_app. left. rewrite elem_of_app. right.
  by apply list_elem_of_singleton.
Qed.

(** What the acquisition leaves as it is. [R] is any preorder on
    worlds that every request, warning and stored file respects. *)

Section Preservation.

Variable R : relation world.
Context `{!PreOrder R}.
Hypothesis R_requests : ∀ f w, R w (set_requests f w).
Hypothesis R_existing : ∀ f w, R w (set_existing f w).
Hypothesis R_warning : ∀ msg w, R w (set_warnings (λ l, l ++ [msg]) w).

Lemma preserves_ret {A} (a : A) : preserves R (ret a).
Proof. intros w r w' [= <- <-]. done. Qed.

Lemma preserves_raise {A} (e : exn) : preserves R (@raise world A e).
Proof. intros w r w' [= <- <-]. done. Qed.

Lemma preserves_gets {A} (f : world → A) : preserves R (gets f).
Proof. intros w r w' [= <- <-]. done. Qed.

Lemma preserves_bind {A B} (m : M world A) (k : A → M world B) :
  preserves R m → (∀ a, preserves R (k a)) → preserves R (bind m k).
Proof.
  intros Hm Hk w r w' Hrun. unfold bind in Hrun.
  destruct (m w) as [[a|e] w1] eqn:Hmw.
  - etrans; [exact (Hm _ _ _ Hmw) | exact (Hk _ _ _ _ Hrun)].
  - injection Hrun as <- <-. exact (Hm _ _ _ Hmw).
Qed.

Lemma preserves_logging_warning msg : preserves R (logging_warning msg).
Proof. intros w r w' [= <- <-]. apply R_warning. Qed.

Lemma preserves_for_each {A B} (body : A → M world B) (xs : list A) :
  (∀ x, preserves R (body x)) → preserves R (for_each body xs).
Proof.
  intros Hbody. induction xs as [|x rest IH]; simpl.
  - apply preserves_ret.
  - apply preserves_bind; [done|]. intros y.
    apply preserves_bind; [done|]. intros ys. apply preserves_ret.
Qed.

Lemma preserves_download_attempts url save_path max_retries attempts :
  preserves R (download_attempts server url save_path max_retries attempts).
Proof.
  induction attempts as [|attempt rest IH]; simpl.
  - apply preserves_ret.
  - apply preserves_bind; [apply preserves_gets|]. intros earlier.
    apply preserves_bind; [intros w r w' [= <- <-]; apply R_requests|].
    assert (Hopened : ∀ opened : bool,
               preserves R
                 (if opened
                  then modify (set_existing (λ fs, {[save_path]} ∪ fs))
                  else ret tt)).
    { intros [|]; [|apply preserves_ret].
      intros w r w' [= <- <-]. apply R_existing. }
    intros _. destruct (server url earlier) as [|opened e|opened e].
    + apply preserves_bind; [intros w r w' [= <- <-]; apply R_existing|].
      intros _. apply preserves_ret.
    + apply preserves_bind; [apply Hopened|]. intros _.
      apply preserves_bind; [apply preserves_logging_warning|].
      intros _. destruct (attempt =? max_retries - 1); [|done].
      apply preserves_bind; [apply preserves_logging_warning|].
      intros _. apply preserves_ret.
    + apply preserves_bind; [apply Hopened|]. intros _.
      apply preserves_raise.
Qed.

Lemma preserves_download_list_item row_dir max_retries url :
  preserves R (download_list_item server row_dir max_retries url).
Proof.
  destruct url; try apply preserves_raise. simpl.
  apply preserves_bind; [apply preserves_download_attempts|].
  intros r. apply preserves_ret.
Qed.

Lemma preserves_download_cell row_dir max_retries filenames col url :
  preserves R (download_cell server row_dir max_retries filenames col url).
Proof.
  destruct url as [| |url|urls|]; simpl;
    try apply preserves_raise; try apply preserves_ret.
  - apply preserves_bind; [apply preserves_download_attempts|].
    intros r. apply preserves_bind; [|intros _; apply preserves_ret].
    destruct (truthy r);
      [apply preserves_ret | apply preserves_logging_warning].
  - apply preserves_bind.
    { apply preserves_for_each. intros u.
      apply preserves_download_list_item. }
    intros paths.
    apply preserves_bind; [|intros _; apply preserves_ret].
    destruct (existsb is_none paths);
      [apply preserves_logging_warning | apply preserves_ret].
Qed.

Lemma preserves_download_cells row_dir max_retries cells :
  ∀ filenames,
    preserves R (download_cells server row_dir max_retries filenames cells).
Proof.
  induction cells as [|[c u] rest IH]; intros filenames; simpl.
  - apply preserves_ret.
  - apply preserves_bind; [apply preserves_download_cell|]. done.
Qed.

Lemma preserves_download_file_row row base_dir max_retries :
  preserves R (download_file_row server row base_dir max_retries).
Proof.
  unfold download_file_row. apply preserves_bind.
  - unfold create_directory. apply preserves_bind; [apply preserves_gets|].
    intros fs. destruct (decide _); [apply preserves_ret|].
    intros w r w' [= <- <-]. apply R_existing.
  - intros _. apply preserves_download_cells.
Qed.

End Preservation.

Lemma keeps_warnings_download_cells row_dir max_retries cells filenames :
  preserves warnings_kept
    (download_cells server row_dir max_retries filenames cells).
Proof.
  apply preserves_download_cells; [apply _|..]; unfold warnings_kept.
  - by intros f w.
  - by intros f w.
  - intros msg w. by apply prefix_app_r.
Qed.

Lemma keeps_tables_download_file_row row base_dir max_retries :
  preserves tables_untouched
    (download_file_row server row base_dir max_retries).
Proof.
  apply preserves_download_file_row; [apply _|..]; by intros f w.
Qed.

Lemma download_cells_app row_dir max_retries before after :
  ∀ filenames w,
    download_cells server row_dir max_retries filenames (before ++ after) w
    = bind (download_cells server row_dir max_retries filenames before)
           (λ f, download_cells server row_dir max_retries f after) w.
Proof.
  induction before as [|[c u] rest IH]; intros filenames w; simpl; [done|].
  unfold bind at 1 2 3.
  destruct (download_cell _ _ _ _ _ _ _) as [[f1|e] w1]; [|done].
  rewrite IH. done.
Qed.

Section Unreachable.

Variables (url : string) (max_retries : nat).
Hypothesis Hbudget : 1 ≤ max_retries.
Hypothesis Hdown : ∀ n, ∃ opened e, server url n = RequestException opened e.

Lemma download_file_unreachable save_path w :
  ∃ w', download_file server url save_path max_retries w = (Return None, w')
        ∧ gave_up_warning url max_retries ∈ warnings w'.
Proof.
  destruct (download_file_all_fail url save_path max_retries w Hbudget)
    as (w' & Hrun & _ & _ & _ & Hlast); [intros k _; apply Hdown|].
  exists w'. split; [done|].
  apply last_Some in Hlast as (l & ->). apply elem_of_app. right.
  by apply list_elem_of_singleton.
Qed.

Lemma download_list_item_unreachable row_dir w v w' :
  download_list_item server row_dir max_retries (VStr url) w = (Return v, w')
  → v = VNone.
Proof.
  simpl. intros Hrun.
  destruct (download_file_unreachable (path_join row_dir (basename url)) w)
    as (w1 & Hfile & _).
  rewrite (bind_return _ _ _ _ _ Hfile) in Hrun. by injection Hrun as <- _.
Qed.

Lemma download_cell_unreachable_single row_dir filenames col w :
  ∃ w', download_cell server row_dir max_retries filenames col (VStr url) w
        = (Return (<[("Paths"%string, col) := VNone]> filenames), w')
        ∧ gave_up_warning url max_retries ∈ warnings w'.
Proof.
  simpl.
  destruct (download_file_unreachable (path_join row_dir (basename url)) w)
    as (w1 & Hfile & Hwarned).
  rewrite (bind_return _ _ _ _ _ Hfile). simpl.
  eexists. split; [reflexivity|]. simpl.
  apply elem_of_app. by left.
Qed.

Lemma download_cell_unreachable_multiple
  row_dir filenames col urls i w f' w' :
  download_cell server row_dir max_retries filenames col (VList urls) w
  = (Return f', w') →
  urls !! i = Some (VStr url) →
  ∃ paths, f' = <[("Paths"%string, col) := VList paths]> filenames
           ∧ paths !! i = Some VNone.
Proof.
  simpl. intros Hrun Hi.
  apply bind_returns in Hrun as (paths & w1 & Hpaths & Hrun).
  apply bind_returns in Hrun as (? & w2 & _ & Hret).
  injection Hret as <- _. exists paths. split; [done|].
  apply for_each_returns in Hpaths.
  destruct (Forall2_lookup_l _ _ _ _ _ Hpaths Hi)
    as (v & Hv & w3 & w4 & Hitem).
  by apply download_list_item_unreachable in Hitem as ->.
Qed.

End Unreachable.

(** The cell of a column, taken out of the run over the row. *)
Lemma download_cells_at row_dir max_retries cells col cell filenames w f' w' :
  download_cells server row_dir max_retries filenames cells w
  = (Return f', w') →
  NoDup cells.*1 →
  (col, cell) ∈ cells →
  ∃ f1 w1 f2 w2,
    download_cell server row_dir max_retries f1 col cell w1 = (Return f2, w2)
    ∧ f' !! ("Paths"%string, col) = f2 !! ("Paths"%string, col)
    ∧ warnings w2 `prefix_of` warnings w'.
Proof.
  intros Hrun Hnodup Hin.
  apply list_elem_of_split in Hin as (before & after & ->).
  rewrite download_cells_app in Hrun.
  apply bind_returns in Hrun as (f1 & w1 & _ & Hrun). simpl in Hrun.
  apply bind_returns in Hrun as (f2 & w2 & Hcell & Hafter).
  exists f1, w1, f2, w2. split; [done|].
  rewrite fmap_app, fmap_cons in Hnodup.
  apply NoDup_app in Hnodup as (_ & _ & Hnodup).
  apply NoDup_cons in Hnodup as [Hcol Hnodup]. split.
  - by apply (download_cells_returns _ _ _ _ _ _ _ _ Hafter Hnodup).
  - exact (keeps_warnings_download_cells _ _ _ _ _ _ _ Hafter).
Qed.

End RetryFacts.

(** C2. With a retry budget of at least one, when the fetch of a URL
    fails with a request exception on every attempt, whether before or
    after the file was opened, [download_file]
    returns [None] after exactly that many requests and ends on the
    warning that the URL could not be downloaded, and the ledger slot
    that [download_file_row] sets for the URL is null. The acquisition
    of an entry that holds a URL which keeps failing returns normally,
    the ledger slot of the URL is null (for a list, the place of the
    URL in it), and the warning is in the log. *)
Theorem exhausted_retries_give_null_slot
  (server : string → nat → response) (url : string) (max_retries : nat) :
  1 ≤ max_retries →
  (∀ save_path w,
      (∀ k, k < max_retries →
            ∃ opened e,
              server url (length (requests w) + k)
              = RequestException opened e) →
      ∃ w', download_file server url save_path max_retries w
            = (Return None, w')
            ∧ requests w' = requests w ++ replicate max_retries url
            ∧ last (warnings w') = Some (gave_up_warning url max_retries))
  ∧ (∀ row_dir filenames col w,
       (∀ k, k < max_retries →
             ∃ opened e,
               server url (length (requests w) + k)
               = RequestException opened e) →
       ∃ w', download_cell server row_dir max_retries filenames col
               (VStr url) w
             = (Return (<[("Paths"%string, col) := VNone]> filenames), w')
             ∧ gave_up_warning url max_retries ∈ warnings w')
  ∧ (∀ row base_dir w,
       NoDup (items row).*1 →
       fails_only_by_request server →
       forallb resource_slot (items row).*2 = true →
       (∀ n, ∃ opened e, server url n = RequestException opened e) →
       ∃ ledger w',
         download_file_row server row base_dir max_retries w
         = (Return ledger, w')
         ∧ (∀ col, (col, VStr url) ∈ items row →
              ledger !! ("Paths"%string, col) = Some VNone
              ∧ gave_up_warning url max_retries ∈ warnings w')
         ∧ (∀ col urls i,
              (col, VList urls) ∈ items row → urls !! i = Some (VStr url) →
              ∃ paths, ledger !! ("Paths"%string, col) = Some (VList paths)
                       ∧ paths !! i = Some VNone)).
Proof.
  intros Hbudget. split; [|split].
  - intros save_path w Hfail.
    destruct (download_file_all_fail server url save_path max_retries w
                Hbudget Hfail) as (w' & Hrun & Hreq & _ & _ & Hlast).
    by exists w'.
  - intros row_dir filenames col w Hfail.
    by apply download_cell_single_all_fail.
  - intros row base_dir w Hnodup Hserver Hslots Hdown.
    unfold download_file_row.
    destruct (create_directory_returns (path_join base_dir (name row)) w)
      as (w1 & Hdir).
    rewrite (bind_return _ _ _ _ _ Hdir).
    destruct (download_cells_total server (path_join base_dir (name row))
                max_retries (items row) Hserver Hslots
                {[("Paths"%string, "base_dir"%string)
                  := VStr (path_join base_dir (name row))]} w1)
      as (ledger & w' & Hrun).
    exists ledger, w'. split; [done|]. split.
    + intros col Hin.
      destruct (download_cells_at _ _ _ _ _ _ _ _ _ _ Hrun Hnodup Hin)
        as (f1 & wa & f2 & wb & Hcell & Hkey & Hpre).
      destruct (download_cell_unreachable_single server url max_retries
                  Hbudget Hdown (path_join base_dir (name row)) f1 col wa)
        as (wb' & Hcell' & Hwarned).
      rewrite Hcell' in Hcell. injection Hcell as <- <-.
      rewrite Hkey, lookup_insert_eq. split; [done|].
      by apply (elem_of_prefix _ _ _ Hwarned).
    + intros col urls i Hin Hi.
      destruct (download_cells_at _ _ _ _ _ _ _ _ _ _ Hrun Hnodup Hin)
        as (f1 & wa & f2 & wb & Hcell & Hkey & _).
      destruct (download_cell_unreachable_multiple server url max_retries
                  Hbudget Hdown _ _ _ _ _ _ _ _ Hcell Hi)
        as (paths & -> & Hnull).
      exists paths. by rewrite Hkey, lookup_insert_eq.
Qed.

Lemma exhausted_retries_give_null_slot_witness :
  ∃ ledger w',
    download_file_row flaky_server sample_row "/data" 3 fresh_world
    = (Return ledger, w')
    ∧ ledger !! ("Paths", "Video B")%string = Some VNone
    ∧ gave_up_warning "https://host/video/b.mp4" 3 ∈ warnings w'.
Proof.
  destruct (exhausted_retries_give_null_slot flaky_server
              "https://host/video/b.mp4" 3) as (_ & _ & Hrow).
  - repeat constructor.
  - destruct (Hrow sample_row "/data"%string fresh_world)
      as (ledger & w' & Hrun & Hsingle & _).
    + apply (bool_decide_unpack _). vm_compute. exact I.
    + exact flaky_server_fails_only_by_request.
    + reflexivity.
    + intros n. exists false, "503 Server Error"%string. reflexivity.
    + exists ledger, w'. split; [exact Hrun|].
      apply Hsingle. do 2 apply list_elem_of_further.
      apply list_elem_of_here.
Defined.

(** ** A cell of an unexpected type *)

Lemma url_rows_lookup (df : list catalog_row) (i : nat) :
  url_rows df !! i
  = (λ r, Series (transcript r +:+ "__"
                  +:+ str_of_nat (occurrences (transcript r)
                                    (take i (map transcript df))))
                 (zip url_columns (url_cells r))) <$> df !! i.
Proof.
  unfold url_rows. rewrite lookup_zip_with.
  destruct (df !! i) as [r|] eqn:Hr; simpl.
  - rewrite (assign_identifiers_lookup _ i (transcript r)); [done|].
    by rewrite list_lookup_fmap, Hr.
  - by destruct (assign_identifiers _ !! i).
Qed.

Lemma url_rows_length (df : list catalog_row) :
  length (url_rows df) = length df.
Proof.
  unfold url_rows.
  rewrite length_zip_with, assign_identifiers_length, length_map. lia.
Qed.

(** The rows of a frame do not depend on the rows that follow them. *)
Lemma url_rows_middle (before after : list catalog_row) (r : catalog_row) :
  ∃ rest,
    url_rows (before ++ r :: after)
    = url_rows before
      ++ Series (transcript r +:+ "__"
                 +:+ str_of_nat (occurrences (transcript r)
                                   (map transcript before)))
                (zip url_columns (url_cells r))
      :: rest.
Proof.
  exists (drop (S (length before)) (url_rows (before ++ r :: after))).
  assert (Hr : url_rows (before ++ r :: after) !! length before
               = Some (Series (transcript r +:+ "__"
                               +:+ str_of_nat (occurrences (transcript r)
                                                 (map transcript before)))
                              (zip url_columns (url_cells r)))).
  { rewrite url_rows_lookup, list_lookup_middle by done. simpl.
    rewrite map_app, take_app_length' by (by rewrite length_map). done. }
  rewrite <- (take_drop_middle _ _ _ Hr) at 1.
  f_equal. apply list_eq. intros i.
  destruct (decide (i < length before)) as [Hi|Hi].
  - rewrite lookup_take_lt by done. rewrite !url_rows_lookup.
    rewrite lookup_app_l by done. rewrite map_app.
    rewrite take_app_le by (rewrite length_map; lia). done.
  - rewrite lookup_take_ge by lia.
    rewrite lookup_ge_None_2; [done|]. rewrite url_rows_length. lia.
Qed.

Section StructuralError.

Variable server : string → nat → response.
Hypothesis Hserver : fails_only_by_request server.

Lemma download_file_row_total row base_dir max_retries w :
  forallb resource_slot (items row).*2 = true →
  ∃ ledger w',
    download_file_row server row base_dir max_retries w = (Return ledger, w').
Proof.
  intros Hslots. unfold download_file_row.
  destruct (create_directory_returns (path_join base_dir (name row)) w)
    as (w1 & Hdir).
  rewrite (bind_return _ _ _ _ _ Hdir). by apply download_cells_total.
Qed.

(** A cell of an unexpected type raises at once: no request is made
    for it and nothing is tried again. *)
Lemma download_cell_unexpected row_dir max_retries filenames col v w :
  unexpected_type v = true →
  download_cell server row_dir max_retries filenames col v w
  = (Raise (structural_error v), w).
Proof. by destruct v. Qed.

Lemma download_file_row_unexpected row base_dir max_retries i col v w :
  items row !! i = Some (col, v) →
  unexpected_type v = true →
  forallb resource_slot (take i (items row)).*2 = true →
  ∃ w', download_file_row server row base_dir max_retries w
        = (Raise (structural_error v), w').
Proof.
  intros Hi Hv Hbefore. unfold download_file_row.
  destruct (create_directory_returns (path_join base_dir (name row)) w)
    as (w1 & Hdir).
  rewrite (bind_return _ _ _ _ _ Hdir).
  rewrite <- (take_drop_middle _ _ _ Hi), download_cells_app.
  destruct (download_cells_total server (path_join base_dir (name row))
              max_retries (take i (items row)) Hserver Hbefore
              {[("Paths"%string, "base_dir"%string)
                := VStr (path_join base_dir (name row))]} w1)
    as (f1 & w2 & Hrun).
  rewrite (bind_return _ _ _ _ _ Hrun). simpl.
  exists w2. apply bind_raise. by apply download_cell_unexpected.
Qed.

Lemma well_sized_items (r : catalog_row) :
  well_sized r →
  (zip url_columns (url_cells r)).*1 = url_columns
  ∧ (zip url_columns (url_cells r)).*2 = url_cells r.
Proof.
  intros [_ Hlen]. split; [apply fst_zip | apply snd_zip]; rewrite Hlen; done.
Qed.

(** The run over the rows ends at the broken row, whatever follows. *)
Lemma download_rows_abort base_dir before bad i v w :
  Forall well_sized (before ++ [bad]) →
  Forall (λ r, forallb resource_slot (url_cells r) = true) before →
  url_cells bad !! i = Some v →
  unexpected_type v = true →
  forallb resource_slot (take i (url_cells bad)) = true →
  ∃ w', tables w' = tables w
        ∧ ∀ after,
            download_rows server base_dir (url_rows (before ++ bad :: after)) w
            = (Raise (structural_error v), w').
Proof.
  intros Hsized Hslots Hi Hv Hbefore.
  apply Forall_app in Hsized as [Hsized Hbad].
  rewrite Forall_singleton in Hbad.
  destruct (well_sized_items bad Hbad) as [Hcols Hcells].
  destruct (for_each_total
              (λ row, download_file_row server row base_dir 3)
              (λ row, forallb resource_slot (items row).*2 = true)
              (url_rows before)) with (s := w) as (ys & w1 & Hrows).
  { intros row s Hrow. by apply download_file_row_total. }
  { apply Forall_forall. intros row Hrow.
    apply list_elem_of_lookup in Hrow as (j & Hj).
    rewrite url_rows_lookup in Hj.
    destruct (before !! j) as [r|] eqn:Hr; [|done]. injection Hj as <-.
    change (forallb resource_slot (zip url_columns (url_cells r)).*2 = true).
    assert (Hin : r ∈ before) by (apply list_elem_of_lookup; eauto).
    rewrite (proj2 (well_sized_items r
                      (proj1 (Forall_forall _ _) Hsized r Hin))).
    exact (proj1 (Forall_forall _ _) Hslots r Hin). }
  assert (Hcell : ∃ col, zip url_columns (url_cells bad) !! i = Some (col, v)).
  { destruct (url_columns !! i) as [col|] eqn:Hcol.
    - exists col. by apply lookup_zip_Some.
    - apply lookup_ge_None in Hcol. apply lookup_lt_Some in Hi.
      destruct Hbad as [_ Hlen]. rewrite Hlen in Hi. simpl in Hcol. lia. }
  destruct Hcell as (col & Hcell).
  set (id := transcript bad +:+ "__"
             +:+ str_of_nat (occurrences (transcript bad)
                               (map transcript before))).
  destruct (download_file_row_unexpected
              (Series id (zip url_columns (url_cells bad)))
              base_dir 3 i col v w1 Hcell Hv) as (w2 & Hraise).
  { cbn [items]. rewrite fmap_take, Hcells. done. }
  exists w2. split.
  - transitivity (tables w1); symmetry.
    + exact (keeps_tables_download_file_row server _ _ _ _ _ _ Hraise).
    + apply (preserves_for_each tables_untouched _ _
               (λ row, keeps_tables_download_file_row server row base_dir 3)
               _ _ _ Hrows).
  - intros after. destruct (url_rows_middle before after bad) as (rest & ->).
    unfold download_rows. by eapply for_each_raises.
Qed.

End StructuralError.

Lemma well_sized_check (df : list catalog_row) :
  Forall well_sized df →
  forallb (λ r, (length (attributes r) =? 3)
                && (length (url_cells r) =? 9))%bool df = true.
Proof.
  intros Hdf. apply forallb_forall. intros r Hr.
  apply list_elem_of_In in Hr.
  destruct (proj1 (Forall_forall _ _) Hdf r Hr) as [-> ->]. done.
Qed.

(** [download_data] on a fresh output root, up to the run over the
    rows. *)
Lemma download_data_fresh server (a : args) (df : list catalog_row) w e w' :
  dgs_path a ∉ existing w →
  Forall well_sized df →
  download_rows server (dgs_path a) (url_rows df)
    (set_existing (λ fs, {[dgs_path a]} ∪ fs) w) = (Raise e, w') →
  download_data server a df w = (Raise e, w').
Proof.
  intros Hfresh Hsized Hrows. unfold download_data.
  unfold bind at 1, gets. cbn [fst snd].
  destruct (decide (dgs_path a ∈ existing w)) as [|_]; [done|].
  unfold bind at 1, ret at 1. unfold bind at 1.
  unfold create_directory at 1. unfold bind at 1, gets.
  destruct (decide (dgs_path a ∈ existing w)) as [|_]; [done|].
  unfold modify at 1. rewrite (well_sized_check _ Hsized).
  unfold bind at 1, ret at 1. by apply bind_raise.
Qed.

(** C6, amended. A resource cell of an unexpected type (not null, a
    string or a list) makes the acquisition raise a [TypeError] at once,
    with no request for the cell and no retry. Nothing catches it: it
    ends the whole batch at the entry it occurs in, the entries after
    it are not processed, and no table is persisted. *)
Theorem unexpected_cell_aborts_batch
  (server : string → nat → response) (a : args)
  (before after : list catalog_row) (bad : catalog_row)
  (i : nat) (v : pyval) (w : world) :
  fails_only_by_request server →
  dgs_path a ∉ existing w →
  Forall well_sized (before ++ bad :: after) →
  Forall (λ r, forallb resource_slot (url_cells r) = true) before →
  url_cells bad !! i = Some v →
  unexpected_type v = true →
  forallb resource_slot (take i (url_cells bad)) = true →
  (∀ row_dir max_retries filenames col w0,
      download_cell server row_dir max_retries filenames col v w0
      = (Raise (structural_error v), w0))
  ∧ ∃ w',
      download_data server a (before ++ bad :: after) w
      = (Raise (structural_error v), w')
      ∧ download_data server a (before ++ [bad]) w
        = (Raise (structural_error v), w')
      ∧ tables w' = tables w.
Proof.
  intros Hserver Hfresh Hsized Hslots Hi Hv Hbefore. split.
  { intros. by apply download_cell_unexpected. }
  assert (Hsized' : Forall well_sized (before ++ [bad])).
  { apply Forall_app in Hsized as [Hb Hrest].
    apply Forall_cons in Hrest as [Hbad _].
    apply Forall_app. split; [done|]. by apply Forall_singleton. }
  destruct (download_rows_abort server Hserver (dgs_path a) before bad i v
              (set_existing (λ fs, {[dgs_path a]} ∪ fs) w)
              Hsized' Hslots Hi Hv Hbefore) as (w' & Htables & Hrows).
  exists w'. repeat split.
  - by apply download_data_fresh.
  - by apply download_data_fresh.
  - by rewrite Htables.
Qed.

Lemma unexpected_cell_aborts_batch_witness :
  ∃ w',
    download_data always_up sample_args [sound_entry; broken_entry; sound_entry]
      fresh_world
    = (Raise (structural_error VNaN), w')
    ∧ download_data always_up sample_args [sound_entry; broken_entry]
        fresh_world
      = (Raise (structural_error VNaN), w')
    ∧ tables w' = tables fresh_world.
Proof.
  apply (unexpected_cell_aborts_batch always_up sample_args [sound_entry]
           [sound_entry] broken_entry 0 VNaN fresh_world).
  - intros url n. exact I.
  - apply not_elem_of_empty.
  - repeat constructor.
  - repeat constructor.
  - reflexivity.
  - reflexivity.
  - reflexivity.
Defined.

(** C6, as stated, fails: in a batch of a broken entry followed by a
    sound one, the error of the first ends the run; the file of the
    second entry, which the run of that entry alone requests, is never
    requested, and no table is persisted. *)
Lemma structural_error_ends_the_batch :
  (download_data always_up sample_args [broken_entry; sound_entry]
     fresh_world).1
  = Raise (TypeError "URL nan of type <class 'float'>.")
  ∧ requests (download_data always_up sample_args
                [broken_entry; sound_entry] fresh_world).2 = []
  ∧ tables (download_data always_up sample_args
              [broken_entry; sound_entry] fresh_world).2 = ∅
  ∧ requests (download_data always_up sample_args [sound_entry]
                fresh_world).2 = ["https://host/video/y.mp4"%string].
Proof. vm_compute. repeat split; reflexivity. Qed.

(** ** Metadata extraction *)

Section MetadataFacts.

Variable prober : string → probe_result.

Lemma get_video_metadata_spec path w :
  get_video_metadata prober path w
  = (Return match probe_verdict (prober path) with
            | Measured d wd ht => Some (MFloat d, MTuple (MInt wd) (MInt ht))
            | _ => None
            end,
     after_probe prober path w).
Proof.
  unfold get_video_metadata, after_probe, probe_verdict, bind, modify.
  cbn [fst snd]. destruct (prober path) as [streams|e]; [|done].
  destruct (find _ streams) as [vs|]; [|done].
  destruct (duration vs); [|done]. destruct (width vs); [|done].
  by destruct (height vs).
Qed.

Lemma extract_role_spec row base md role w :
  role_cell_ok row role →
  extract_role prober row (VStr base) md role w
  = (Return (record_roles prober base row [role] md),
     after_roles prober base row [role] w).
Proof.
  intros Hcell. unfold extract_role, record_roles, after_roles, role_metadata,
    getitem. cbn [foldl].
  destruct Hcell as [Hnan|(filename & Hfile)].
  - rewrite Hnan. done.
  - rewrite Hfile. unfold bind at 1, ret at 1. cbn [os_path_join].
    unfold bind at 2, ret at 1. unfold bind at 1.
    rewrite get_video_metadata_spec.
    by destruct (probe_verdict (prober (path_join base filename))).
Qed.

Lemma extract_roles_spec row base roles :
  Forall (role_cell_ok row) roles →
  ∀ md w,
    extract_roles prober row (VStr base) md roles w
    = (Return (record_roles prober base row roles md),
       after_roles prober base row roles w).
Proof.
  induction 1 as [|role rest Hrole _ IH]; intros md w; [done|].
  cbn [extract_roles].
  rewrite (bind_return _ _ _ _ _ (extract_role_spec row base md role w Hrole)).
  by rewrite IH.
Qed.

Lemma ledger_row_cells row :
  ledger_row row = true →
  ∃ base, row !! "base_dir"%string = Some (VStr base)
          ∧ Forall (role_cell_ok row) video_types.
Proof.
  unfold ledger_row. intros Hrow.
  destruct (row !! "base_dir"%string) as [[| |base| |]|]; try discriminate.
  exists base. split; [done|]. apply Forall_forall. intros role Hrole.
  apply list_elem_of_In in Hrole.
  pose proof (proj1 (forallb_forall _ _) Hrow role Hrole) as Hcell.
  cbv beta in Hcell. unfold role_cell_ok.
  destruct (row !! role) as [[| |filename| |]|]; try discriminate; eauto.
Qed.

Lemma extract_metadata_spec row base w :
  row !! "base_dir"%string = Some (VStr base) →
  Forall (role_cell_ok row) video_types →
  extract_metadata prober row w
  = (Return (record_roles prober base row video_types ∅),
     after_roles prober base row video_types w).
Proof.
  intros Hbase Hcells. unfold extract_metadata, getitem. rewrite Hbase.
  unfold bind at 1, ret at 1. by apply extract_roles_spec.
Qed.

Lemma after_probe_probes path w :
  probes (after_probe prober path w) = probes w ++ [path].
Proof. unfold after_probe. by destruct (probe_verdict _). Qed.

Lemma after_probe_printed path w :
  printed (after_probe prober path w)
  = printed w ++ match probe_verdict (prober path) with
                 | ProbeFailed e => [error_line path e]
                 | _ => []
                 end.
Proof.
  unfold after_probe. destruct (probe_verdict _); simpl;
    by rewrite ?app_nil_r.
Qed.

Lemma after_roles_probes row base roles :
  ∀ w, probes (after_roles prober base row roles w)
       = probes w ++ probed_paths base row roles.
Proof.
  unfold after_roles, probed_paths.
  induction roles as [|role rest IH]; intros w; cbn [foldl omap list_omap].
  - by rewrite app_nil_r.
  - rewrite IH. destruct (row !! role) as [[| |filename| |]|]; try done.
    by rewrite after_probe_probes, <- app_assoc.
Qed.

Lemma after_roles_printed row base roles :
  ∀ w, printed (after_roles prober base row roles w)
       = printed w ++ error_lines prober base row roles.
Proof.
  unfold after_roles, error_lines.
  induction roles as [|role rest IH]; intros w; cbn [foldl omap list_omap].
  - by rewrite app_nil_r.
  - rewrite IH. destruct (row !! role) as [[| |filename| |]|]; try done.
    rewrite after_probe_printed, <- app_assoc.
    by destruct (probe_verdict _).
Qed.

Lemma role_keys_distinct (r r' : string) :
  r ∈ video_types → r' ∈ video_types →
  duration_key r ≠ dimensions_key r'
  ∧ (r ≠ r' → duration_key r ≠ duration_key r'
              ∧ dimensions_key r ≠ dimensions_key r').
Proof.
  intros Hr Hr'. apply list_elem_of_In in Hr, Hr'. simpl in Hr, Hr'.
  destruct Hr as [<-|[<-|[<-|[<-|[]]]]];
    destruct Hr' as [<-|[<-|[<-|[<-|[]]]]];
    (split; [intros H; vm_compute in H; discriminate H|]);
    intros Hne; try done;
    split; intros H; vm_compute in H; discriminate H.
Qed.

Lemma record_roles_other row base roles role :
  Forall (λ r, r ∈ video_types) roles → role ∈ video_types → role ∉ roles →
  ∀ md,
    record_roles prober base row roles md !! duration_key role
    = md !! duration_key role
    ∧ record_roles prober base row roles md !! dimensions_key role
      = md !! dimensions_key role.
Proof.
  unfold record_roles. intros Hroles Hrole.
  induction Hroles as [|r rest Hr _ IH]; intros Hnot md; [done|].
  apply not_elem_of_cons in Hnot as [Hne Hnot]. cbn [foldl].
  destruct (IH Hnot
              match role_metadata prober base row r with
              | Some (first, second) =>
                  <[dimensions_key r := second]>
                    (<[duration_key r := first]> md)
              | None => md
              end) as [-> ->].
  destruct (role_metadata prober base row r) as [[first second]|]; [|done].
  destruct (role_keys_distinct r role Hr Hrole) as [Hcross Hsame].
  destruct (role_keys_distinct role r Hrole Hr) as [Hcross' _].
  destruct (Hsame (λ H, Hne (eq_sym H))) as [Hdur Hdim].
  rewrite !lookup_insert_ne by done. done.
Qed.

Lemma record_roles_lookup row base roles role :
  Forall (λ r, r ∈ video_types) roles → NoDup roles → role ∈ roles →
  ∀ md,
    record_roles prober base row roles md !! duration_key role
    = match role_metadata prober base row role with
      | Some (first, _) => Some first
      | None => md !! duration_key role
      end
    ∧ record_roles prober base row roles md !! dimensions_key role
      = match role_metadata prober base row role with
        | Some (_, second) => Some second
        | None => md !! dimensions_key role
        end.
Proof.
  intros Hroles Hnodup.
  induction Hroles as [|r rest Hr Hrest IH]; intros Hin md.
  { by apply elem_of_nil in Hin. }
  apply NoDup_cons in Hnodup as [Hfresh Hnodup].
  change (record_roles prober base row (r :: rest) md)
    with (record_roles prober base row rest
            match role_metadata prober base row r with
            | Some (first, second) =>
                <[dimensions_key r := second]>
                  (<[duration_key r := first]> md)
            | None => md
            end).
  apply elem_of_cons in Hin as [->|Hin].
  - destruct (record_roles_other row base rest r Hrest Hr Hfresh
                match role_metadata prober base row r with
                | Some (first, second) =>
                    <[dimensions_key r := second]>
                      (<[duration_key r := first]> md)
                | None => md
                end) as [-> ->].
    destruct (role_metadata prober base row r) as [[first second]|]; [|done].
    destruct (role_keys_distinct r r Hr Hr) as [Hcross _].
    rewrite lookup_insert_ne by (intros H; by apply Hcross).
    by rewrite !lookup_insert_eq.
  - assert (Hrole : role ∈ video_types)
      by exact (proj1 (Forall_forall _ _) Hrest role Hin).
    destruct (IH Hnodup Hin
                match role_metadata prober base row r with
                | Some (first, second) =>
                    <[dimensions_key r := second]>
                      (<[duration_key r := first]> md)
                | None => md
                end) as [-> ->].
    destruct (role_metadata prober base row role) as [[a b]|]; [done|].
    destruct (role_metadata prober base row r) as [[first second]|]; [|done].
    assert (Hne : r ≠ role) by (intros ->; done).
    destruct (role_keys_distinct r role Hr Hrole) as [Hcross Hsame].
    destruct (role_keys_distinct role r Hrole Hr) as [Hcross' _].
    destruct (Hsame Hne) as [Hdur Hdim].
    rewrite !lookup_insert_ne by done. done.
Qed.

Lemma video_types_facts :
  Forall (λ r, r ∈ video_types) video_types ∧ NoDup video_types.
Proof.
  split; [by apply Forall_forall|]. apply (bool_decide_unpack _). by vm_compute.
Qed.

(** The record of a ledger row, role by role. *)
Lemma record_of_row row base role :
  role ∈ video_types →
  record_roles prober base row video_types ∅ !! duration_key role
  = fst <$> role_metadata prober base row role
  ∧ record_roles prober base row video_types ∅ !! dimensions_key role
    = snd <$> role_metadata prober base row role.
Proof.
  intros Hrole. destruct video_types_facts as [Hall Hnodup].
  destruct (record_roles_lookup row base video_types role Hall Hnodup Hrole ∅)
    as [-> ->].
  destruct (role_metadata prober base row role) as [[first second]|]; by simpl.
Qed.

Lemma probed_paths_without row base role roles :
  row !! role = Some VNaN →
  probed_paths base row roles
  = probed_paths base row (filter (λ r, r ≠ role) roles).
Proof.
  intros Hnan. unfold probed_paths.
  induction roles as [|r rest IH]; [done|].
  rewrite filter_cons. destruct (decide (r ≠ role)) as [Hne|Heq].
  - cbn [omap list_omap]. by rewrite <- IH.
  - apply dec_stable in Heq as ->. cbn [omap list_omap].
    by rewrite Hnan.
Qed.

Lemma extract_all_total rows w :
  Forall (λ r, ledger_row r = true) rows →
  ∃ mds w', extract_all prober rows w = (Return mds, w')
            ∧ length mds = length rows.
Proof.
  intros Hrows. unfold extract_all.
  destruct (for_each_total (extract_metadata prober)
              (λ r, ledger_row r = true) rows) with (s := w)
    as (mds & w' & Hrun); [|done|].
  - intros row s Hrow.
    destruct (ledger_row_cells row Hrow) as (base & Hbase & Hcells).
    eexists _, _. by apply extract_metadata_spec.
  - exists mds, w'. split; [done|].
    symmetry. exact (Forall2_length _ _ _ (for_each_returns _ _ _ _ _ Hrun)).
Qed.

(** A cell that raises ends the roles of its row where it stands. *)
Lemma extract_roles_bad row base role later e :
  (∀ md w, extract_role prober row (VStr base) md role w = (Raise e, w)) →
  ∀ earlier, Forall (role_cell_ok row) earlier →
    ∀ md w,
      extract_roles prober row (VStr base) md (earlier ++ role :: later) w
      = (Raise e, after_roles prober base row earlier w).
Proof.
  intros Hbad. induction earlier as [|r rest IH]; intros Hok md w.
  - simpl. by rewrite (bind_raise _ _ _ _ _ (Hbad md w)).
  - apply Forall_cons in Hok as [Hr Hrest]. cbn [app extract_roles].
    rewrite (bind_return _ _ _ _ _ (extract_role_spec _ _ _ _ _ Hr)).
    by rewrite (IH Hrest).
Qed.

End MetadataFacts.

(** X27. For every row of the ledger and every video role, when the
    cell of the role is the object [numpy.nan] itself,
    [extract_metadata] returns a record in which the duration of the
    role is null and its dimensions are a pair of nulls, and the prober
    is called for the files of the other roles only, in the order of
    the roles. *)
Theorem null_path_gives_null_metadata
  (prober : string → probe_result) (row : gmap string pyval)
  (role : string) (w : world) :
  ledger_row row = true →
  role ∈ video_types →
  row !! role = Some VNaN →
  ∃ base md w',
    row !! "base_dir"%string = Some (VStr base)
    ∧ extract_metadata prober row w = (Return md, w')
    ∧ md !! duration_key role = Some MNone
    ∧ md !! dimensions_key role = Some (MTuple MNone MNone)
    ∧ probes w' = probes w
                  ++ probed_paths base row
                       (filter (λ r, r ≠ role) video_types).
Proof.
  intros Hrow Hrole Hnan.
  destruct (ledger_row_cells row Hrow) as (base & Hbase & Hcells).
  exists base. eexists _, _. split; [done|].
  split; [by apply extract_metadata_spec|].
  destruct (record_of_row prober row base role Hrole) as [-> ->].
  unfold role_metadata. rewrite Hnan. repeat split.
  rewrite after_roles_probes. f_equal. by apply probed_paths_without.
Qed.

Lemma null_path_gives_null_metadata_witness :
  ∃ md w',
    extract_metadata sample_prober sample_ledger_row fresh_world
    = (Return md, w')
    ∧ md !! duration_key "Video AB" = Some MNone
    ∧ md !! dimensions_key "Video AB" = Some (MTuple MNone MNone)
    ∧ probes w' = ["/data/X__0/a.mp4"; "/data/X__0/b.mp4";
                   "/data/X__0/t.mp4"]%string.
Proof.
  destruct (null_path_gives_null_metadata sample_prober sample_ledger_row
              "Video AB" fresh_world)
    as (base & md & w' & Hbase & Hrun & Hdur & Hdim & Hprobes).
  - reflexivity.
  - do 3 apply list_elem_of_further. apply list_elem_of_here.
  - reflexivity.
  - exists md, w'. injection Hbase as <-.
    split; [exact Hrun|]. split; [exact Hdur|]. split; [exact Hdim|].
    exact Hprobes.
Defined.

(** C4. The test for a null path is [filename is np.nan], a test of
    identity: a null that is another object than [numpy.nan] does not
    pass it. For every row with a base directory and every video role
    whose cell is such a float NaN, as a table read back holds for a
    column that is empty in every row, [extract_metadata] returns no
    record: after the roles before it were gone through, joining the
    base directory and the NaN raises a [TypeError]. The prober is not
    called for the role, no metadata is produced for the row, and the
    extraction of the rows ends with this exception. *)
Theorem float_nan_path_raises
  (prober : string → probe_result) (row : gmap string pyval)
  (base role : string) (earlier later : list string) (w : world) :
  row !! "base_dir"%string = Some (VStr base) →
  video_types = earlier ++ role :: later →
  Forall (role_cell_ok row) earlier →
  row !! role = Some float_nan →
  ∃ msg w',
    extract_metadata prober row w = (Raise (TypeError msg), w')
    ∧ probes w' = probes w ++ probed_paths base row earlier
    ∧ ∀ after,
        extract_all prober (row :: after) w = (Raise (TypeError msg), w').
Proof.
  intros Hbase Hroles Hearlier Hnan.
  assert (Hrole : ∀ md w0,
             extract_role prober row (VStr base) md role w0
             = (Raise (TypeError "expected str, bytes or os.PathLike object"),
                w0)).
  { intros md w0. unfold extract_role, getitem. by rewrite Hnan. }
  assert (Hrun : extract_metadata prober row w
                 = (Raise (TypeError
                             "expected str, bytes or os.PathLike object"),
                    after_roles prober base row earlier w)).
  { unfold extract_metadata, getitem. rewrite Hbase, Hroles.
    rewrite bind_return with (a := VStr base) (s1 := w) by done.
    by apply extract_roles_bad. }
  eexists _, _. split; [exact Hrun|]. split.
  - apply after_roles_probes.
  - intros after. unfold extract_all.
    by apply (for_each_raises _ [] after row w w _ []).
Qed.

Lemma float_nan_path_raises_witness :
  ∃ msg w',
    extract_metadata sample_prober empty_column_row fresh_world
    = (Raise (TypeError msg), w')
    ∧ probes w' = ["/data/X__0/a.mp4"]%string.
Proof.
  destruct (float_nan_path_raises sample_prober empty_column_row
              "/data/X__0" "Video B" ["Video A"%string]
              ["Video Total"; "Video AB"]%string fresh_world)
    as (msg & w' & Hrun & Hprobes & _).
  - reflexivity.
  - reflexivity.
  - apply Forall_singleton. right. by exists "a.mp4"%string.
  - reflexivity.
  - by exists msg, w'.
Defined.

(** C5, amended. For every row of the ledger with a file name for a
    role whose probing does not give the measures of a video stream,
    [extract_metadata] returns normally; the record has no duration and
    no dimensions for that role (a missing value in the table), and
    holds for every other role what that role alone comes to. The lines
    printed for the row are the error lines of the files whose probe
    raised, so that the error of such a file is printed. The extraction
    over all the rows returns a record for each row. *)
Theorem probe_failure_is_contained
  (prober : string → probe_result)
  (before after : list (gmap string pyval)) (row : gmap string pyval)
  (base role filename : string) (w : world) :
  Forall (λ r, ledger_row r = true) (before ++ row :: after) →
  role ∈ video_types →
  row !! "base_dir"%string = Some (VStr base) →
  row !! role = Some (VStr filename) →
  failed (probe_verdict (prober (path_join base filename))) = true →
  (∀ w0, ∃ md w1,
      extract_metadata prober row w0 = (Return md, w1)
      ∧ md !! duration_key role = None
      ∧ md !! dimensions_key role = None
      ∧ (∀ other, other ∈ video_types →
           md !! duration_key other
           = fst <$> role_metadata prober base row other
           ∧ md !! dimensions_key other
             = snd <$> role_metadata prober base row other)
      ∧ printed w1 = printed w0 ++ error_lines prober base row video_types
      ∧ (∀ e, probe_verdict (prober (path_join base filename))
              = ProbeFailed e →
              error_line (path_join base filename) e ∈ printed w1))
  ∧ ∃ mds w',
      extract_all prober (before ++ row :: after) w = (Return mds, w')
      ∧ length mds = length (before ++ row :: after).
Proof.
  intros Hrows Hrole Hbase Hfile Hfailed. split; [|by apply extract_all_total].
  intros w0.
  assert (Hrow : ledger_row row = true).
  { apply (proj1 (Forall_forall _ _) Hrows). apply elem_of_app. right.
    apply list_elem_of_here. }
  destruct (ledger_row_cells row Hrow) as (base' & Hbase' & Hcells).
  rewrite Hbase in Hbase'. injection Hbase' as <-.
  eexists _, _. split; [by apply extract_metadata_spec|].
  assert (Hnone : role_metadata prober base row role = None).
  { unfold role_metadata. rewrite Hfile.
    by destruct (probe_verdict (prober (path_join base filename))). }
  destruct (record_of_row prober row base role Hrole) as [Hdur Hdim].
  rewrite Hnone in Hdur, Hdim.
  split; [done|]. split; [done|].
  split; [intros other Hother; by apply record_of_row|].
  rewrite after_roles_printed. split; [done|].
  intros e He. apply elem_of_app. right. unfold error_lines.
  apply list_elem_of_omap. exists role. split; [done|].
  by rewrite Hfile, He.
Qed.

Lemma probe_failure_is_contained_witness :
  ∃ md w1,
    extract_metadata sample_prober sample_ledger_row fresh_world
    = (Return md, w1)
    ∧ md !! duration_key "Video B" = None
    ∧ md !! dimensions_key "Video B" = None
    ∧ error_line "/data/X__0/b.mp4"
        "ffprobe error (see stderr output for detail)" ∈ printed w1.
Proof.
  destruct (probe_failure_is_contained sample_prober [] [] sample_ledger_row
              "/data/X__0" "Video B" "b.mp4" fresh_world) as [Hrow _].
  - repeat constructor.
  - apply list_elem_of_further. apply list_elem_of_here.
  - reflexivity.
  - reflexivity.
  - reflexivity.
  - destruct (Hrow fresh_world)
      as (md & w1 & Hrun & Hdur & Hdim & _ & _ & Hline).
    exists md, w1. split; [exact Hrun|]. split; [exact Hdur|].
    split; [exact Hdim|]. apply Hline. reflexivity.
Defined.

(** C5, as stated, fails: a file that is read but holds no video
    stream yields no duration and no dimensions for its role, and
    nothing is printed or logged for it. *)
Lemma missing_video_stream_is_silent :
  probe_verdict (sample_prober "/data/X__0/a.mp4") = NoVideoStream
  ∧ probes (extract_metadata sample_prober sound_only_row fresh_world).2
    = ["/data/X__0/a.mp4"%string]
  ∧ printed (extract_metadata sample_prober sound_only_row fresh_world).2 = []
  ∧ warnings (extract_metadata sample_prober sound_only_row fresh_world).2 = []
  ∧ match (extract_metadata sample_prober sound_only_row fresh_world).1 with
    | Return md =>
        map (λ key, md !! key)
            [duration_key "Video A"; dimensions_key "Video A";
             duration_key "Video B"; dimensions_key "Video B"]
    | Raise _ => []
    end
    = [None; None; Some MNone; Some (MTuple MNone MNone)].
Proof. vm_compute. repeat split; reflexivity. Qed.

(** ** Conflict policy of the YouTube-SL-25 downloader *)

Section SkipFacts.

Variable youtube : string → YT.video_result.
Variable shell : string → gset string → gset string.

Lemma select_videos_spec (keep : string → bool) (video_data : list (list string))
  (w : YT.world) :
  Forall (λ video, 2 ≤ length video) video_data →
  YT.select_videos keep video_data w
  = (Return (List.filter (λ video, keep (nth 1 video ""%string)) video_data),
     w).
Proof.
  induction 1 as [|video rest Hvideo _ IH]; [done|].
  cbn [YT.select_videos List.filter].
  destruct video as [|video_id [|language fields]]; simpl in Hvideo; try lia.
  cbn [YT.language_of nth]. unfold bind at 1, ret at 1.
  rewrite (bind_return _ _ _ _ _ IH). done.
Qed.

End SkipFacts.

(** C9. For every output unit whose directory exists, with the
    conflict policy [skip] the orchestrator returns at once for the
    unit: it contacts no server, writes no file, runs no command and
    leaves the existing paths as they are; it prints that the unit is
    skipped and advances the total progress by the number of items of
    the unit. *)
Theorem skip_leaves_existing_unit_untouched
  (youtube : string → YT.video_result)
  (shell : string → gset string → gset string) (a : YT.args)
  (video_data : list (list string)) (language : string) (w : YT.world) :
  YT.replace a = YT.Skip →
  path_join (YT.output_dir a) language ∈ YT.existing w →
  Forall (λ video, 2 ≤ length video) video_data →
  ∃ w',
    YT.process_language youtube shell a video_data language w = (Return tt, w')
    ∧ YT.network w' = YT.network w
    ∧ YT.written w' = YT.written w
    ∧ YT.commands w' = YT.commands w
    ∧ YT.existing w' = YT.existing w
    ∧ YT.answers w' = YT.answers w
    ∧ YT.printed w'
      = YT.printed w
        ++ ["Skipping " +:+ path_join (YT.output_dir a) language]
    ∧ YT.progress w'
      = YT.progress w + length (YT.unit_items language video_data).
Proof.
  intros Hskip Hexists Hrows. unfold YT.process_language.
  rewrite (bind_return _ _ _ _ _ (select_videos_spec _ _ w Hrows)).
  unfold bind at 1, gets. cbn [fst snd].
  destruct (decide (path_join (YT.output_dir a) language ∈ YT.existing w))
    as [_|]; [|done].
  rewrite Hskip. eexists. split; [reflexivity|]. repeat split.
Qed.

Lemma skip_leaves_existing_unit_untouched_witness :
  ∃ w',
    YT.process_language YT.sample_youtube YT.quiet_shell YT.sample_args YT.sample_videos
      "ase" YT.sample_world = (Return tt, w')
    ∧ YT.network w' = []
    ∧ YT.written w' = []
    ∧ YT.progress w' = 2.
Proof.
  destruct (skip_leaves_existing_unit_untouched YT.sample_youtube YT.quiet_shell
              YT.sample_args YT.sample_videos "ase" YT.sample_world)
    as (w' & Hrun & Hnet & Hwritten & _ & _ & _ & _ & Hprogress).
  - reflexivity.
  - change ("/out/ase"%string ∈ ({["/out/ase"%string]} : gset string)).
    by apply elem_of_singleton_2.
  - repeat constructor.
  - exists w'. split; [exact Hrun|]. split; [exact Hnet|].
    split; [exact Hwritten | exact Hprogress].
Defined.

(** A whole run of [main] with the policy [skip]: the existing unit is
    skipped and counted, the other one is downloaded. *)
Example main_with_skip :
  YT.network (YT.main YT.sample_youtube YT.quiet_shell elements YT.sample_args
                YT.sample_videos YT.sample_world).2
  = ["https://www.youtube.com/watch?v=id2"%string]
  ∧ YT.written (YT.main YT.sample_youtube YT.quiet_shell elements YT.sample_args
                  YT.sample_videos YT.sample_world).2
    = [("/out/bfi", "id2_clip.mp4")]%string
  ∧ YT.progress (YT.main YT.sample_youtube YT.quiet_shell elements YT.sample_args
                   YT.sample_videos YT.sample_world).2 = 3.
Proof. vm_compute. repeat split. Qed.

(** The same unit, when its directory does not exist yet, is
    downloaded: the policy only acts on what exists. *)
Example missing_unit_is_downloaded :
  YT.network
    (YT.process_language YT.sample_youtube YT.quiet_shell YT.sample_args YT.sample_videos
       "bfi" YT.sample_world).2
  = ["https://www.youtube.com/watch?v=id2"%string]
  ∧ YT.progress
      (YT.process_language YT.sample_youtube YT.quiet_shell YT.sample_args YT.sample_videos
         "bfi" YT.sample_world).2 = 1.
Proof. vm_compute. split; reflexivity. Qed.

(** A directory whose name has a blank is not cleared by the policy
    [all]: the command line is split, the video stays, and the
    directory that bears the first word is removed instead. *)
Example unquoted_name_is_split :
  YT.shell_word "/out/my lang" = false
  ∧ map (λ p, bool_decide
                (p ∈ YT.existing
                       (YT.handle_existing_directory YT.splitting_shell
                          "/out/my lang" YT.All YT.blank_world).2))
        ["/out/my lang"; "/out/my lang/id1_clip.mp4"; "/out/my"]%string
    = [true; true; false].
Proof. vm_compute. split; reflexivity. Qed.

(** ** The persisted table *)

Lemma repr_list_bracketed (items : list pyval) :
  starts_with_bracket (py_repr (VList items)) = true.
Proof. reflexivity. Qed.

Lemma read_text_field_read_back (v : pyval) :
  read_text_field (csv_field v) = read_back v.
Proof.
  destruct v as [| |s|items|text ty]; reflexivity.
Qed.

Section ReaderFacts.

Variable infer_column : list string → option (list pyval).

Lemma round_trip_columns (df : table) :
  columns (round_trip infer_column df)
  = map (λ col, (col.1, read_column infer_column (map csv_field col.2)))
        (columns df).
Proof.
  unfold round_trip, read_csv_file, to_csv_file. cbn [csv_columns columns].
  rewrite map_map. done.
Qed.

Lemma read_column_text (cells : list pyval) :
  infer_column (map csv_field cells) = None →
  read_column infer_column (map csv_field cells) = map read_back cells.
Proof.
  intros Htext. unfold read_column. rewrite Htext, map_map.
  apply map_ext. intros v. apply read_text_field_read_back.
Qed.

Lemma column_with_list_is_text (cells : list pyval) (i : nat) items :
  keeps_bracketed_text infer_column →
  cells !! i = Some (VList items) →
  infer_column (map csv_field cells) = None.
Proof.
  intros Hkeeps Hi. apply Hkeeps. apply existsb_exists.
  exists (py_repr (VList items)). split; [|apply repr_list_bracketed].
  apply list_elem_of_In, list_elem_of_lookup. exists i.
  change (map csv_field cells) with (csv_field <$> cells).
  by rewrite list_lookup_fmap, Hi.
Qed.

End ReaderFacts.

(** C3, amended. Persisting a Dataset Table and reading it back
    reproduces the row keys and the names of the columns. In a column
    that the reader keeps as text, a text cell comes back identical
    unless it is one of the reader's markers of a missing value, and a
    null cell comes back as the missing-value marker NaN. A
    Multiple-valued cell comes back as one text cell that holds the
    literal text of the list, not as a list; its column is kept as
    text. *)
Theorem round_trip_keeps_text_not_lists
  (infer_column : list string → option (list pyval)) (df : table) :
  keeps_bracketed_text infer_column →
  index (round_trip infer_column df) = index df
  ∧ (columns (round_trip infer_column df)).*1 = (columns df).*1
  ∧ ∀ j key cells,
      columns df !! j = Some (key, cells) →
      ∃ cells',
        columns (round_trip infer_column df) !! j = Some (key, cells')
        ∧ (infer_column (map csv_field cells) = None →
           cells' = map read_back cells)
        ∧ ∀ i items,
            cells !! i = Some (VList items) →
            cells' !! i = Some (VStr (py_repr (VList items)))
            ∧ cells' = map read_back cells.
Proof.
  intros Hkeeps. split; [done|]. rewrite round_trip_columns. split.
  { rewrite <- list_fmap_compose. done. }
  intros j key cells Hj.
  exists (read_column infer_column (map csv_field cells)). split.
  { change (map ?f ?l) with (f <$> l) at 1.
    by rewrite list_lookup_fmap, Hj. }
  split; [apply read_column_text|].
  intros i items Hi.
  pose proof (column_with_list_is_text infer_column cells i items Hkeeps Hi)
    as Htext.
  rewrite (read_column_text _ _ Htext). split; [|done].
  change (map read_back cells) with (read_back <$> cells).
  by rewrite list_lookup_fmap, Hi.
Qed.

Lemma sample_inference_keeps_bracketed_text :
  keeps_bracketed_text sample_inference.
Proof.
  intros fields Hfields. unfold sample_inference.
  replace (forallb all_digits fields) with false; [done|].
  symmetry. apply not_true_is_false. intros Hall.
  apply existsb_exists in Hfields as (field & Hin & Hbracket).
  pose proof (proj1 (forallb_forall _ _) Hall field Hin) as Hdigits.
  destruct field as [|c rest]; [discriminate|].
  simpl in Hbracket. apply Ascii.eqb_eq in Hbracket as ->.
  discriminate Hdigits.
Qed.

Lemma round_trip_keeps_text_not_lists_witness :
  index (round_trip sample_inference sample_table) = index sample_table
  ∧ ∃ cells',
      columns (round_trip sample_inference sample_table) !! 2
      = Some (("Paths", "SRT")%string, cells')
      ∧ cells' !! 0 = Some (VStr "['a.srt', None]").
Proof.
  destruct (round_trip_keeps_text_not_lists sample_inference sample_table
              sample_inference_keeps_bracketed_text)
    as (Hindex & _ & Hcells).
  split; [exact Hindex|].
  destruct (Hcells 2 ("Paths", "SRT")%string
              [VList [VStr "a.srt"; VNone]; VNone] eq_refl)
    as (cells' & Hcol & _ & Hlist).
  exists cells'. split; [exact Hcol|].
  exact (proj1 (Hlist 0 [VStr "a.srt"; VNone] eq_refl)).
Defined.

(** C3, as stated, fails: read back, the Multiple-valued cells of a
    table are text, not lists, and its nulls are NaN. *)
Lemma lists_are_read_back_as_text :
  columns sample_table
  = [(("URLs", "SRT"),
      [VList [VStr "https://host/srt/a.srt"; VStr "https://host/srt/b.srt"];
       VNone]);
     (("Paths", "base_dir"), [VStr "/data/X__0"; VStr "/data/Y__0"]);
     (("Paths", "SRT"), [VList [VStr "a.srt"; VNone]; VNone])]%string
  ∧ columns (round_trip sample_inference sample_table)
    = [(("URLs", "SRT"),
        [VStr "['https://host/srt/a.srt', 'https://host/srt/b.srt']"; VNaN]);
       (("Paths", "base_dir"), [VStr "/data/X__0"; VStr "/data/Y__0"]);
       (("Paths", "SRT"), [VStr "['a.srt', None]"; VNaN])]%string
  ∧ round_trip sample_inference sample_table ≠ sample_table.
Proof.
  split; [reflexivity|]. split; [reflexivity|].
  intros Hsame. apply (f_equal columns) in Hsame. discriminate Hsame.
Qed.

(** * Further properties of the code *)

(** ** [download_file] *)

Section DownloadFileFacts.

Variable server : string → nat → response.

Lemma download_attempts_fetched url save_path max_retries attempt rest w :
  server url (length (requests w)) = Fetched →
  download_attempts server url save_path max_retries (attempt :: rest) w
  = (Return (Some save_path),
     set_existing (λ fs, {[save_path]} ∪ fs)
                  (set_requests (λ l, l ++ [url]) w)).
Proof.
  intros Hs. simpl. unfold bind, gets, modify. simpl. by rewrite Hs.
Qed.

(** The attempts that fail with request exceptions before the budget
    is spent: the loop goes on with the next attempt, with the requests
    and the warnings recorded, and the file there if one of them had
    opened it. *)
Lemma download_attempts_skip_failures url save_path max_retries
  (opened : nat → bool) (errors : nat → string) failures :
  ∀ start more w,
    start + failures + S more = max_retries →
    (∀ k, k < failures →
          server url (length (requests w) + k)
          = RequestException (opened (start + k)) (errors (start + k))) →
    ∃ w1,
      download_attempts server url save_path max_retries
        (seq start (failures + S more)) w
      = download_attempts server url save_path max_retries
          (seq (start + failures) (S more)) w1
      ∧ requests w1 = requests w ++ replicate failures url
      ∧ warnings w1
        = warnings w
          ++ map (λ a, attempt_warning url a max_retries (errors a))
                 (seq start failures)
      ∧ existing w1
        = (if existsb opened (seq start failures)
           then {[save_path]} ∪ existing w else existing w).
Proof.
  induction failures as [|failures IH]; intros start more w Hbudget Hfail.
  - exists w. rewrite Nat.add_0_r. cbn. by rewrite !app_nil_r.
  - pose proof (Hfail 0 ltac:(lia)) as He. rewrite !Nat.add_0_r in He.
    cbn [Nat.add seq].
    rewrite (download_attempts_failed _ _ _ _ _ _ _ _ _ He). cbv zeta.
    replace (start =? max_retries - 1) with false
      by (symmetry; apply Nat.eqb_neq; lia).
    match goal with |- context [download_attempts _ _ _ _ _ ?w0] =>
      destruct (IH (S start) more w0) as (w1 & Hrun & Hreq & Hwarn & Hfs)
    end.
    + lia.
    + intros k Hk. replace (S start + k) with (start + S k) by lia.
      rewrite <- (Hfail (S k)) by lia. f_equal.
      destruct (opened start); cbn; rewrite length_app; cbn; lia.
    + exists w1. split.
      { rewrite Hrun. by replace (S start + failures)
                           with (start + S failures) by lia. }
      cbn [existsb].
      destruct (opened start); cbn in Hreq, Hwarn, Hfs;
        (split; [by rewrite Hreq, <- app_assoc|]);
        (split; [by rewrite Hwarn, <- app_assoc|]);
        rewrite Hfs; destruct (existsb opened (seq (S start) failures));
        cbn [orb]; try done.
      by rewrite (assoc_L (∪)), (idemp_L (∪)).
Qed.

Lemma download_attempts_then_fetched url save_path max_retries
  (opened : nat → bool) (errors : nat → string) failures :
  ∀ start more w,
    start + failures + S more = max_retries →
    (∀ k, k < failures →
          server url (length (requests w) + k)
          = RequestException (opened (start + k)) (errors (start + k))) →
    server url (length (requests w) + failures) = Fetched →
    ∃ w', download_attempts server url save_path max_retries
            (seq start (failures + S more)) w
          = (Return (Some save_path), w')
          ∧ requests w' = requests w ++ replicate (S failures) url
          ∧ warnings w'
            = warnings w
              ++ map (λ a, attempt_warning url a max_retries (errors a))
                     (seq start failures)
          ∧ existing w' = {[save_path]} ∪ existing w.
Proof.
  intros start more w Hbudget Hfail Hok.
  destruct (download_attempts_skip_failures url save_path max_retries opened
              errors failures start more w Hbudget Hfail)
    as (w1 & -> & Hreq & Hwarn & Hfs).
  cbn [seq]. rewrite download_attempts_fetched.
  2: { by rewrite Hreq, length_app, length_replicate. }
  eexists. split; [reflexivity|]. cbn. rewrite Hreq, Hwarn, Hfs.
  split.
  { rewrite <- app_assoc. f_equal. change [url] with (replicate 1 url).
    by rewrite <- replicate_add, Nat.add_1_r. }
  split; [done|].
  destruct (existsb opened (seq start failures)); [|done].
  by rewrite (assoc_L (∪)), (idemp_L (∪)).
Qed.

End DownloadFileFacts.

(** X1. When the first attempts at a URL fail with request exceptions,
    before or after the file was opened, and the next one, still within
    the budget, is fetched,
    [download_file] returns the path it saved to after exactly that many
    requests plus one; it logs one warning per failed attempt, with the
    attempt number and the budget, and not the warning of giving up; the
    file is the only new path. With no failure this is one request and
    no warning. *)
Theorem download_file_succeeds_after_failures
  (server : string → nat → response) (url save_path : string)
  (max_retries failures : nat) (opened : nat → bool) (errors : nat → string)
  (w : world) :
  failures < max_retries →
  (∀ k, k < failures →
        server url (length (requests w) + k)
        = RequestException (opened k) (errors k)) →
  server url (length (requests w) + failures) = Fetched →
  ∃ w', download_file server url save_path max_retries w
        = (Return (Some save_path), w')
        ∧ requests w' = requests w ++ replicate (S failures) url
        ∧ warnings w'
          = warnings w
            ++ map (λ a, attempt_warning url a max_retries (errors a))
                   (seq 0 failures)
        ∧ existing w' = {[save_path]} ∪ existing w.
Proof.
  intros Hbudget Hfail Hok. unfold download_file.
  destruct (download_attempts_then_fetched server url save_path max_retries
              opened errors failures 0 (max_retries - S failures) w)
    as (w' & Hrun & Hrest); [lia|done|done|].
  replace (failures + S (max_retries - S failures)) with max_retries
    in Hrun by lia.
  by exists w'.
Qed.

Lemma download_file_succeeds_after_failures_witness :
  ∃ w', download_file recovering_server "https://host/a.mp4" "/data/a.mp4" 3
          fresh_world = (Return (Some "/data/a.mp4"%string), w')
        ∧ requests w' = replicate 3 "https://host/a.mp4"%string
        ∧ warnings w'
          = ["Failed to download https://host/a.mp4 (Attempt 1/3): Read timed out";
             "Failed to download https://host/a.mp4 (Attempt 2/3): Read timed out"
            ]%string.
Proof.
  destruct (download_file_succeeds_after_failures recovering_server
              "https://host/a.mp4" "/data/a.mp4" 3 2 (λ _, false)
              (λ _, "Read timed out"%string) fresh_world)
    as (w' & Hrun & Hreq & Hwarn & _).
  - lia.
  - intros [|[|k]] Hk; [reflexivity|reflexivity|lia].
  - reflexivity.
  - exists w'. split; [exact Hrun|]. split; [exact Hreq | exact Hwarn].
Defined.

(** ** What the acquisition touches *)

Section Footprint.

Variable server : string → nat → response.
Variable R : relation world.
Variable allowed : string → Prop.
Context `{!PreOrder R}.
Hypothesis R_request :
  ∀ url w, allowed url → R w (set_requests (λ l, l ++ [url]) w).
Hypothesis R_stored :
  ∀ path w, R w (set_existing (λ fs, {[path]} ∪ fs) w).
Hypothesis R_warning : ∀ msg w, R w (set_warnings (λ l, l ++ [msg]) w).

Lemma footprint_modify (f : world → world) :
  (∀ w, R w (f w)) → preserves R (modify f).
Proof. intros Hf w r w' [= <- <-]. apply Hf. Qed.

Lemma footprint_download_attempts url save_path max_retries attempts :
  allowed url →
  preserves R (download_attempts server url save_path max_retries attempts).
Proof.
  intros Hurl. induction attempts as [|attempt rest IH]; simpl.
  - apply (preserves_ret R).
  - apply (preserves_bind R); [apply (preserves_gets R)|]. intros earlier.
    apply (preserves_bind R); [apply footprint_modify; auto|].
    assert (Hopened : ∀ opened : bool,
               preserves R
                 (if opened
                  then modify (set_existing (λ fs, {[save_path]} ∪ fs))
                  else ret tt)).
    { intros [|]; [apply footprint_modify; auto|apply (preserves_ret R)]. }
    intros _. destruct (server url earlier) as [|opened e|opened e].
    + apply (preserves_bind R); [apply footprint_modify; auto|].
      intros _. apply (preserves_ret R).
    + apply (preserves_bind R); [apply Hopened|]. intros _.
      apply (preserves_bind R); [apply footprint_modify; auto|].
      intros _. destruct (attempt =? max_retries - 1); [|done].
      apply (preserves_bind R); [apply footprint_modify; auto|].
      intros _. apply (preserves_ret R).
    + apply (preserves_bind R); [apply Hopened|]. intros _.
      apply (preserves_raise R).
Qed.

Lemma footprint_download_list_item row_dir max_retries url :
  (∀ s, url = VStr s → allowed s) →
  preserves R (download_list_item server row_dir max_retries url).
Proof.
  intros Hurl. destruct url; try apply (preserves_raise R). simpl.
  apply (preserves_bind R); [ |intros r; apply (preserves_ret R)].
  apply footprint_download_attempts. by apply Hurl.
Qed.

Lemma footprint_download_cell row_dir max_retries filenames col url :
  Forall allowed (cell_urls url) →
  preserves R (download_cell server row_dir max_retries filenames col url).
Proof.
  intros Hurl. destruct url as [| |url|urls|]; simpl;
    try (apply (preserves_raise R)); try (apply (preserves_ret R)).
  - apply (preserves_bind R); [ |].
    { apply footprint_download_attempts. simpl in Hurl.
      by rewrite Forall_singleton in Hurl. }
    intros r. apply (preserves_bind R); [ |intros _; apply (preserves_ret R)].
    destruct (truthy r);
      [apply (preserves_ret R) | apply footprint_modify; auto].
  - apply (preserves_bind R); [ |].
    { assert (Hitems : ∀ u s, u ∈ urls → u = VStr s → allowed s).
      { intros u s Hu ->.
        apply (proj1 (Forall_forall _ _) Hurl). simpl.
        apply list_elem_of_omap. by exists (VStr s). }
      clear Hurl. induction urls as [|u rest IH]; simpl.
      - apply (preserves_ret R).
      - apply (preserves_bind R); [ |].
        { apply footprint_download_list_item. intros s.
          apply Hitems, list_elem_of_here. }
        intros y.
        apply (preserves_bind R); [ |intros ys; apply (preserves_ret R)].
        apply IH. intros u' s Hu'. by apply Hitems, list_elem_of_further. }
    intros paths.
    apply (preserves_bind R); [ |intros _; apply (preserves_ret R)].
    destruct (existsb is_none paths);
      [apply footprint_modify; auto | apply (preserves_ret R)].
Qed.

Lemma footprint_download_cells row_dir max_retries cells :
  Forall allowed (concat (map cell_urls cells.*2)) →
  ∀ filenames,
    preserves R (download_cells server row_dir max_retries filenames cells).
Proof.
  induction cells as [|[c u] rest IH]; intros Hurls filenames; simpl.
  - apply (preserves_ret R).
  - simpl in Hurls. apply Forall_app in Hurls as [Hu Hrest].
    apply (preserves_bind R); [by apply footprint_download_cell|].
    intros f. by apply IH.
Qed.

Lemma footprint_download_file_row row base_dir max_retries :
  Forall allowed (row_urls row) →
  preserves R (download_file_row server row base_dir max_retries).
Proof.
  intros Hurls. unfold download_file_row. apply (preserves_bind R); [ |].
  - unfold create_directory. apply (preserves_bind R); [apply (preserves_gets R)|].
    intros fs. destruct (decide _); [apply (preserves_ret R)|].
    apply footprint_modify. auto.
  - intros _. by apply footprint_download_cells.
Qed.

End Footprint.

#[local] Instance only_requests_preorder (allowed : string → Prop) :
  PreOrder (only_requests allowed).
Proof.
  split.
  - intros w. unfold only_requests. split; [|done].
    exists []. by rewrite app_nil_r.
  - intros w1 w2 w3 ((n1 & Hr1 & Ha1) & He1 & Hw1 & Ht1 & Hi1 & Hp1 & Hb1)
      ((n2 & Hr2 & Ha2) & He2 & Hw2 & Ht2 & Hi2 & Hp2 & Hb2).
    unfold only_requests. split.
    { exists (n1 ++ n2). rewrite Hr2, Hr1, <- app_assoc. split; [done|].
      by apply Forall_app. }
    split; [by etrans|]. split; [by etrans|]. by rewrite Ht2, Hi2, Hp2, Hb2.
Qed.

Lemma only_requests_download_file_row
  (server : string → nat → response) (allowed : string → Prop)
  (row : series) (base_dir : string) (max_retries : nat) :
  Forall allowed (row_urls row) →
  preserves (only_requests allowed)
    (download_file_row server row base_dir max_retries).
Proof.
  intros Hurls.
  apply (footprint_download_file_row server (only_requests allowed) allowed);
    try done; unfold only_requests.
  - intros url w Hurl. split; [|done]. exists [url]. split; [done|].
    by apply Forall_singleton.
  - intros path w. split; [exists []; by rewrite app_nil_r|].
    split; [|done]. cbn. set_solver.
  - intros msg w. split; [exists []; by rewrite app_nil_r|].
    split; [done|]. split; [|done]. by apply prefix_app_r.
Qed.

(** X2. Whether it returns or raises, the acquisition of an entry
    requests only URLs of the entry, takes no existing path away, keeps
    the warnings logged before, and leaves the persisted tables, the
    terminal and the prober alone. An entry whose slots are all Absent
    causes no request at all. *)
Theorem acquisition_requests_only_row_urls
  (server : string → nat → response) (row : series) (base_dir : string)
  (max_retries : nat) (w w' : world)
  (r : outcome (gmap (string * string) pyval)) :
  download_file_row server row base_dir max_retries w = (r, w') →
  only_requests (λ url, url ∈ row_urls row) w w'
  ∧ (row_urls row = [] → requests w' = requests w).
Proof.
  intros Hrun.
  pose proof (only_requests_download_file_row server
                (λ url, url ∈ row_urls row) row base_dir max_retries
                (proj2 (Forall_forall _ _) (λ x H, H)) _ _ _ Hrun) as Hfoot.
  split; [done|]. intros Hnone.
  destruct Hfoot as ((new & -> & Hnew) & _). rewrite Hnone in Hnew.
  destruct new as [|u new]; [by rewrite app_nil_r|].
  apply Forall_cons in Hnew as [Hu _]. by apply elem_of_nil in Hu.
Qed.

Lemma acquisition_requests_only_row_urls_witness :
  only_requests (λ url, url ∈ row_urls sample_row) fresh_world
    (download_file_row flaky_server sample_row "/data" 3 fresh_world).2.
Proof.
  apply (acquisition_requests_only_row_urls flaky_server sample_row "/data" 3
           fresh_world _
           (download_file_row flaky_server sample_row "/data" 3 fresh_world).1).
  by destruct (download_file_row flaky_server sample_row "/data" 3
                 fresh_world).
Defined.

(** ** The budget of [download_file] *)

Lemma download_attempts_bound
  (server : string → nat → response) url save_path max_retries attempts :
  ∀ w r w',
    download_attempts server url save_path max_retries attempts w = (r, w') →
    ∃ n, n ≤ length attempts
         ∧ requests w' = requests w ++ replicate n url
         ∧ (attempts ≠ [] → 0 < n)
         ∧ (∀ path, r = Return (Some path) →
                    path = save_path ∧ save_path ∈ existing w').
Proof.
  induction attempts as [|attempt rest IH]; intros w r w' Hrun.
  - injection Hrun as <- <-. exists 0. rewrite app_nil_r.
    split; [done|]. split; [done|]. split; done.
  - destruct (server url (length (requests w))) as [|opened e|opened e] eqn:Hs.
    + rewrite (download_attempts_fetched _ _ _ _ _ _ _ Hs) in Hrun.
      injection Hrun as <- <-. exists 1. cbn.
      split; [lia|]. split; [done|]. split; [lia|].
      intros path [= <-]. split; [done|]. set_solver.
    + rewrite (download_attempts_failed _ _ _ _ _ _ _ _ _ Hs) in Hrun.
      cbv zeta in Hrun. destruct (attempt =? max_retries - 1).
      * injection Hrun as <- <-. exists 1.
        destruct opened; cbn;
          (split; [lia|]); (split; [done|]); (split; [lia|]); done.
      * apply IH in Hrun as (n & Hn & Hreq & _ & Hpath).
        exists (S n).
        destruct opened; cbn in Hreq; rewrite <- app_assoc in Hreq;
          cbn; (split; [lia|]); (split; [done|]); (split; [lia|]); done.
    + simpl in Hrun. unfold bind, gets, modify in Hrun. simpl in Hrun.
      rewrite Hs in Hrun. exists 1.
      destruct opened; injection Hrun as <- <-; cbn;
        (split; [lia|]); (split; [done|]); (split; [lia|]); done.
Qed.

(** X3. Whatever the server does, [download_file] asks it at most
    [max_retries] times and only for its URL, at least once when the
    budget is not zero; a path it returns is the path it was given,
    and that path then exists. *)
Theorem download_file_stays_within_budget
  (server : string → nat → response) (url save_path : string)
  (max_retries : nat) (w w' : world) (r : outcome (option string)) :
  download_file server url save_path max_retries w = (r, w') →
  ∃ n, n ≤ max_retries
       ∧ requests w' = requests w ++ replicate n url
       ∧ (0 < max_retries → 0 < n)
       ∧ (∀ path, r = Return (Some path) →
                  path = save_path ∧ save_path ∈ existing w').
Proof.
  intros Hrun. unfold download_file in Hrun.
  apply download_attempts_bound in Hrun as (n & Hn & Hreq & Hpos & Hpath).
  rewrite length_seq in Hn. exists n.
  split; [done|]. split; [done|]. split; [|done].
  intros Hbudget. apply Hpos. destruct max_retries; [lia|done].
Qed.

Lemma download_file_stays_within_budget_witness :
  ∃ n, n ≤ 3
       ∧ requests (download_file recovering_server "https://host/a.mp4"
                     "/data/a.mp4" 3 fresh_world).2
         = [] ++ replicate n "https://host/a.mp4"%string.
Proof.
  destruct (download_file_stays_within_budget recovering_server
              "https://host/a.mp4" "/data/a.mp4" 3 fresh_world
              (download_file recovering_server "https://host/a.mp4"
                 "/data/a.mp4" 3 fresh_world).2
              (download_file recovering_server "https://host/a.mp4"
                 "/data/a.mp4" 3 fresh_world).1)
    as (n & Hn & Hreq & _).
  - by destruct (download_file recovering_server "https://host/a.mp4"
                   "/data/a.mp4" 3 fresh_world).
  - exists n. split; [exact Hn | exact Hreq].
Defined.

(** ** The ledger entry of a row *)

Lemma only_requests_request (allowed : string → Prop) url w :
  allowed url → only_requests allowed w (set_requests (λ l, l ++ [url]) w).
Proof.
  intros Hurl. split; [|done]. exists [url]. split; [done|].
  by apply Forall_singleton.
Qed.

Lemma only_requests_stored (allowed : string → Prop) path w :
  only_requests allowed w (set_existing (λ fs, {[path]} ∪ fs) w).
Proof.
  split; [exists []; by rewrite app_nil_r|]. split; [|done]. cbn. set_solver.
Qed.

Lemma only_requests_warning (allowed : string → Prop) msg w :
  only_requests allowed w (set_warnings (λ l, l ++ [msg]) w).
Proof.
  split; [exists []; by rewrite app_nil_r|]. split; [done|].
  split; [|done]. by apply prefix_app_r.
Qed.

Section LedgerFacts.

Variable server : string → nat → response.

Lemma download_cells_dom row_dir max_retries cells :
  ∀ filenames w f' w',
    download_cells server row_dir max_retries filenames cells w
    = (Return f', w') →
    dom f' = dom filenames
             ∪ list_to_set (map (λ col, ("Paths"%string, col)) cells.*1).
Proof.
  induction cells as [|[c u] rest IH]; intros filenames w f' w' Hrun;
    simpl in Hrun.
  - injection Hrun as <- _. cbn. by rewrite (right_id_L ∅ (∪)).
  - apply bind_returns in Hrun as (f1 & w1 & Hcell & Hrest).
    apply download_cell_returns in Hcell as (v & -> & _).
    rewrite (IH _ _ _ _ Hrest), dom_insert_L. cbn.
    rewrite (assoc_L (∪)). f_equal. apply (comm_L (∪)).
Qed.

Lemma existing_kept_list_items row_dir max_retries urls w r w' :
  for_each (download_list_item server row_dir max_retries) urls w = (r, w') →
  existing w ⊆ existing w'.
Proof.
  intros Hrun.
  assert (Hfoot : preserves (only_requests (λ _, True))
                    (for_each (download_list_item server row_dir max_retries)
                       urls)).
  { apply (preserves_for_each (only_requests (λ _, True))). intros u.
    apply (footprint_download_list_item server (only_requests (λ _, True))
             (λ _, True)); try done.
    - intros; by apply only_requests_request.
    - intros; apply only_requests_stored.
    - intros; apply only_requests_warning. }
  by destruct (Hfoot _ _ _ Hrun) as (_ & Hfs & _).
Qed.

Lemma download_file_stored url save_path max_retries w path w' :
  download_file server url save_path max_retries w = (Return (Some path), w')
  → path = save_path ∧ save_path ∈ existing w'.
Proof.
  intros Hrun. unfold download_file in Hrun.
  apply download_attempts_bound in Hrun as (_ & _ & _ & _ & Hpath).
  by apply Hpath.
Qed.

Lemma download_list_item_value row_dir max_retries url w v w' :
  download_list_item server row_dir max_retries url w = (Return v, w') →
  names_file url v
  ∧ ∀ filename, v = VStr filename →
                path_join row_dir filename ∈ existing w'.
Proof.
  destruct url as [| |u| |]; try discriminate. simpl. intros Hrun.
  apply bind_returns in Hrun as (r & w1 & Hfile & Hret).
  injection Hret as <- <-. unfold names_file, truthy.
  destruct r as [path|]; [|split; [by left|done]].
  apply download_file_stored in Hfile as [-> Hin].
  destruct (truthy_str _); [|split; [by left|done]].
  split; [right; by exists u|]. by intros filename [= <-].
Qed.

Lemma download_list_values row_dir max_retries urls :
  ∀ w paths w',
    for_each (download_list_item server row_dir max_retries) urls w
    = (Return paths, w') →
    Forall2 names_file urls paths
    ∧ ∀ filename, VStr filename ∈ paths →
                  path_join row_dir filename ∈ existing w'.
Proof.
  induction urls as [|u rest IH]; intros w paths w' Hrun; simpl in Hrun.
  - injection Hrun as <- _. split; [constructor|].
    intros filename Hin. by apply elem_of_nil in Hin.
  - apply bind_returns in Hrun as (v & w1 & Hitem & Hrun).
    apply bind_returns in Hrun as (vs & w2 & Hrest & Hret).
    injection Hret as <- <-.
    pose proof (existing_kept_list_items _ _ _ _ _ _ Hrest) as Hkept.
    apply download_list_item_value in Hitem as [Hname Hstored].
    apply IH in Hrest as [Hnames Hfiles]. split; [by constructor|].
    intros filename Hin. apply elem_of_cons in Hin as [<-|Hin].
    + apply Hkept. by apply Hstored.
    + by apply Hfiles.
Qed.

Lemma download_cell_value row_dir max_retries filenames col url w f' w' :
  download_cell server row_dir max_retries filenames col url w
  = (Return f', w') →
  ∃ v, f' = <[("Paths"%string, col) := v]> filenames
       ∧ mirrors url v ∧ files_stored row_dir v w'.
Proof.
  destruct url as [| |url|urls|]; try discriminate; simpl; intros Hrun.
  - injection Hrun as <- _. by exists VNone.
  - apply bind_returns in Hrun as (r & w1 & Hfile & Hrun).
    apply bind_returns in Hrun as (? & w2 & Hwarn & Hret).
    injection Hret as <- <-. eexists. split; [done|].
    unfold names_file, truthy in *.
    destruct r as [path|]; [|split; [by left|done]].
    apply download_file_stored in Hfile as [-> Hin].
    destruct (truthy_str _); [|split; [by left|done]].
    injection Hwarn as _ <-. split; [right; by exists url|done].
  - apply bind_returns in Hrun as (paths & w1 & Hpaths & Hrun).
    apply bind_returns in Hrun as (? & w2 & Hwarn & Hret).
    injection Hret as <- <-. eexists. split; [done|].
    apply download_list_values in Hpaths as [Hnames Hfiles].
    split; [done|]. simpl.
    destruct (existsb is_none paths); by injection Hwarn as _ <-.
Qed.

Lemma files_stored_kept row_dir v w w' :
  existing w ⊆ existing w' → files_stored row_dir v w →
  files_stored row_dir v w'.
Proof.
  intros Hkept. destruct v; simpl; try done.
  - apply Hkept.
  - intros Hfiles filename Hin. by apply Hkept, Hfiles.
Qed.

Lemma download_cells_values row_dir max_retries cells filenames w f' w'
  col url :
  download_cells server row_dir max_retries filenames cells w
  = (Return f', w') →
  NoDup cells.*1 →
  (col, url) ∈ cells →
  ∃ v, f' !! ("Paths"%string, col) = Some v
       ∧ mirrors url v ∧ files_stored row_dir v w'.
Proof.
  intros Hrun Hnodup Hin.
  destruct (download_cells_at server _ _ _ _ _ _ _ _ _ Hrun Hnodup Hin)
    as (f1 & w1 & f2 & w2 & Hcell & Hkey & _).
  apply list_elem_of_split in Hin as (before & after & ->).
  rewrite download_cells_app in Hrun.
  apply bind_returns in Hrun as (fa & wa & _ & Hrun). simpl in Hrun.
  apply bind_returns in Hrun as (fb & wb & Hcell' & Hafter).
  apply download_cell_value in Hcell' as (v & -> & Hmirror & Hstored).
  rewrite fmap_app, fmap_cons in Hnodup.
  apply NoDup_app in Hnodup as (_ & _ & Hnodup).
  apply NoDup_cons in Hnodup as [Hcol Hnodup].
  exists v. split.
  - rewrite (proj1 (download_cells_returns server _ _ _ _ _ _ _ Hafter Hnodup)
               col Hcol).
    apply lookup_insert_eq.
  - split; [done|]. eapply files_stored_kept; [|done].
    assert (Hfoot : preserves (only_requests (λ _, True))
                      (download_cells server row_dir max_retries
                         (<[("Paths"%string, col):=v]> fa) after)).
    { apply (footprint_download_cells server (only_requests (λ _, True))
               (λ _, True)).
      - intros; by apply only_requests_request.
      - intros; apply only_requests_stored.
      - intros; apply only_requests_warning.
      - by apply Forall_forall. }
    by destruct (Hfoot _ _ _ Hafter) as (_ & Hfs & _).
Qed.

End LedgerFacts.

(** X4. The ledger entry that [download_file_row] returns has exactly
    one key for the base directory and one per column of the row; when
    no column is labelled [base_dir], the base directory it records is
    the directory of the row, the output root joined with the label of
    the row. *)
Theorem ledger_has_one_key_per_column
  (server : string → nat → response) (row : series) (base_dir : string)
  (max_retries : nat) (w w' : world) (ledger : gmap (string * string) pyval) :
  download_file_row server row base_dir max_retries w = (Return ledger, w') →
  dom ledger = ledger_keys (items row).*1
  ∧ ("base_dir"%string ∉ (items row).*1 →
     ledger !! ("Paths", "base_dir")%string
     = Some (VStr (path_join base_dir (name row)))).
Proof.
  intros Hrun. unfold download_file_row in Hrun.
  apply bind_returns in Hrun as (? & w1 & _ & Hcells). split.
  - rewrite (download_cells_dom server _ _ _ _ _ _ _ Hcells).
    unfold ledger_keys. by rewrite dom_singleton_L.
  - intros Hfresh.
    assert (Hframe : ∀ cells filenames wa f wb,
               download_cells server (path_join base_dir (name row))
                 max_retries filenames cells wa = (Return f, wb) →
               "base_dir"%string ∉ cells.*1 →
               f !! ("Paths", "base_dir")%string
               = filenames !! ("Paths", "base_dir")%string).
    { induction cells as [|[c u] rest IH]; intros filenames wa f wb Hc Hnot;
        simpl in Hc.
      - by injection Hc as <- _.
      - apply bind_returns in Hc as (f1 & wc & Hcell & Hrest).
        apply download_cell_returns in Hcell as (v & -> & _).
        apply not_elem_of_cons in Hnot as [Hne Hnot].
        rewrite (IH _ _ _ _ Hrest Hnot). apply lookup_insert_ne.
        intros [= Heq]. by apply Hne. }
    rewrite (Hframe _ _ _ _ _ Hcells Hfresh). apply lookup_singleton_eq.
Qed.

Lemma ledger_has_one_key_per_column_witness :
  ∃ ledger,
    (download_file_row flaky_server sample_row "/data" 3 fresh_world).1
    = Return ledger
    ∧ dom ledger = ledger_keys ["iLex"; "Video A"; "Video B"; "SRT"]%string.
Proof.
  destruct (download_file_row flaky_server sample_row "/data" 3 fresh_world)
    as [[ledger|e] w'] eqn:Hrun; [|discriminate Hrun].
  exists ledger. split; [reflexivity|].
  exact (proj1 (ledger_has_one_key_per_column flaky_server sample_row "/data"
                  3 fresh_world w' ledger Hrun)).
Defined.

(** X5. In the ledger entry that [download_file_row] returns, the
    value of a Single slot is null or the base name of its URL, and the
    value of a Multiple slot is the list, at the same places, of null
    or the base name of each URL. *)
Theorem ledger_values_are_base_names
  (server : string → nat → response) (row : series) (base_dir : string)
  (max_retries : nat) (w w' : world) (ledger : gmap (string * string) pyval)
  (col : string) (slot : pyval) :
  download_file_row server row base_dir max_retries w = (Return ledger, w') →
  NoDup (items row).*1 →
  (col, slot) ∈ items row →
  ∃ value, ledger !! ("Paths"%string, col) = Some value ∧ mirrors slot value.
Proof.
  intros Hrun Hnodup Hin. unfold download_file_row in Hrun.
  apply bind_returns in Hrun as (? & w1 & _ & Hcells).
  destruct (download_cells_values server _ _ _ _ _ _ _ _ _ Hcells Hnodup Hin)
    as (v & Hv & Hmirror & _).
  by exists v.
Qed.

(** X6. Every file name in the ledger entry that [download_file_row]
    returns, in a Single slot or in the list of a Multiple one, is the
    name of a path that exists in the directory of the row: the ledger
    records no file that was not stored. *)
Theorem ledger_files_are_stored
  (server : string → nat → response) (row : series) (base_dir : string)
  (max_retries : nat) (w w' : world) (ledger : gmap (string * string) pyval)
  (col : string) (slot : pyval) :
  download_file_row server row base_dir max_retries w = (Return ledger, w') →
  NoDup (items row).*1 →
  (col, slot) ∈ items row →
  ∃ value, ledger !! ("Paths"%string, col) = Some value
           ∧ files_stored (path_join base_dir (name row)) value w'.
Proof.
  intros Hrun Hnodup Hin. unfold download_file_row in Hrun.
  apply bind_returns in Hrun as (? & w1 & _ & Hcells).
  destruct (download_cells_values server _ _ _ _ _ _ _ _ _ Hcells Hnodup Hin)
    as (v & Hv & _ & Hstored).
  by exists v.
Qed.

Lemma ledger_values_are_base_names_witness :
  ∃ ledger,
    (download_file_row flaky_server sample_row "/data" 3 fresh_world).1
    = Return ledger
    ∧ ∃ value, ledger !! ("Paths", "Video A")%string = Some value
               ∧ mirrors (VStr "https://host/video/a.mp4") value.
Proof.
  destruct (download_file_row flaky_server sample_row "/data" 3 fresh_world)
    as [[ledger|e] w'] eqn:Hrun; [|discriminate Hrun].
  exists ledger. split; [reflexivity|].
  apply (ledger_values_are_base_names flaky_server sample_row "/data" 3
           fresh_world w' ledger _ _ Hrun).
  - apply (bool_decide_unpack _). by vm_compute.
  - apply list_elem_of_further, list_elem_of_here.
Defined.

Lemma ledger_files_are_stored_witness :
  ∃ ledger,
    (download_file_row flaky_server sample_row "/data" 3 fresh_world).1
    = Return ledger
    ∧ ∃ value,
        ledger !! ("Paths", "SRT")%string = Some value
        ∧ files_stored (path_join "/data" "X__0") value
            (download_file_row flaky_server sample_row "/data" 3
               fresh_world).2.
Proof.
  destruct (download_file_row flaky_server sample_row "/data" 3 fresh_world)
    as [[ledger|e] w'] eqn:Hrun; [|discriminate Hrun].
  exists ledger. split; [reflexivity|].
  apply (ledger_files_are_stored flaky_server sample_row "/data" 3
           fresh_world w' ledger "SRT"
           (VList [VStr "https://host/srt/a.srt";
                   VStr "https://host/video/b.mp4"]) Hrun).
  - apply (bool_decide_unpack _). by vm_compute.
  - do 3 apply list_elem_of_further. apply list_elem_of_here.
Defined.

(** ** A URL that is fetched *)

Lemma path_join_nonempty a b : b ≠ ""%string → truthy_str (path_join a b) = true.
Proof.
  intros Hb. unfold truthy_str. apply negb_true_iff, String.eqb_neq.
  intros Hempty. apply (f_equal String.length) in Hempty. unfold path_join in Hempty.
  assert (0 < String.length b) by (destruct b; [done|cbn; lia]).
  destruct (starts_with_slash b); [cbn in Hempty; lia|].
  destruct (_ || _)%bool; rewrite ?string_app_length in Hempty; cbn in Hempty; lia.
Qed.

Lemma download_cells_around (server : string → nat → response)
  row_dir max_retries cells col cell filenames w f' w' :
  download_cells server row_dir max_retries filenames cells w
  = (Return f', w') →
  NoDup cells.*1 →
  (col, cell) ∈ cells →
  ∃ f1 w1 f2 w2,
    download_cell server row_dir max_retries f1 col cell w1 = (Return f2, w2)
    ∧ f' !! ("Paths"%string, col) = f2 !! ("Paths"%string, col)
    ∧ only_requests (λ _, True) w2 w'.
Proof.
  intros Hrun Hnodup Hin.
  apply list_elem_of_split in Hin as (before & after & ->).
  rewrite download_cells_app in Hrun.
  apply bind_returns in Hrun as (f1 & w1 & _ & Hrun). simpl in Hrun.
  apply bind_returns in Hrun as (f2 & w2 & Hcell & Hafter).
  exists f1, w1, f2, w2. split; [done|].
  rewrite fmap_app, fmap_cons in Hnodup.
  apply NoDup_app in Hnodup as (_ & _ & Hnodup).
  apply NoDup_cons in Hnodup as [Hcol Hnodup]. split.
  - by apply (download_cells_returns _ _ _ _ _ _ _ _ Hafter Hnodup).
  - assert (Hfoot : preserves (only_requests (λ _, True))
                      (download_cells server row_dir max_retries f2 after)).
    { apply (footprint_download_cells server (only_requests (λ _, True))
               (λ _, True)).
      - intros; by apply only_requests_request.
      - intros; apply only_requests_stored.
      - intros; apply only_requests_warning.
      - by apply Forall_forall. }
    exact (Hfoot _ _ _ Hafter).
Qed.

(** X7. With a budget of at least one attempt, a Single slot whose URL
    the server always serves, and whose URL does not end in a slash, is
    recorded under the base name of the URL once [download_file_row]
    returns; the file is then stored in the directory of the row and the
    URL has been requested. *)
Theorem served_url_is_recorded
  (server : string → nat → response) (row : series) (base_dir : string)
  (max_retries : nat) (w w' : world) (ledger : gmap (string * string) pyval)
  (col url : string) :
  0 < max_retries →
  (∀ n, server url n = Fetched) →
  basename url ≠ ""%string →
  NoDup (items row).*1 →
  (col, VStr url) ∈ items row →
  download_file_row server row base_dir max_retries w = (Return ledger, w') →
  ledger !! ("Paths"%string, col) = Some (VStr (basename url))
  ∧ path_join (path_join base_dir (name row)) (basename url) ∈ existing w'
  ∧ url ∈ requests w'.
Proof.
  intros Hbudget Hserved Hname Hnodup Hin Hrun. unfold download_file_row in Hrun.
  apply bind_returns in Hrun as (? & w0 & _ & Hcells).
  destruct (download_cells_around _ _ _ _ _ _ _ _ _ _ Hcells Hnodup Hin)
    as (f1 & w1 & f2 & w2 & Hcell & Hkey & (new & Hreq & _) & Hkept & _).
  cbn [download_cell] in Hcell. unfold download_file in Hcell.
  destruct max_retries as [|budget]; [lia|]. cbn [seq] in Hcell.
  apply bind_returns in Hcell as (r & w3 & Hfile & Hcell).
  rewrite (download_attempts_fetched server _ _ _ _ _ _ (Hserved _)) in Hfile.
  injection Hfile as <- <-. cbn [truthy] in Hcell.
  rewrite (path_join_nonempty _ _ Hname) in Hcell.
  injection Hcell as <- <-.
  split; [by rewrite Hkey, lookup_insert_eq|]. split.
  - apply Hkept. cbn. set_solver.
  - rewrite Hreq. cbn. set_solver.
Qed.

Lemma served_url_is_recorded_witness :
  ∃ ledger,
    (download_file_row flaky_server sample_row "/data" 3 fresh_world).1
    = Return ledger
    ∧ ledger !! ("Paths", "Video A")%string = Some (VStr "a.mp4").
Proof.
  destruct (download_file_row flaky_server sample_row "/data" 3 fresh_world)
    as [[ledger|e] w'] eqn:Hrun; [|discriminate Hrun].
  exists ledger. split; [reflexivity|].
  refine (proj1 (served_url_is_recorded flaky_server sample_row "/data" 3
                   fresh_world w' ledger "Video A" "https://host/video/a.mp4"
                   _ _ _ _ _ Hrun)).
  - lia.
  - reflexivity.
  - discriminate.
  - apply (bool_decide_unpack _). by vm_compute.
  - apply list_elem_of_further, list_elem_of_here.
Defined.

(** ** Identifiers are unique *)

Lemma pretty_N_go_no_underscore (x : N) :
  ∀ s, contains_char "_" s = false →
       contains_char "_" (pretty_N_go x s) = false.
Proof.
  induction (N.lt_wf_0 x) as [x _ IH]; intros s Hs.
  destruct (decide (0 < x)%N) as [Hpos|Hzero].
  - rewrite pretty_N_go_step by done. apply IH; [by apply N.div_lt|].
    unfold contains_char in *. cbn [String.list_ascii_of_string existsb].
    rewrite Hs, orb_false_r. unfold pretty_N_char. by repeat case_match.
  - by replace x with 0%N by lia.
Qed.

Lemma str_of_nat_no_underscore (n : nat) :
  contains_char "_" (str_of_nat n) = false.
Proof.
  unfold str_of_nat, pretty, pretty_nat, pretty, pretty_N.
  destruct (decide _); [done|]. by apply pretty_N_go_no_underscore.
Qed.

(** A text that ends in an underscore and a numeral splits in one way
    only: the numeral is what follows the last underscore. *)
Lemma underscore_split (s1 : string) :
  ∀ s2 d1 d2,
    contains_char "_" d1 = false → contains_char "_" d2 = false →
    s1 +:+ String "_" d1 = s2 +:+ String "_" d2 → s1 = s2 ∧ d1 = d2.
Proof.
  assert (Hin : ∀ s d, contains_char "_" (s +:+ String "_" d) = true).
  { intros s d. unfold contains_char.
    induction s as [|c s IH]; [done|].
    change (String c s +:+ String "_" d) with (String c (s +:+ String "_" d)).
    cbn [String.list_ascii_of_string existsb]. rewrite IH. apply orb_true_r. }
  induction s1 as [|c s1 IH]; intros [|c2 s2] d1 d2 H1 H2 Heq.
  - by injection Heq as ->.
  - change (String "_" d1 = String c2 (s2 +:+ String "_" d2)) in Heq.
    injection Heq as _ ->. by rewrite Hin in H1.
  - change (String c (s1 +:+ String "_" d1) = String "_" d2) in Heq.
    injection Heq as _ <-. by rewrite Hin in H2.
  - change (String c (s1 +:+ String "_" d1)
            = String c2 (s2 +:+ String "_" d2)) in Heq.
    injection Heq as -> Heq. destruct (IH _ _ _ H1 H2 Heq) as [-> ->]. done.
Qed.

Lemma identifier_split (t1 t2 : string) (n1 n2 : nat) :
  t1 +:+ "__" +:+ str_of_nat n1 = t2 +:+ "__" +:+ str_of_nat n2 →
  t1 = t2 ∧ n1 = n2.
Proof.
  intros Heq.
  assert (Hshift : ∀ t d, t +:+ "__" +:+ d = (t +:+ "_") +:+ String "_" d).
  { intros t d. by rewrite string_app_assoc. }
  rewrite !Hshift in Heq.
  apply underscore_split in Heq as [Ht Hn];
    try apply str_of_nat_no_underscore.
  split.
  - by apply (underscore_split t1 t2 "" "") in Ht as [-> _].
  - by apply (inj pretty).
Qed.

(** X8. The identifiers that [download_data] assigns are pairwise
    distinct, whatever the titles are: two rows never share an
    identifier, also when a title itself ends in two underscores and a
    number. *)
Theorem identifiers_are_unique (titles : list string) :
  NoDup (assign_identifiers titles).
Proof.
  assert (Hless : ∀ i j ti tj,
             i < j → titles !! i = Some ti → titles !! j = Some tj →
             ti +:+ "__" +:+ str_of_nat (occurrences ti (take i titles))
             ≠ tj +:+ "__" +:+ str_of_nat (occurrences tj (take j titles))).
  { intros i j ti tj Hij Hi Hj Heq.
    apply identifier_split in Heq as [<- Hcount].
    pose proof (occurrences_take_le ti (take j titles) i) as Hle.
    rewrite take_take, Nat.min_l in Hle by lia.
    rewrite lookup_take_lt in Hle by done. specialize (Hle Hi). lia. }
  apply NoDup_alt. intros i j id Hi Hj.
  destruct (titles !! i) as [ti|] eqn:Hti.
  2: { apply lookup_ge_None in Hti. apply lookup_lt_Some in Hi.
       rewrite assign_identifiers_length in Hi. lia. }
  destruct (titles !! j) as [tj|] eqn:Htj.
  2: { apply lookup_ge_None in Htj. apply lookup_lt_Some in Hj.
       rewrite assign_identifiers_length in Hj. lia. }
  rewrite (assign_identifiers_lookup _ _ _ Hti) in Hi.
  rewrite (assign_identifiers_lookup _ _ _ Htj) in Hj.
  injection Hi as <-. injection Hj as Hj.
  destruct (lt_eq_lt_dec i j) as [[Hlt| ->]|Hgt]; [|done|].
  - by destruct (Hless i j ti tj Hlt Hti Htj).
  - by destruct (Hless j i tj ti Hgt Htj Hti).
Qed.

(** ** The extraction of the metadata *)

#[local] Instance only_probes_preorder : PreOrder only_probes.
Proof.
  split.
  - intros w. by unfold only_probes.
  - intros w1 w2 w3 (Hb1 & Hp1 & He1 & Ht1 & Hr1 & Hw1 & Ha1)
      (Hb2 & Hp2 & He2 & Ht2 & Hr2 & Hw2 & Ha2).
    unfold only_probes. split; [by etrans|]. split; [by etrans|].
    by rewrite He2, Ht2, Hr2, Hw2, Ha2.
Qed.

Section ExtractionFacts.

Variable prober : string → probe_result.

Lemma only_probes_probe path w :
  only_probes w (set_probes (λ l, l ++ [path]) w).
Proof. split; [by apply prefix_app_r|done]. Qed.

Lemma only_probes_print msg : preserves only_probes (print msg).
Proof.
  intros w r w' [= <- <-]. split; [done|]. split; [|done].
  by apply prefix_app_r.
Qed.

Lemma only_probes_get_video_metadata path :
  preserves only_probes (get_video_metadata prober path).
Proof.
  intros w r w' Hrun. rewrite get_video_metadata_spec in Hrun.
  injection Hrun as _ <-. unfold after_probe.
  destruct (probe_verdict _); try apply only_probes_probe.
  etrans; [apply only_probes_probe|].
  exact (only_probes_print _ _ (Return tt) _ eq_refl).
Qed.

Lemma only_probes_extract_role row base_dir md role :
  preserves only_probes (extract_role prober row base_dir md role).
Proof.
  unfold extract_role. apply (preserves_bind only_probes).
  { unfold getitem. destruct (row !! role);
      [apply (preserves_ret only_probes)|apply (preserves_raise only_probes)]. }
  intros filename. apply (preserves_bind only_probes).
  - assert (Hprobe : preserves only_probes
                       (let* path := os_path_join base_dir filename in
                        get_video_metadata prober path)).
    { apply (preserves_bind only_probes);
        [|intros; apply only_probes_get_video_metadata].
      destruct base_dir, filename;
        try apply (preserves_raise only_probes);
        apply (preserves_ret only_probes). }
    destruct filename; try exact Hprobe. apply (preserves_ret only_probes).
  - intros [[first second]|]; apply (preserves_ret only_probes).
Qed.

Lemma only_probes_extract_metadata row :
  preserves only_probes (extract_metadata prober row).
Proof.
  unfold extract_metadata. apply (preserves_bind only_probes).
  { unfold getitem. destruct (row !! "base_dir"%string);
      [apply (preserves_ret only_probes)|apply (preserves_raise only_probes)]. }
  intros base_dir. generalize (∅ : gmap (string * string) meta_value).
  induction video_types as [|role rest IH]; intros md; simpl.
  - apply (preserves_ret only_probes).
  - apply (preserves_bind only_probes);
      [apply only_probes_extract_role|intros; apply IH].
Qed.

End ExtractionFacts.

(** X9. Whether it returns or raises, the extraction of the metadata
    of the rows of a ledger only probes files and prints: what was
    probed and printed before stays, and the file system, the persisted
    tables, the requests, the warnings and the answers are as before. *)
Theorem metadata_extraction_reads_only
  (prober : string → probe_result) (rows : list (gmap string pyval))
  (w w' : world) (r : outcome (list (gmap (string * string) meta_value))) :
  extract_all prober rows w = (r, w') → only_probes w w'.
Proof.
  intros Hrun. unfold extract_all in Hrun.
  refine (preserves_for_each only_probes _ rows _ _ _ _ Hrun).
  intros row. apply only_probes_extract_metadata.
Qed.

Lemma metadata_extraction_reads_only_witness :
  only_probes fresh_world
    (extract_all sample_prober [sample_ledger_row; sound_only_row]
       fresh_world).2.
Proof.
  apply (metadata_extraction_reads_only sample_prober
           [sample_ledger_row; sound_only_row] fresh_world _
           (extract_all sample_prober [sample_ledger_row; sound_only_row]
              fresh_world).1).
  by destruct (extract_all sample_prober [sample_ledger_row; sound_only_row]
                 fresh_world).
Defined.

(** X10. Nothing catches what the lookup of a cell or the joining of
    its path raises. When a row of the ledger lacks the column of a
    video role, or holds there something that is neither NaN nor text
    (None, a list, a number), the extraction raises a [KeyError] of
    the role, or a [TypeError], after the roles before it were gone
    through; this ends the extraction of all rows, and the rows after
    it are not looked at. *)
Theorem bad_cell_ends_extraction
  (prober : string → probe_result)
  (before : list (gmap string pyval)) (row : gmap string pyval)
  (base role : string) (earlier later : list string) (w : world) :
  Forall (λ r, ledger_row r = true) before →
  row !! "base_dir"%string = Some (VStr base) →
  video_types = earlier ++ role :: later →
  Forall (role_cell_ok row) earlier →
  bad_cell (row !! role) = true →
  ∃ e w',
    cell_error role (row !! role) e
    ∧ ∀ after,
        extract_all prober (before ++ row :: after) w = (Raise e, w').
Proof.
  intros Hbefore Hbase Hroles Hearlier Hbad.
  destruct (extract_all_total prober before w Hbefore)
    as (mds & w1 & Hrun & _).
  assert (Hrole : ∃ e, cell_error role (row !! role) e
                       ∧ ∀ md w0, extract_role prober row (VStr base) md role w0
                                  = (Raise e, w0)).
  { unfold extract_role, getitem.
    destruct (row !! role) as [[| |filename|items|text type_text]|];
      try discriminate Hbad; eexists; (split; [|reflexivity]);
      cbn; eauto. }
  destruct Hrole as (e & Herr & Hraise).
  exists e, (after_roles prober base row earlier w1).
  split; [exact Herr|].
  intros after. unfold extract_all in *.
  apply (for_each_raises _ _ _ _ _ _ _ _ _ Hrun).
  unfold extract_metadata, getitem. rewrite Hbase, Hroles.
  rewrite bind_return with (a := VStr base) (s1 := w1) by done.
  by apply extract_roles_bad.
Qed.

Lemma bad_cell_ends_extraction_witness :
  ∃ e w',
    cell_error "Video B" (list_cell_row !! "Video B"%string) e
    ∧ ∀ after,
        extract_all sample_prober
          ([sound_only_row] ++ list_cell_row :: after) fresh_world
        = (Raise e, w').
Proof.
  apply (bad_cell_ends_extraction sample_prober [sound_only_row] list_cell_row
           "/data/X__0" "Video B" ["Video A"%string]
           ["Video Total"; "Video AB"]%string fresh_world).
  - by apply Forall_singleton.
  - reflexivity.
  - reflexivity.
  - apply Forall_singleton. right. by exists "a.mp4"%string.
  - reflexivity.
Defined.

(** ** [download_data] on an output root that exists *)

Lemma input_returns prompt line rest w :
  answers w = line :: rest →
  input prompt w
  = (Return line,
     set_answers (λ _, rest) (set_printed (λ l, l ++ [prompt]) w)).
Proof.
  intros Hans. unfold input, print, bind, modify, gets. cbn. by rewrite Hans.
Qed.

Lemma preserves_weaken {A} (R R' : relation world) (m : M world A) :
  (∀ w w', R w w' → R' w w') → preserves R m → preserves R' m.
Proof. intros Hsub Hm w r w' Hrun. by eapply Hsub, Hm. Qed.

#[local] Instance keeps_stale_free_preorder root keep :
  PreOrder (keeps_stale_free root keep).
Proof.
  unfold keeps_stale_free. split; [by intros w|].
  intros w1 w2 w3 H12 H23 H1. by apply H23, H12.
Qed.

Lemma keeps_stale_free_download_rows server root keep base_dir rows :
  preserves (keeps_stale_free root keep) (download_rows server base_dir rows).
Proof.
  apply (preserves_weaken tables_untouched).
  - unfold tables_untouched, keeps_stale_free, stale_free.
    intros w w' Heq Hfree p Hp Hne. rewrite <- Heq. by apply Hfree.
  - apply (preserves_for_each tables_untouched). intros row.
    apply keeps_tables_download_file_row.
Qed.

(** X11. On an output root that exists, any answer to the prompt other
    than yes (in any case, with blanks around) aborts the download:
    [download_data] prints that it aborts and exits, having removed,
    created, requested and persisted nothing. The answer is a text of
    code points below 256, and the blanks are those of [str.strip] on
    them, the no-break space and the next-line character included. *)
Theorem declined_replacement_aborts_download
  (server : string → nat → response) (a : args) (df : list catalog_row)
  (w : world) (line : string) (rest : list string) :
  dgs_path a ∈ existing w →
  answers w = line :: rest →
  str_lower (str_strip line) ≠ "yes"%string →
  ∃ w',
    download_data server a df w = (Raise (OtherError "SystemExit"), w')
    ∧ printed w' = printed w ++ [replace_prompt a; "Download aborted."]%string
    ∧ answers w' = rest
    ∧ existing w' = existing w ∧ tables w' = tables w
    ∧ requests w' = requests w ∧ warnings w' = warnings w.
Proof.
  intros Hroot Hans Hno. unfold download_data.
  unfold bind at 1, gets. cbn [fst snd].
  destruct (decide (dgs_path a ∈ existing w)) as [_|]; [|done].
  apply String.eqb_neq in Hno.
  eexists. split.
  - apply bind_raise.
    rewrite (bind_return _ _ _ _ _ (input_returns _ _ _ _ Hans)).
    rewrite Hno. reflexivity.
  - cbn. by rewrite <- app_assoc.
Qed.

Lemma declined_replacement_aborts_download_witness :
  ∃ w',
    download_data always_up sample_args [sound_entry] (used_world "y")
    = (Raise (OtherError "SystemExit"), w')
    ∧ printed w'
      = printed (used_world "y")
        ++ [replace_prompt sample_args; "Download aborted."]%string
    ∧ answers w' = []
    ∧ existing w' = existing (used_world "y")
    ∧ tables w' = tables (used_world "y")
    ∧ requests w' = requests (used_world "y")
    ∧ warnings w' = warnings (used_world "y").
Proof.
  apply (declined_replacement_aborts_download always_up sample_args
           [sound_entry] (used_world "y") "y" []).
  - change ("/data/DGS"%string ∈ ({["/data/DGS"%string]} : gset string)).
    by apply elem_of_singleton_2.
  - reflexivity.
  - discriminate.
Defined.

(** X12. On an output root that exists, the answer yes makes
    [download_data] clear the root first: however the run ends, no table
    persisted below the root before the run is left; the only table
    that can be there afterwards is the one the run persists. *)
Theorem accepted_replacement_drops_old_tables
  (server : string → nat → response) (a : args) (df : list catalog_row)
  (w w' : world) (line : string) (rest : list string) (r : outcome unit) :
  dgs_path a ∈ existing w →
  answers w = line :: rest →
  str_lower (str_strip line) = "yes"%string →
  download_data server a df w = (r, w') →
  stale_free (dgs_path a) (table_path a) w'.
Proof.
  intros Hroot Hans Hyes Hrun. unfold download_data in Hrun.
  unfold bind at 1, gets in Hrun. cbn [fst snd] in Hrun.
  destruct (decide (dgs_path a ∈ existing w)) as [_|]; [|done].
  apply String.eqb_eq in Hyes.
  rewrite bind_return
    with (a := tt)
         (s1 := set_printed
                  (λ l, l ++ ["Removed existing directory " +:+ dgs_path a
                              +:+ "."])
                  (set_tables (filter (λ kv, below (dgs_path a) kv.1 = false))
                     (set_existing (filter (λ p, below (dgs_path a) p = false))
                        (set_answers (λ _, rest)
                           (set_printed (λ l, l ++ [replace_prompt a]) w)))))
    in Hrun.
  2: { rewrite (bind_return _ _ _ _ _ (input_returns _ _ _ _ Hans)).
       rewrite Hyes. reflexivity. }
  revert Hrun.
  match goal with |- ?m ?s = _ → _ =>
    assert (Hrest : preserves (keeps_stale_free (dgs_path a) (table_path a)) m)
  end.
  { apply (preserves_bind (keeps_stale_free (dgs_path a) (table_path a))).
    { unfold create_directory.
      apply (preserves_bind (keeps_stale_free (dgs_path a) (table_path a)));
        [apply (preserves_gets _)|].
      intros fs. destruct (decide _); [apply (preserves_ret _)|].
      intros w0 r0 w1 [= <- <-] Hfree. exact Hfree. }
    intros _. cbv zeta.
    apply (preserves_bind (keeps_stale_free (dgs_path a) (table_path a))).
    { destruct (forallb _ df);
        [apply (preserves_ret _)|apply (preserves_raise _)]. }
    intros _.
    apply (preserves_bind (keeps_stale_free (dgs_path a) (table_path a)));
      [apply keeps_stale_free_download_rows|].
    intros df_paths.
    apply (preserves_bind (keeps_stale_free (dgs_path a) (table_path a))).
    { destruct (bool_decide (df = []));
        [apply (preserves_raise _)|apply (preserves_ret _)]. }
    intros _.
    apply (preserves_bind (keeps_stale_free (dgs_path a) (table_path a))).
    - intros w0 r0 w1 [= <- <-] Hfree p Hp Hne. cbn.
      rewrite lookup_insert_ne by done. by apply Hfree.
    - intros _. intros w0 r0 w1 [= <- <-] Hfree. exact Hfree. }
  intros Hrun. apply (Hrest _ _ _ Hrun).
  intros p Hp _. cbn.
  apply map_lookup_filter_None_2. right. intros f _. cbn. by rewrite Hp.
Qed.

Lemma accepted_replacement_drops_old_tables_witness :
  tables (used_world " Yes ") !! "/data/DGS/dgs_korpus_metadata.csv"%string
  = Some (CsvFile [] [])
  ∧ tables
      (download_data always_up sample_args [sound_entry]
         (used_world " Yes ")).2
    !! "/data/DGS/dgs_korpus_metadata.csv"%string
    = None.
Proof.
  split; [reflexivity|].
  apply (accepted_replacement_drops_old_tables always_up sample_args
           [sound_entry] (used_world " Yes ") _ " Yes " []
           (download_data always_up sample_args [sound_entry]
              (used_world " Yes ")).1).
  - change ("/data/DGS"%string ∈ ({["/data/DGS"%string]} : gset string)).
    by apply elem_of_singleton_2.
  - reflexivity.
  - reflexivity.
  - by destruct (download_data always_up sample_args [sound_entry]
                   (used_world " Yes ")).
  - reflexivity.
  - discriminate.
Defined.

(** ** What [download_data] persists *)

Lemma download_data_returns server (a : args) (df : list catalog_row) w w' :
  download_data server a df w = (Return tt, w') →
  ∃ df_paths,
    length df_paths = length df
    ∧ tables w' !! table_path a
      = Some (to_csv_file
                (dataset_table (assign_identifiers (map transcript df)) df
                   df_paths))
    ∧ table_path a ∈ existing w'.
Proof.
  intros Hrun. unfold download_data in Hrun.
  apply bind_returns in Hrun as (fs & w1 & _ & Hrun).
  apply bind_returns in Hrun as (? & w2 & _ & Hrun).
  apply bind_returns in Hrun as (? & w3 & _ & Hrun). cbv zeta in Hrun.
  apply bind_returns in Hrun as (? & w4 & _ & Hrun).
  apply bind_returns in Hrun as (df_paths & w5 & Hrows & Hrun).
  apply bind_returns in Hrun as (? & w5' & _ & Hrun).
  apply bind_returns in Hrun as (? & w6 & Hcsv & Hprint).
  injection Hcsv as _ <-. injection Hprint as <-.
  exists df_paths. split.
  - apply for_each_returns, Forall2_length in Hrows.
    by rewrite <- Hrows, url_rows_length.
  - cbn. split; [apply lookup_insert_eq|]. set_solver.
Qed.

(** X13. On a fresh output root, with a server that fails only by
    request exceptions and a catalog that has rows, each with the three
    attributes and nine resource cells of the table, each null, a URL
    or a list of URLs, [download_data] returns whatever fails to
    download; it then has persisted, at the path of the table, the
    catalog merged with one ledger entry per row, under the
    identifiers. The table goes by a plain file name into the output
    root, the titles name one directory each and none of them is that
    of the table, so that nothing stands in the way of the write. *)
Theorem fresh_download_persists_table
  (server : string → nat → response) (a : args) (df : list catalog_row)
  (w : world) :
  fails_only_by_request server →
  dgs_path a ≠ ""%string →
  dgs_path a ∉ existing w →
  df ≠ [] →
  Forall well_sized df →
  Forall (λ r, forallb resource_slot (url_cells r) = true) df →
  csv_filepath a = None →
  plain_name (csv_filename a) = true →
  Forall (λ r, plain_name (transcript r) = true) df →
  csv_filename a ∉ assign_identifiers (map transcript df) →
  ∃ w' df_paths,
    download_data server a df w = (Return tt, w')
    ∧ length df_paths = length df
    ∧ table_path a = path_join (dgs_path a) (csv_filename a)
    ∧ tables w' !! table_path a
      = Some (to_csv_file
                (dataset_table (assign_identifiers (map transcript df)) df
                   df_paths))
    ∧ table_path a ∈ existing w'.
Proof.
  intros Hserver _ Hfresh Hrows_there Hsized Hslots Hpath _ _ _.
  destruct (for_each_total
              (λ row, download_file_row server row (dgs_path a) 3)
              (λ row, forallb resource_slot (items row).*2 = true)
              (url_rows df))
    with (s := set_existing (λ fs, {[dgs_path a]} ∪ fs) w)
    as (df_paths & w1 & Hrows).
  { intros row s Hrow. by apply download_file_row_total. }
  { apply Forall_forall. intros row Hrow.
    apply list_elem_of_lookup in Hrow as (j & Hj).
    rewrite url_rows_lookup in Hj.
    destruct (df !! j) as [r|] eqn:Hr; [|done]. injection Hj as <-.
    change (forallb resource_slot (zip url_columns (url_cells r)).*2 = true).
    assert (Hin : r ∈ df) by (apply list_elem_of_lookup; eauto).
    rewrite (proj2 (well_sized_items r
                      (proj1 (Forall_forall _ _) Hsized r Hin))).
    exact (proj1 (Forall_forall _ _) Hslots r Hin). }
  assert (Hrun : ∃ w', download_data server a df w = (Return tt, w')).
  { unfold download_data. unfold bind at 1, gets. cbn [fst snd].
    destruct (decide (dgs_path a ∈ existing w)) as [|_]; [done|].
    unfold bind at 1, ret at 1. unfold bind at 1.
    unfold create_directory at 1. unfold bind at 1, gets.
    destruct (decide (dgs_path a ∈ existing w)) as [|_]; [done|].
    unfold modify at 1. rewrite (well_sized_check _ Hsized).
    unfold bind at 1, ret at 1.
    fold (download_rows server (dgs_path a) (url_rows df)) in Hrows.
    rewrite (bind_return _ _ _ _ _ Hrows).
    rewrite bool_decide_eq_false_2 by done. eexists. reflexivity. }
  destruct Hrun as (w' & Hrun). exists w'.
  destruct (download_data_returns _ _ _ _ _ Hrun)
    as (paths & Hlen & Htab & Hthere).
  exists paths. split; [done|]. split; [done|]. split; [|done].
  unfold table_path. by rewrite Hpath.
Qed.

Lemma fresh_download_persists_table_witness :
  ∃ w' df_paths,
    download_data flaky_server sample_args [sound_entry; sound_entry]
      fresh_world = (Return tt, w')
    ∧ length df_paths = 2
    ∧ table_path sample_args = "/data/DGS/dgs_korpus_paths.csv"%string
    ∧ tables w' !! table_path sample_args
      = Some (to_csv_file
                (dataset_table
                   (assign_identifiers
                      (map transcript [sound_entry; sound_entry]))
                   [sound_entry; sound_entry] df_paths))
    ∧ table_path sample_args ∈ existing w'.
Proof.
  apply (fresh_download_persists_table flaky_server sample_args
           [sound_entry; sound_entry] fresh_world).
  - exact flaky_server_fails_only_by_request.
  - discriminate.
  - apply not_elem_of_empty.
  - discriminate.
  - repeat constructor.
  - repeat constructor.
  - reflexivity.
  - reflexivity.
  - repeat constructor.
  - vm_compute. intros Hin.
    repeat (apply elem_of_cons in Hin as [Hin|Hin]; [discriminate|]).
    by apply elem_of_nil in Hin.
Defined.

(** X14. What a download that returned has persisted is what the
    analysis looks for: read back at the path of the table, whatever
    the reader infers of the columns, the table has the identifiers as
    row keys and the columns of the attributes, the URLs and the
    ledger, so that the [Paths] group is there with one row per catalog
    row. *)
Theorem analysis_finds_persisted_table
  (server : string → nat → response)
  (infer_column : list string → option (list pyval))
  (a : args) (df : list catalog_row) (w w' : world) :
  download_data server a df w = (Return tt, w') →
  ∃ t,
    read_csv infer_column (table_path a) w' = (Return t, w')
    ∧ index t = assign_identifiers (map transcript df)
    ∧ (columns t).*1 = dataset_columns
    ∧ length (group_rows "Paths" t) = length df.
Proof.
  intros Hrun.
  destruct (download_data_returns _ _ _ _ _ Hrun) as (paths & Hlen & Htab & _).
  eexists. split.
  - unfold read_csv, bind, gets. cbn [fst snd]. rewrite Htab. reflexivity.
  - cbn [index columns read_csv_file to_csv_file csv_index csv_columns
         dataset_table].
    split; [done|]. split.
    + rewrite <- !list_fmap_compose. reflexivity.
    + unfold group_rows. rewrite length_imap.
      cbn [index read_csv_file to_csv_file csv_index dataset_table].
      by rewrite assign_identifiers_length, length_map.
Qed.

Lemma analysis_finds_persisted_table_witness :
  ∃ t,
    read_csv sample_inference (table_path sample_args)
      (download_data always_up sample_args [sound_entry; sound_entry]
         fresh_world).2
    = (Return t,
       (download_data always_up sample_args [sound_entry; sound_entry]
          fresh_world).2)
    ∧ index t = ["Y__0"; "Y__1"]%string.
Proof.
  destruct (analysis_finds_persisted_table always_up sample_inference
              sample_args [sound_entry; sound_entry] fresh_world
              (download_data always_up sample_args [sound_entry; sound_entry]
                 fresh_world).2)
    as (t & Hread & Hindex & _).
  - by vm_compute.
  - exists t. split; [exact Hread|]. rewrite Hindex. reflexivity.
Defined.

(** ** [analyze_data] before the table is read *)

(** X15. Without a persisted table [analyze_data] fails when it reads
    it, with the [FileNotFoundError] of the reader, which nothing
    catches; by then it has created the directory of the figures and
    printed that it did. No file is probed. *)
Theorem analysis_without_table_fails_late
  (infer_column : list string → option (list pyval))
  (prober : string → probe_result) (a : args) (w : world) :
  figures_dir a ∉ existing w →
  tables w !! table_path a = None →
  ∃ w',
    analyze_data infer_column prober a w
    = (Raise (OtherError "FileNotFoundError"), w')
    ∧ existing w' = {[figures_dir a]} ∪ existing w
    ∧ printed w'
      = printed w ++ ["Created directory " +:+ figures_dir a +:+ "."]
    ∧ probes w' = probes w ∧ tables w' = tables w.
Proof.
  intros Hfresh Hnone. unfold analyze_data. fold (figures_dir a).
  unfold bind at 1, gets. cbn [fst snd].
  destruct (decide (figures_dir a ∈ existing w)) as [|_]; [done|].
  unfold bind at 1, ret at 1.
  unfold bind at 1, modify at 1. unfold bind at 1, print at 1, modify at 1.
  eexists. split.
  - apply bind_raise. unfold read_csv, bind, gets.
    cbn [fst snd tables set_printed set_existing].
    rewrite Hnone. reflexivity.
  - done.
Qed.

Lemma analysis_without_table_fails_late_witness :
  ∃ w',
    analyze_data sample_inference sample_prober sample_args fresh_world
    = (Raise (OtherError "FileNotFoundError"), w')
    ∧ existing w' = {[figures_dir sample_args]} ∪ existing fresh_world
    ∧ printed w'
      = printed fresh_world
        ++ ["Created directory " +:+ figures_dir sample_args +:+ "."]
    ∧ probes w' = probes fresh_world ∧ tables w' = tables fresh_world.
Proof.
  apply (analysis_without_table_fails_late sample_inference sample_prober
           sample_args fresh_world).
  - apply not_elem_of_empty.
  - reflexivity.
Defined.

(** X16. When the directory of the figures exists, any answer to the
    prompt other than yes (in any case, with blanks around) makes
    [analyze_data] return at once: it prints that the operation is
    aborted, reads no table and probes no file, and the directory and
    its content stay. The answer is a text of code points below 256,
    and the blanks are those of [str.strip] on them, the no-break space
    and the next-line character included. *)
Theorem declined_analysis_returns_early
  (infer_column : list string → option (list pyval))
  (prober : string → probe_result) (a : args) (w : world)
  (line : string) (rest : list string) :
  figures_dir a ∈ existing w →
  answers w = line :: rest →
  str_lower (str_strip line) ≠ "yes"%string →
  ∃ w',
    analyze_data infer_column prober a w = (Return None, w')
    ∧ printed w' = printed w ++ [figures_prompt a; "Operation aborted."]%string
    ∧ answers w' = rest
    ∧ existing w' = existing w ∧ tables w' = tables w
    ∧ probes w' = probes w.
Proof.
  intros Hthere Hans Hno. unfold analyze_data. fold (figures_dir a).
  unfold bind at 1, gets. cbn [fst snd].
  destruct (decide (figures_dir a ∈ existing w)) as [_|]; [|done].
  apply String.eqb_neq in Hno.
  eexists. split.
  - rewrite bind_return
      with (a := false)
           (s1 := set_printed (λ l, l ++ ["Operation aborted."%string])
                    (set_answers (λ _, rest)
                       (set_printed (λ l, l ++ [figures_prompt a]) w))).
    + reflexivity.
    + rewrite (bind_return _ _ _ _ _ (input_returns _ _ _ _ Hans)).
      rewrite Hno. reflexivity.
  - cbn. by rewrite <- app_assoc.
Qed.

Lemma declined_analysis_returns_early_witness :
  ∃ w',
    analyze_data sample_inference sample_prober sample_args
      (analysed_world "no")
    = (Return None, w')
    ∧ printed w'
      = printed (analysed_world "no")
        ++ [figures_prompt sample_args; "Operation aborted."]%string
    ∧ answers w' = []
    ∧ existing w' = existing (analysed_world "no")
    ∧ tables w' = tables (analysed_world "no")
    ∧ probes w' = probes (analysed_world "no").
Proof.
  apply (declined_analysis_returns_early sample_inference sample_prober
           sample_args (analysed_world "no") "no" []).
  - change ("/data/DGS/_figures"%string
            ∈ ({["/data/DGS/_figures"%string]} : gset string)).
    by apply elem_of_singleton_2.
  - reflexivity.
  - discriminate.
Defined.

(** * datasets/Youtube-SL-25/youtube-sl-25.py: further properties *)

Section UnitFacts.

Variable youtube : string → YT.video_result.
Variable shell : string → gset string → gset string.

Lemma download_video_returns video_id directory_name w :
  ∃ w',
    YT.download_video youtube video_id directory_name w = (Return tt, w')
    ∧ YT.network w' = YT.network w ++ [YT.video_url video_id]
    ∧ YT.progress w' = YT.progress w
    ∧ YT.commands w' = YT.commands w
    ∧ YT.answers w' = YT.answers w
    ∧ length (YT.printed w') = S (length (YT.printed w)).
Proof.
  unfold YT.download_video. destruct (youtube video_id); eexists;
    (split; [reflexivity|]); cbn; rewrite length_app; cbn;
    repeat split; lia.
Qed.

Lemma download_rows_unit lang_dir items :
  Forall (λ video, length video = 2) items →
  ∀ w, ∃ done w',
    for_each (YT.download_row youtube lang_dir) items w = (Return done, w')
    ∧ YT.network w'
      = YT.network w ++ map (λ video, YT.video_url (hd ""%string video)) items
    ∧ YT.progress w' = YT.progress w + length items
    ∧ YT.commands w' = YT.commands w
    ∧ YT.answers w' = YT.answers w
    ∧ length (YT.printed w') = length (YT.printed w) + length items.
Proof.
  induction 1 as [|video rest Hvideo _ IH]; intros w.
  - exists [], w. cbn. rewrite app_nil_r. repeat split; lia.
  - destruct video as [|video_id [|language [|]]]; try discriminate Hvideo.
    destruct (download_video_returns video_id lang_dir w)
      as (w1 & Hrun & Hnet & Hprog & Hcmd & Hans & Hprint).
    destruct (IH (YT.set_progress (λ done, done + 1) w1))
      as (done & w' & Hrest & Hnet' & Hprog' & Hcmd' & Hans' & Hprint').
    exists (tt :: done), w'. split.
    { cbn [for_each YT.download_row].
      rewrite bind_return
        with (a := tt) (s1 := YT.set_progress (λ done, done + 1) w1).
      - by rewrite (bind_return _ _ _ _ _ Hrest).
      - by rewrite (bind_return _ _ _ _ _ Hrun). }
    cbn in Hnet', Hprog', Hcmd', Hans', Hprint'. cbn [map hd length].
    rewrite Hnet', Hnet, Hprog', Hprog, Hcmd', Hcmd, Hans', Hans, Hprint',
      Hprint, <- app_assoc.
    repeat split; lia.
Qed.



Lemma download_rows_progress lang_dir items :
  ∀ w done w',
    for_each (YT.download_row youtube lang_dir) items w = (Return done, w') →
    YT.progress w' = YT.progress w + length items.
Proof.
  induction items as [|video rest IH]; intros w done w' Hrun.
  - injection Hrun as _ <-. cbn. lia.
  - cbn [for_each] in Hrun.
    apply bind_returns in Hrun as (? & w1 & Hrow & Hrun).
    apply bind_returns in Hrun as (? & w2 & Hrest & Hret).
    injection Hret as _ <-. rewrite (IH _ _ _ Hrest).
    destruct video as [|video_id [|language [|]]]; try discriminate Hrow.
    cbn [YT.download_row] in Hrow.
    apply bind_returns in Hrow as (? & w0 & Hvideo & Hbar).
    destruct (download_video_returns video_id lang_dir w)
      as (w0' & Hrun' & _ & Hprog & _).
    rewrite Hvideo in Hrun'. injection Hrun' as _ <-.
    injection Hbar as _ <-. cbn. lia.
Qed.

Lemma handle_existing_directory_progress directory_name option w r w' :
  YT.handle_existing_directory shell directory_name option w = (r, w') →
  YT.progress w' = YT.progress w.
Proof.
  assert (Hall : ∀ w0 r0 w1,
             (do YT.rm_rf shell directory_name in
              do YT.create_directory directory_name in
              ret true) w0 = (r0, w1) →
             YT.progress w1 = YT.progress w0).
  { intros w0 r0 w1. unfold YT.rm_rf, YT.create_directory, bind, modify, gets.
    destruct (YT.shell_word directory_name); cbn;
      destruct (decide _); by intros [= _ <-]. }
  destruct option; cbn [YT.handle_existing_directory].
  - apply Hall.
  - by intros [= _ <-].
  - unfold YT.input, YT.print. unfold bind at 1 2 3, modify at 1, gets at 1.
    cbn [fst snd]. destruct (YT.answers _) as [|line rest] eqn:Hans.
    + by intros [= _ <-].
    + unfold bind at 1, modify at 1, ret at 1. cbn [fst snd].
      destruct (String.eqb _ _).
      * intros Hrun. by rewrite (Hall _ _ _ Hrun).
      * by intros [= _ <-].
Qed.

Lemma select_videos_returns keep video_data :
  ∀ w kept w',
    YT.select_videos keep video_data w = (Return kept, w') →
    w' = w
    ∧ Forall (λ video, 2 ≤ length video) video_data
    ∧ kept = List.filter (λ video, keep (nth 1 video ""%string)) video_data.
Proof.
  induction video_data as [|video rest IH]; intros w kept w' Hrun.
  - injection Hrun as <- <-. by repeat split.
  - cbn [YT.select_videos] in Hrun.
    apply bind_returns in Hrun as (language & w1 & Hlang & Hrun).
    apply bind_returns in Hrun as (kept' & w2 & Hrest & Hret).
    injection Hret as <- <-.
    destruct video as [|video_id [|lang fields]]; try discriminate Hlang.
    injection Hlang as <- <-.
    destruct (IH _ _ _ Hrest) as (-> & Hall & ->).
    split; [done|]. split; [constructor; [cbn; lia|done]|done].
Qed.

Lemma process_language_progress a video_data language w w' :
  YT.process_language youtube shell a video_data language w = (Return tt, w') →
  YT.progress w'
  = YT.progress w + length (YT.unit_items language video_data).
Proof.
  intros Hrun. unfold YT.process_language in Hrun.
  apply bind_returns in Hrun as (lang_videos & w1 & Hsel & Hrun).
  apply select_videos_returns in Hsel as (-> & _ & ->).
  fold (YT.unit_items language video_data) in Hrun.
  apply bind_returns in Hrun as (fs & w1 & [= <- <-] & Hrun).
  apply bind_returns in Hrun as (proceed & w2 & Hdir & Hrun).
  assert (Hdone : if proceed then YT.progress w2 = YT.progress w
                  else YT.progress w2
                       = YT.progress w
                         + length (YT.unit_items language video_data)).
  { destruct (decide _).
    - apply bind_returns in Hdir as (replaced & w3 & Hhandle & Hdir).
      apply handle_existing_directory_progress in Hhandle.
      destruct replaced; cbn [negb] in Hdir.
      + by injection Hdir as <- <-.
      + injection Hdir as <- <-. cbn. by rewrite Hhandle.
    - unfold YT.create_directory, bind, gets, modify in Hdir. cbn in Hdir.
      destruct (decide _); by injection Hdir as <- <-. }
  destruct proceed.
  - apply bind_returns in Hrun as (done & w3 & Hrows & [= <-]).
    by rewrite (download_rows_progress _ _ _ _ _ Hrows), Hdone.
  - by injection Hrun as <-.
Qed.

End UnitFacts.



(** ** The total progress of [main] *)

Section ProgressFacts.

Variable youtube : string → YT.video_result.
Variable shell : string → gset string → gset string.

Lemma languages_progress a video_data languages :
  ∀ w done w',
    for_each (YT.process_language youtube shell a video_data) languages w
    = (Return done, w') →
    YT.progress w'
    = YT.progress w
      + sum_list (map (λ l, length (YT.unit_items l video_data)) languages).
Proof.
  induction languages as [|language rest IH]; intros w done w' Hrun.
  - injection Hrun as _ <-. cbn. lia.
  - cbn [for_each] in Hrun.
    apply bind_returns in Hrun as ([] & w1 & Hunit & Hrun).
    apply bind_returns in Hrun as (? & w2 & Hrest & Hret).
    injection Hret as _ <-.
    rewrite (IH _ _ _ Hrest), (process_language_progress _ _ _ _ _ _ _ Hunit).
    cbn. lia.
Qed.

Lemma one_unit_per_video (video : list string) (f : string → list (list string))
  (language : string) (languages : list string) :
  NoDup languages →
  sum_list (map (λ l, length (if String.eqb l language
                              then video :: f l else f l)) languages)
  = (if bool_decide (language ∈ languages) then 1 else 0)
    + sum_list (map (λ l, length (f l)) languages).
Proof.
  induction 1 as [|l rest Hl _ IH]; [by cbn|].
  cbn [map sum_list]. rewrite IH.
  destruct (String.eqb l language) eqn:Heq.
  - apply String.eqb_eq in Heq as ->.
    rewrite (bool_decide_eq_true_2 (language ∈ language :: rest))
      by apply list_elem_of_here.
    rewrite (bool_decide_eq_false_2 (language ∈ rest)) by done. cbn. lia.
  - apply String.eqb_neq in Heq.
    destruct (bool_decide (language ∈ rest)) eqn:Hin.
    + apply bool_decide_eq_true_1 in Hin.
      rewrite (bool_decide_eq_true_2 (language ∈ l :: rest))
        by by apply list_elem_of_further.
      lia.
    + apply bool_decide_eq_false_1 in Hin.
      rewrite (bool_decide_eq_false_2 (language ∈ l :: rest)); [lia|].
      intros [->|?]%elem_of_cons; done.
Qed.

Lemma units_cover (video_data : list (list string)) (languages : list string) :
  NoDup languages →
  (∀ video, video ∈ video_data → nth 1 video ""%string ∈ languages) →
  sum_list (map (λ l, length (YT.unit_items l video_data)) languages)
  = length video_data.
Proof.
  intros Hnodup. induction video_data as [|video rest IH]; intros Hcover.
  - clear. induction languages as [|l ls IHl]; [done|].
    cbn [map sum_list]. by rewrite IHl.
  - unfold YT.unit_items. cbn [List.filter].
    rewrite (one_unit_per_video video
               (λ l, List.filter
                       (λ video, String.eqb l (nth 1 video ""%string)) rest)
               (nth 1 video ""%string) languages Hnodup).
    rewrite bool_decide_eq_true_2 by apply Hcover, list_elem_of_here.
    cbn [length]. f_equal. apply IH.
    intros v Hv. by apply Hcover, list_elem_of_further.
Qed.

Lemma language_tags (video_data : list (list string)) :
  ∀ (w : YT.world) tagged w',
    for_each YT.language_of video_data w = (Return tagged, w') →
    w' = w ∧ tagged = map (λ video, nth 1 video ""%string) video_data.
Proof.
  induction video_data as [|video rest IH]; intros w tagged w' Hrun.
  - by injection Hrun as <- <-.
  - cbn [for_each] in Hrun.
    apply bind_returns in Hrun as (language & w1 & Hlang & Hrun).
    apply bind_returns in Hrun as (tags & w2 & Hrest & Hret).
    injection Hret as <- <-.
    destruct video as [|video_id [|lang fields]]; try discriminate Hlang.
    injection Hlang as <- <-. by destruct (IH _ _ _ Hrest) as [-> ->].
Qed.

Lemma main_selects set_order a video_data w w' :
  YT.main youtube shell set_order a video_data w = (Return tt, w') →
  ∃ done,
    for_each (YT.process_language youtube shell a (YT.selected_videos a video_data))
      (set_order
         (list_to_set (map (λ video, nth 1 video ""%string)
                           (YT.selected_videos a video_data)))) w
    = (Return done, w').
Proof.
  intros Hrun. unfold YT.main in Hrun.
  apply bind_returns in Hrun as (selected & w1 & Hsel & Hrun).
  assert (selected = YT.selected_videos a video_data ∧ w1 = w) as [-> ->].
  { unfold YT.selected_videos. destruct (YT.languages a) as [|l ls].
    - by injection Hsel as <- <-.
    - by apply select_videos_returns in Hsel as (-> & _ & ->). }
  apply bind_returns in Hrun as (tagged & w2 & Htags & Hrun).
  apply language_tags in Htags as [-> ->].
  apply bind_returns in Hrun as (done & w3 & Hunits & [= <-]).
  by exists done.
Qed.

End ProgressFacts.

(** X19. Whenever [main] returns, the total progress bar is complete:
    it has advanced by the number of rows gone through, all of the
    file or those of the languages asked for, whichever languages were
    skipped, replaced or created and whichever downloads failed, and
    in whatever order the set of languages is iterated. *)
Theorem total_progress_is_complete
  (youtube : string → YT.video_result)
  (shell : string → gset string → gset string)
  (set_order : gset string → list string) (a : YT.args)
  (video_data : list (list string)) (w w' : YT.world) :
  YT.iterates_once set_order →
  YT.main youtube shell set_order a video_data w = (Return tt, w') →
  YT.progress w'
  = YT.progress w + length (YT.selected_videos a video_data).
Proof.
  intros Honce Hrun.
  apply main_selects in Hrun as (done & Hrun).
  rewrite (languages_progress _ _ _ _ _ _ _ _ Hrun). f_equal.
  destruct (Honce (list_to_set (map (λ video, nth 1 video ""%string)
                                    (YT.selected_videos a video_data))))
    as [Hnodup Hmem].
  apply units_cover; [done|].
  intros video Hin. apply Hmem, elem_of_list_to_set.
  apply list_elem_of_fmap. by exists video.
Qed.

Lemma total_progress_is_complete_witness :
  YT.progress
    (YT.main YT.sample_youtube YT.quiet_shell elements YT.sample_args YT.sample_videos
       YT.sample_world).2
  = YT.progress YT.sample_world
    + length (YT.selected_videos YT.sample_args YT.sample_videos).
Proof.
  apply (total_progress_is_complete YT.sample_youtube YT.quiet_shell elements YT.sample_args
           YT.sample_videos YT.sample_world).
  - intros s. split; [apply NoDup_elements|]. intros x. apply elem_of_elements.
  - by vm_compute.
Defined.

(** ** The policies on a directory that exists *)

Lemma yt_input_returns prompt line rest (w : YT.world) :
  YT.answers w = line :: rest →
  YT.input prompt w
  = (Return line,
     YT.set_answers (λ _, rest) (YT.set_printed (λ l, l ++ [prompt]) w)).
Proof.
  intros Hans. unfold YT.input, YT.print, bind, modify, gets. cbn.
  by rewrite Hans.
Qed.

(** X20. With the policy [custom], for a language whose directory
    exists, any answer to the prompt other than y (in any case, with
    blanks around), the word yes included, leaves the unit as the
    policy [skip] does: nothing is contacted, written, removed or run,
    the skipping is printed after the prompt, and the total progress
    advances by the number of videos of the language. The answer is a
    text of code points below 256, and the blanks are those of
    [str.strip] on them, the no-break space and the next-line character
    included. *)
Theorem custom_decline_leaves_unit_untouched
  (youtube : string → YT.video_result)
  (shell : string → gset string → gset string) (a : YT.args)
  (video_data : list (list string)) (language line : string)
  (rest : list string) (w : YT.world) :
  YT.replace a = YT.Custom →
  path_join (YT.output_dir a) language ∈ YT.existing w →
  YT.answers w = line :: rest →
  str_lower (str_strip line) ≠ "y"%string →
  Forall (λ video, 2 ≤ length video) video_data →
  ∃ w',
    YT.process_language youtube shell a video_data language w = (Return tt, w')
    ∧ YT.network w' = YT.network w
    ∧ YT.written w' = YT.written w
    ∧ YT.commands w' = YT.commands w
    ∧ YT.existing w' = YT.existing w
    ∧ YT.answers w' = rest
    ∧ YT.printed w'
      = YT.printed w
        ++ [YT.replace_prompt (path_join (YT.output_dir a) language);
            "Skipping " +:+ path_join (YT.output_dir a) language]
    ∧ YT.progress w'
      = YT.progress w + length (YT.unit_items language video_data).
Proof.
  intros Hcustom Hthere Hans Hno Hrows. unfold YT.process_language.
  rewrite (bind_return _ _ _ _ _
             (select_videos_spec (String.eqb language) video_data w Hrows)).
  fold (YT.unit_items language video_data).
  unfold bind at 1, gets. cbn [fst snd].
  destruct (decide _) as [_|]; [|done].
  rewrite Hcustom. cbn [YT.handle_existing_directory].
  apply String.eqb_neq in Hno.
  eexists. split.
  - rewrite bind_return
      with (a := false)
           (s1 := YT.set_progress
                    (λ done, done + length (YT.unit_items language video_data))
                    (YT.set_printed
                       (λ l, l ++ ["Skipping "
                                   +:+ path_join (YT.output_dir a) language])
                       (YT.set_answers (λ _, rest)
                          (YT.set_printed
                             (λ l, l ++ [YT.replace_prompt
                                           (path_join (YT.output_dir a)
                                              language)]) w)))).
    + reflexivity.
    + rewrite bind_return
        with (a := false)
             (s1 := YT.set_answers (λ _, rest)
                      (YT.set_printed
                         (λ l, l ++ [YT.replace_prompt
                                       (path_join (YT.output_dir a)
                                          language)]) w)).
      * reflexivity.
      * rewrite (bind_return _ _ _ _ _ (yt_input_returns _ _ _ _ Hans)).
        by rewrite Hno.
  - cbn. by rewrite <- app_assoc.
Qed.

Lemma custom_decline_leaves_unit_untouched_witness :
  ∃ w',
    YT.process_language YT.sample_youtube YT.quiet_shell YT.custom_args YT.sample_videos
      "ase" (YT.asked_world "yes") = (Return tt, w')
    ∧ YT.network w' = YT.network (YT.asked_world "yes")
    ∧ YT.written w' = YT.written (YT.asked_world "yes")
    ∧ YT.commands w' = YT.commands (YT.asked_world "yes")
    ∧ YT.existing w' = YT.existing (YT.asked_world "yes")
    ∧ YT.answers w' = []
    ∧ YT.printed w'
      = YT.printed (YT.asked_world "yes")
        ++ [YT.replace_prompt (path_join (YT.output_dir YT.custom_args) "ase");
            "Skipping " +:+ path_join (YT.output_dir YT.custom_args) "ase"]
    ∧ YT.progress w'
      = YT.progress (YT.asked_world "yes")
        + length (YT.unit_items "ase" YT.sample_videos).
Proof.
  apply (custom_decline_leaves_unit_untouched YT.sample_youtube YT.quiet_shell YT.custom_args
           YT.sample_videos "ase" "yes" [] (YT.asked_world "yes")).
  - reflexivity.
  - change ("/out/ase"%string ∈ ({["/out/ase"%string]} : gset string)).
    by apply elem_of_singleton_2.
  - reflexivity.
  - discriminate.
  - repeat constructor.
Defined.

(** X21. With the policy [all], [handle_existing_directory] runs one
    removal command and creates the directory again. For a directory
    whose name the shell reads as one word, a name of letters, digits
    and [/ _ - . + , @ % :] that starts with no dash and ends in a
    component of its own, afterwards every path below the directory is
    gone, the directory itself is there, and the paths outside it are
    as before; it asks nothing and tells the caller to go on. The name
    goes into the command line without quotes, so that nothing of this
    is said of a name with a blank or another character that the shell
    reads. *)
Theorem replace_all_clears_directory
  (shell : string → gset string → gset string)
  (directory_name : string) (w : YT.world) :
  YT.shell_word directory_name = true →
  ∃ w',
    YT.handle_existing_directory shell directory_name YT.All w = (Return true, w')
    ∧ YT.commands w' = YT.commands w ++ ["rm -rf " +:+ directory_name]
    ∧ (∀ p, p ∈ YT.existing w'
            ↔ p = directory_name
              ∨ (p ∈ YT.existing w ∧ YT.below directory_name p = false))
    ∧ YT.answers w' = YT.answers w ∧ YT.printed w' = YT.printed w
    ∧ YT.network w' = YT.network w ∧ YT.written w' = YT.written w
    ∧ YT.progress w' = YT.progress w.
Proof.
  intros Hword. cbn [YT.handle_existing_directory].
  unfold YT.rm_rf, YT.create_directory, bind, modify, gets.
  rewrite Hword. cbn.
  assert (Hself : YT.below directory_name directory_name = true).
  { unfold YT.below. by rewrite String.eqb_refl. }
  destruct (decide _) as [Hin|_].
  { apply elem_of_filter in Hin as [Hout _]. congruence. }
  eexists. split; [reflexivity|]. cbn. split; [done|]. split; [|done].
  intros p. rewrite elem_of_union, elem_of_singleton, elem_of_filter.
  split.
  - intros [->|[Hout Hp]]; [by left|by right].
  - intros [->|[Hp Hout]]; [by left|by right].
Qed.

Lemma replace_all_clears_directory_witness :
  ∃ w',
    YT.handle_existing_directory YT.quiet_shell "/out/ase" YT.All
      YT.filled_world = (Return true, w')
    ∧ YT.commands w' = ["rm -rf /out/ase"]%string
    ∧ map (λ p, bool_decide (p ∈ YT.existing w'))
          ["/out/ase"; "/out/ase/id1_clip.mp4"; "/out/bfi"]%string
      = [true; false; true].
Proof.
  destruct (replace_all_clears_directory YT.quiet_shell "/out/ase"
              YT.filled_world)
    as (w' & Hrun & Hcommands & Hpaths & _); [reflexivity|].
  exists w'. split; [exact Hrun|]. split; [exact Hcommands|].
  cbn [map]. f_equal; [|f_equal; [|f_equal]].
  - apply bool_decide_eq_true_2, Hpaths. by left.
  - apply bool_decide_eq_false_2. intros Hin.
    apply Hpaths in Hin as [Heq|[_ Hout]]; discriminate.
  - apply bool_decide_eq_true_2, Hpaths. right. split; [|reflexivity].
    change ("/out/bfi"%string
            ∈ ({["/out/ase"; "/out/ase/id1_clip.mp4"; "/out/bfi"]}
               : gset string))%string.
    set_solver.
Defined.

(** ** Rows that do not have two fields *)

Section RowFacts.

Variable youtube : string → YT.video_result.
Variable shell : string → gset string → gset string.

Lemma select_videos_short keep (video_data : list (list string))
  (row : list string) (w : YT.world) :
  row ∈ video_data → length row < 2 →
  YT.select_videos keep video_data w
  = (Raise (IndexError "list index out of range"), w).
Proof.
  intros Hin Hshort. induction video_data as [|video rest IH].
  - by apply elem_of_nil in Hin.
  - cbn [YT.select_videos].
    destruct video as [|video_id [|language fields]]; try reflexivity.
    apply elem_of_cons in Hin as [->|Hin]; [cbn in Hshort; lia|].
    cbn [YT.language_of]. unfold bind at 1, ret at 1.
    by rewrite (bind_raise _ _ _ _ _ (IH Hin)).
Qed.

Lemma language_of_short (video_data : list (list string))
  (row : list string) (w : YT.world) :
  row ∈ video_data → length row < 2 →
  for_each YT.language_of video_data w
  = (Raise (IndexError "list index out of range"), w).
Proof.
  intros Hin Hshort. induction video_data as [|video rest IH].
  - by apply elem_of_nil in Hin.
  - cbn [for_each].
    destruct video as [|video_id [|language fields]]; try reflexivity.
    apply elem_of_cons in Hin as [->|Hin]; [cbn in Hshort; lia|].
    cbn [YT.language_of]. unfold bind at 1, ret at 1.
    by rewrite (bind_raise _ _ _ _ _ (IH Hin)).
Qed.

End RowFacts.

(** From the rows on, a row with fewer than two fields makes [main]
    raise before it does anything. *)
Lemma main_short_row
  (youtube : string → YT.video_result)
  (shell : string → gset string → gset string)
  (set_order : gset string → list string) (a : YT.args)
  (video_data : list (list string)) (row : list string) (w : YT.world) :
  row ∈ video_data →
  length row < 2 →
  YT.main youtube shell set_order a video_data w
  = (Raise (IndexError "list index out of range"), w).
Proof.
  intros Hin Hshort. unfold YT.main.
  destruct (YT.languages a) as [|l ls].
  - unfold bind at 1, ret at 1.
    by rewrite (bind_raise _ _ _ _ _ (language_of_short _ _ w Hin Hshort)).
  - by rewrite (bind_raise _ _ _ _ _
                  (select_videos_short _ _ _ w Hin Hshort)).
Qed.

(** X22. A row of the metadata file with fewer than two fields,
    anywhere in the file, makes [main] raise an [IndexError] as soon as
    the file is read: no directory is looked at or created, nothing is
    asked or printed, no video is asked of YouTube, and the progress
    stays. When the file is a local one, the world is as it was before
    the run. When the file is given by its address, as it is by
    default, the request for it and the file stored in the output
    directory are there, and nothing else. This holds with and without
    a selection of languages, and in whatever order the languages would
    have been gone through. *)
Theorem short_row_stops_main_at_once
  (youtube : string → YT.video_result)
  (shell : string → gset string → gset string)
  (set_order : gset string → list string)
  (csv_server : string → YT.csv_download) (url_path : string → string)
  (local_file : string → outcome string)
  (csv_reader : string → outcome (list (list string)))
  (a : YT.args) (content : string) (video_data : list (list string))
  (row : list string) (w : YT.world) :
  csv_reader content = Return video_data →
  row ∈ video_data →
  length row < 2 →
  (YT.is_url (YT.csv_file a) = false →
   local_file (YT.csv_file a) = Return content →
   YT.script_main youtube shell set_order csv_server url_path local_file
     csv_reader a w
   = (Raise (IndexError "list index out of range"), w))
  ∧ (YT.is_url (YT.csv_file a) = true →
     csv_server (YT.csv_file a) = YT.Stored content →
     YT.script_main youtube shell set_order csv_server url_path local_file
       csv_reader a w
     = (Raise (IndexError "list index out of range"),
        YT.csv_stored url_path a w)).
Proof.
  intros Hread Hin Hshort. split.
  - intros Hlocal Hfile. unfold YT.script_main. rewrite Hlocal.
    unfold bind at 1, ret at 1. rewrite Hfile.
    unfold YT.read_csv. rewrite Hread.
    unfold bind at 1, ret at 1. by apply main_short_row with (row := row).
  - intros Hurl Hserved. unfold YT.script_main. rewrite Hurl.
    rewrite bind_return
      with (a := Return content) (s1 := YT.csv_stored url_path a w).
    + unfold YT.read_csv. rewrite Hread.
      unfold bind at 1, ret at 1. by apply main_short_row with (row := row).
    + unfold YT.download_csv_from_url. rewrite Hserved. reflexivity.
Qed.

Lemma short_row_stops_main_at_once_witness :
  YT.script_main YT.sample_youtube YT.quiet_shell elements
    YT.sample_csv_server YT.sample_url_path YT.sample_local_file
    YT.sample_csv_reader YT.sample_args YT.sample_world
  = (Raise (IndexError "list index out of range"), YT.sample_world)
  ∧ YT.script_main YT.sample_youtube YT.quiet_shell elements
      YT.sample_csv_server YT.sample_url_path YT.sample_local_file
      YT.sample_csv_reader YT.remote_args YT.sample_world
    = (Raise (IndexError "list index out of range"),
       YT.World {["/out/metadata.csv"; "/out/ase"]}%string [] 
         ["https://host/sl/metadata.csv?alt=media"]%string
         [("/out", "metadata.csv")]%string [] [] 0).
Proof.
  assert (Hin : ["id4"%string] ∈ YT.sample_videos ++ [["id4"%string]]).
  { apply elem_of_app. right. apply list_elem_of_here. }
  assert (Hshort : length ["id4"%string] < 2) by (cbn; lia).
  split.
  - apply (short_row_stops_main_at_once YT.sample_youtube YT.quiet_shell
             elements YT.sample_csv_server YT.sample_url_path
             YT.sample_local_file YT.sample_csv_reader YT.sample_args
             "id1,ase" (YT.sample_videos ++ [["id4"%string]])
             ["id4"%string] YT.sample_world eq_refl Hin Hshort);
      reflexivity.
  - apply (short_row_stops_main_at_once YT.sample_youtube YT.quiet_shell
             elements YT.sample_csv_server YT.sample_url_path
             YT.sample_local_file YT.sample_csv_reader YT.remote_args
             "id1,ase" (YT.sample_videos ++ [["id4"%string]])
             ["id4"%string] YT.sample_world eq_refl Hin Hshort);
      reflexivity.
Defined.

(** X23. A row with more than two fields cannot be unpacked: when
    the videos of a language are gone through in a directory that was
    just created, the ones before such a row are tried, and the row
    then ends the run with a [ValueError] that nothing catches; the
    videos after it are not contacted. *)
Theorem overlong_row_ends_the_unit
  (youtube : string → YT.video_result)
  (shell : string → gset string → gset string) (a : YT.args)
  (video_data before after : list (list string)) (bad : list string)
  (language : string) (w : YT.world) :
  path_join (YT.output_dir a) language ∉ YT.existing w →
  Forall (λ video, 2 ≤ length video) video_data →
  YT.unit_items language video_data = before ++ bad :: after →
  Forall (λ video, length video = 2) before →
  2 < length bad →
  ∃ msg w',
    YT.process_language youtube shell a video_data language w
    = (Raise (ValueError msg), w')
    ∧ YT.network w'
      = YT.network w ++ map (λ video, YT.video_url (hd ""%string video)) before
    ∧ YT.progress w' = YT.progress w + length before.
Proof.
  intros Hfresh Hrows Hunit Hbefore Hbad. unfold YT.process_language.
  rewrite (bind_return _ _ _ _ _
             (select_videos_spec (String.eqb language) video_data w Hrows)).
  fold (YT.unit_items language video_data). rewrite Hunit.
  unfold bind at 1, gets. cbn [fst snd].
  destruct (decide _) as [|_]; [done|].
  rewrite bind_return
    with (a := true)
         (s1 := YT.set_existing
                  (λ fs, {[path_join (YT.output_dir a) language]} ∪ fs) w).
  2: { unfold YT.create_directory, bind, gets, modify. cbn.
       by destruct (decide _). }
  destruct (download_rows_unit youtube (path_join (YT.output_dir a) language)
              _ Hbefore
              (YT.set_existing
                 (λ fs, {[path_join (YT.output_dir a) language]} ∪ fs) w))
    as (done & w' & Hrun & Hnet & Hprog & _).
  exists "cannot unpack"%string, w'. split; [|by split].
  apply bind_raise.
  apply (for_each_raises _ _ _ _ _ _ _ _ _ Hrun).
  destruct bad as [|f1 [|f2 [|f3 more]]]; cbn in Hbad; try lia. reflexivity.
Qed.

Lemma overlong_row_ends_the_unit_witness :
  ∃ msg w',
    YT.process_language YT.sample_youtube YT.quiet_shell YT.sample_args
      [["id2"; "bfi"]; ["id5"; "bfi"; "extra"]; ["id6"; "bfi"]]%string
      "bfi" YT.sample_world
    = (Raise (ValueError msg), w')
    ∧ YT.network w'
      = YT.network YT.sample_world
        ++ map (λ video, YT.video_url (hd ""%string video))
               [["id2"; "bfi"]]%string
    ∧ YT.progress w' = YT.progress YT.sample_world + 1.
Proof.
  apply (overlong_row_ends_the_unit YT.sample_youtube YT.quiet_shell YT.sample_args
           [["id2"; "bfi"]; ["id5"; "bfi"; "extra"]; ["id6"; "bfi"]]%string
           [["id2"; "bfi"]]%string [["id6"; "bfi"]]%string
           ["id5"; "bfi"; "extra"]%string "bfi" YT.sample_world).
  - change ("/out/bfi"%string ∉ ({["/out/ase"%string]} : gset string)).
    by apply not_elem_of_singleton.
  - repeat constructor.
  - reflexivity.
  - repeat constructor.
  - cbn. lia.
Defined.

(** * datasets/DGS_Korpus/DGS_Korpus.py: further properties *)

(** ** Exceptions that [download_file] does not catch *)

(** X24. [download_file] retries request exceptions only. When, within
    the budget, an attempt ends in any other exception, the exception
    leaves [download_file] at once: no further attempt is made and no
    warning is logged for it, not even the one of giving up. The file is
    there afterwards exactly when it was there before or one of the
    attempts had opened it; nothing else is stored. *)
Theorem other_exceptions_are_not_retried
  (server : string → nat → response) (url save_path : string)
  (max_retries failures : nat) (opened : nat → bool) (errors : nat → string)
  (broken_off : bool) (e : exn) (w : world) :
  failures < max_retries →
  (∀ k, k < failures →
        server url (length (requests w) + k)
        = RequestException (opened k) (errors k)) →
  server url (length (requests w) + failures) = Uncaught broken_off e →
  ∃ w',
    download_file server url save_path max_retries w = (Raise e, w')
    ∧ requests w' = requests w ++ replicate (S failures) url
    ∧ warnings w'
      = warnings w
        ++ map (λ a, attempt_warning url a max_retries (errors a))
               (seq 0 failures)
    ∧ existing w'
      = (if (existsb opened (seq 0 failures) || broken_off)%bool
         then {[save_path]} ∪ existing w else existing w).
Proof.
  intros Hbudget Hfail Hstop. unfold download_file.
  destruct (download_attempts_skip_failures server url save_path max_retries
              opened errors failures 0 (max_retries - S failures) w)
    as (w1 & Hrun & Hreq & Hwarn & Hfs); [lia|done|].
  replace (failures + S (max_retries - S failures)) with max_retries in Hrun
    by lia.
  rewrite Hrun. cbn [Nat.add seq download_attempts].
  unfold bind at 1, gets. cbn [fst snd].
  unfold bind at 1, modify at 1. cbn [fst snd].
  rewrite Hreq, length_app, length_replicate, Hstop.
  assert (Hall : requests w ++ replicate failures url ++ [url]
                 = requests w ++ replicate (S failures) url).
  { f_equal. change [url] with (replicate 1 url).
    by rewrite <- replicate_add, Nat.add_1_r. }
  destruct broken_off; (eexists; split; [reflexivity|]); cbn;
    rewrite Hreq, Hwarn, Hfs, <- app_assoc, Hall, ?orb_true_r, ?orb_false_r;
    (split; [done|]); (split; [done|]); [|done].
  destruct (existsb opened (seq 0 failures)); [|done].
  by rewrite (assoc_L (∪)), (idemp_L (∪)).
Qed.

Lemma other_exceptions_are_not_retried_witness :
  ∃ w',
    download_file interrupted_server "https://host/a.mp4" "/data/a.mp4" 3
      fresh_world
    = (Raise (OtherError "KeyboardInterrupt"), w')
    ∧ requests w' = replicate 2 "https://host/a.mp4"%string
    ∧ warnings w'
      = ["Failed to download https://host/a.mp4 (Attempt 1/3): Connection broken"
        ]%string
    ∧ existing w' = {["/data/a.mp4"%string]} ∪ ∅.
Proof.
  destruct (other_exceptions_are_not_retried interrupted_server
              "https://host/a.mp4" "/data/a.mp4" 3 1 (λ _, true)
              (λ _, "Connection broken"%string) false
              (OtherError "KeyboardInterrupt") fresh_world)
    as (w' & Hrun & Hreq & Hwarn & Hfs).
  - lia.
  - intros [|k] Hk; [reflexivity|lia].
  - reflexivity.
  - exists w'. split; [exact Hrun|]. split; [exact Hreq|].
    split; [exact Hwarn | exact Hfs].
Defined.

(** ** The cells that [scrape_table] makes of the links *)

(** X25. The cell [scrape_table] makes of the links of a table cell is
    always one that [download_file_row] accepts (null, a URL, or a list
    of URLs, of two at least), and its URLs are the links, in their
    order: what is scraped is what will be requested. *)
Theorem scraped_cell_holds_the_links (links : list string) :
  resource_slot (classify_links links) = true
  ∧ unexpected_type (classify_links links) = false
  ∧ cell_urls (classify_links links) = links
  ∧ (∀ urls, classify_links links = VList urls → 2 ≤ length urls).
Proof.
  assert (Hstr : ∀ l : list string, forallb is_str (map VStr l) = true).
  { induction l as [|a l IH]; [done|]. cbn. exact IH. }
  assert (Hurls : ∀ l : list string,
             omap (λ u, match u with VStr url => Some url | _ => None end)
                  (map VStr l) = l).
  { induction l as [|a l IH]; [done|]. cbn. by rewrite IH. }
  destruct links as [|a [|b rest]]; cbn [classify_links].
  - repeat split. intros urls [=].
  - repeat split. intros urls [=].
  - split; [apply Hstr|]. split; [done|]. split; [apply Hurls|].
    intros urls [= <-]. cbn. lia.
Qed.

(** * datasets/Youtube-SL-25/youtube-sl-25.py: the file name *)

(** X26. The title that [download_video] puts in the file name holds
    none of the characters it takes out, keeps the other characters in
    their order, and a title without any of them is kept as it is. *)
Theorem sanitized_title_is_clean (title : string) :
  (∀ c, contains_char c YT.forbidden_in_filenames = true →
        contains_char c (YT.sanitize title) = false)
  ∧ YT.sanitize (YT.sanitize title) = YT.sanitize title
  ∧ (forallb (λ c, negb (contains_char c YT.forbidden_in_filenames))
             (String.list_ascii_of_string title) = true →
     YT.sanitize title = title).
Proof.
  unfold YT.sanitize.
  set (clean := λ c, contains_char c YT.forbidden_in_filenames = false).
  assert (Hkeep : ∀ l : list ascii,
             Forall clean l → filter clean l = l).
  { induction 1 as [|c l Hc _ IH]; [done|].
    rewrite filter_cons_True by done. by rewrite IH. }
  assert (Hclean : ∀ l : list ascii, Forall clean (filter clean l)).
  { intros l. apply Forall_forall. intros c Hc.
    by apply list_elem_of_filter in Hc as [Hc _]. }
  split; [|split].
  - intros c Hc.
    change (existsb (Ascii.eqb c)
              (String.list_ascii_of_string
                 (String.string_of_list_ascii
                    (filter clean (String.list_ascii_of_string title))))
            = false).
    rewrite String.list_ascii_of_string_of_list_ascii.
    apply not_true_is_false. intros Hin.
    apply existsb_exists in Hin as (c' & Hin & Heq).
    apply Ascii.eqb_eq in Heq as <-.
    apply list_elem_of_In, list_elem_of_filter in Hin as [Hclean' _].
    unfold clean in Hclean'. congruence.
  - rewrite String.list_ascii_of_string_of_list_ascii.
    by rewrite (Hkeep _ (Hclean _)).
  - intros Hall. rewrite Hkeep.
    + apply String.string_of_list_ascii_of_string.
    + apply Forall_forall. intros c Hc.
      apply list_elem_of_In in Hc.
      apply (proj1 (forallb_forall _ _) Hall) in Hc.
      by apply negb_true_iff in Hc.
Qed.
